(** * Order engine, export engine and download-token store of the shop backend

    A shallow embedding of the order routes mounted at [/api/orders] (the
    second module of [src/routes/auth.js]: order creation, status update,
    report export, deferred downloads) and of the notification service
    ([src/unnamed/part_001]), with the properties the specification states
    about them; then of the admin login, of the admin socket registry of
    [src/server.js] and of the product save of the catalogue routes, with
    properties read from the code. *)

From Stdlib Require Import ZArith List Bool Lia Sorted Permutation.
From Stdlib Require Import Floats.PrimFloat.
From stdpp Require Import gmap strings list pretty.

Local Open Scope string_scope.
Local Open Scope Z_scope.

(** ** JavaScript values as far as the handlers look at them *)

Module Js.

(** A field of a JSON body or of a result row: absent ([undefined]),
    [null], a number (a binary64 float) or a string. *)
Inductive value :=
  | Undefined
  | Null
  | Num (x : float)
  | Str (s : string).

(** [ToBoolean] of a number: [0], [-0] and [NaN] are falsy. *)
Definition truthy_num (x : float) : bool :=
  negb (PrimFloat.eqb x 0%float || PrimFloat.is_nan x).

(** [ToBoolean]: what [if (v)], [!v] and [v || d] test. *)
Definition truthy (v : value) : bool :=
  match v with
  | Undefined | Null => false
  | Num x => truthy_num x
  | Str s => negb (String.eqb s "")
  end.

(** [v || d] *)
Definition or_else (v d : value) : value := if truthy v then v else d.

(** [x || 0] on numbers *)
Definition num_or_zero (x : float) : float := if truthy_num x then x else 0%float.

(** [a === b] where [b] is a string literal. *)
Definition is_str (v : value) (lit : string) : bool :=
  match v with
  | Str s => String.eqb s lit
  | _ => false
  end.

(** [s.endsWith(suffix)] *)
Definition endsWith (s suffix : string) : bool :=
  let n := String.length s in
  let k := String.length suffix in
  Nat.leb k n && String.eqb (String.substring (Nat.sub n k) k s) suffix.

(** Library functions the handlers call and whose results they only pass
    on: number parsing and printing, date formatting.  They are left
    uninterpreted: the general statements below hold for all of them. *)
Class Builtins := {
  parseFloat : value -> float;
  parseInt : value -> float;
  numberToString : float -> string;
  toFixed2 : float -> string;
  formatDate : Z -> string -> string;
  toISOString : Z -> string
}.

(** [`${v}`] *)
Definition toString `{Builtins} (v : value) : string :=
  match v with
  | Undefined => "undefined"
  | Null => "null"
  | Num x => numberToString x
  | Str s => s
  end.

(** An interpretation for running the model on inputs made of numbers:
    parsing a number gives it back, anything else is [NaN]. *)
Definition numeric_builtins : Builtins := {|
  parseFloat v := match v with Num x => x | _ => PrimFloat.nan end;
  parseInt v := match v with Num x => x | _ => PrimFloat.nan end;
  numberToString _ := "<number>";
  toFixed2 _ := "<number>";
  formatDate t _ := pretty t;
  toISOString t := pretty t
|}.

End Js.

(** ** The download-token store *)

Module DownloadTokens.

(** The value stored under a token: [{ filename, expiresAt }]. *)
Record fileInfo := { filename : string; expiresAt : Z }.

(** [const downloadTokens = new Map()] *)
Abbreviation registry := (gmap string fileInfo).

(** Five minutes, in milliseconds. *)
Definition TTL : Z := 5 * 60 * 1000.

(** [createDownloadToken(filename)]; [now] is [Date.now()] and [token] the
    string the two [Math.random()] draws produce. *)
Definition createDownloadToken (now : Z) (token fname : string)
    (reg : registry) : string * registry :=
  (token, <[token := {| filename := fname; expiresAt := now + TTL |}]> reg).

(** [verifyDownloadToken(token)] *)
Definition verifyDownloadToken (now : Z) (token : string)
    (reg : registry) : option fileInfo * registry :=
  match reg !! token with
  | None => (None, reg)
  | Some fileInfo =>
      if expiresAt fileInfo <? now
      then (None, delete token reg)
      else (Some fileInfo, delete token reg)
  end.

(** What the process holds between requests: the registry and the names
    of the files present in the temporary directory. *)
Record server := { tokens : registry; temp : gset string }.

Inductive response :=
  | Unauthorized          (* 401 { error: 'Invalid or expired download token' } *)
  | NotFound              (* 404 { error: 'File not found' } *)
  | Streamed (contentType fname : string) (complete : bool).

Definition status (r : response) : Z :=
  match r with
  | Unauthorized => 401
  | NotFound => 404
  | Streamed _ _ _ => 200
  end.

Definition contentTypeOf (fname : string) : string :=
  if Js.endsWith fname ".xlsx"
  then "application/vnd.openxmlformats-officedocument.spreadsheetml.sheet"
  else if Js.endsWith fname ".pdf" then "application/pdf"
  else if Js.endsWith fname ".doc" then "application/msword"
  else "application/octet-stream".

(** [GET /download/:token].  [stream_ends] tells whether the read stream
    reaches its ['end'] event (the only place the file is unlinked) or
    breaks before. *)
Definition download (now : Z) (stream_ends : bool) (token : string)
    (s : server) : response * server :=
  let '(fileInfo, reg) := verifyDownloadToken now token (tokens s) in
  match fileInfo with
  | None => (Unauthorized, {| tokens := reg; temp := temp s |})
  | Some fi =>
      if decide (filename fi ∈ temp s)
      then (Streamed (contentTypeOf (filename fi)) (filename fi) stream_ends,
            {| tokens := reg;
               temp := if stream_ends then temp s ∖ {[filename fi]} else temp s |})
      else (NotFound, {| tokens := reg; temp := temp s |})
  end.

(** The tail of [POST /prepare-export]: the rendered file is on disk and
    its token is registered. *)
Definition register_export (now : Z) (token fname : string)
    (s : server) : string * server :=
  let '(tok, reg) := createDownloadToken now token fname (tokens s) in
  (tok, {| tokens := reg; temp := temp s ∪ {[fname]} |}).

End DownloadTokens.

(** ** Rows of the four tables the order engine touches *)

Module Order.
(** [orders]: [id] is the auto-increment key; [order_date] and
    [completed_date] are instants, the second one nullable. *)
Record row := {
  id : Z;
  name : Js.value;
  phone : Js.value;
  address : Js.value;
  notes : Js.value;
  status : Js.value;
  order_source : Js.value;
  order_date : Z;
  completed_date : option Z
}.
End Order.

Module Item.
(** [order_items]; [color_id] is nullable. *)
Record row := {
  order_id : Z;
  product_id : Z;
  quantity : Z;
  price : float;
  color_id : option Z
}.
End Item.

Module Product.
(** [products], the columns the engines read or write; [stock] is
    nullable. *)
Record row := { name_fr : string; stock : option Z }.
Definition with_stock (p : row) (s : Z) : row :=
  {| name_fr := name_fr p; stock := Some s |}.
End Product.

Module Color.
(** [product_colors] *)
Record row := { product_id : Z; stock : option Z }.
Definition with_stock (c : row) (s : Z) : row :=
  {| product_id := product_id c; stock := Some s |}.
End Color.

(** ** The notification a handler broadcasts *)

Module Notification.
Record t := {
  type : string;
  title : string;
  message : string;
  data : Order.row;
  timestamp : string
}.
End Notification.

(** ** The datastore, the socket channel, and handlers as computations *)

Module Store.

(** Tables are keyed by their primary key, except [order_items], which is
    only appended to and filtered. *)
Record tables := {
  orders : gmap Z Order.row;
  order_items : list Item.row;
  products : gmap Z Product.row;
  product_colors : gmap Z Color.row
}.

(** What one request runs against.  [committed] is what every connection
    sees; [tx] is the view of the leased connection inside its
    transaction; [auto_increment] is the [orders.id] counter, which a
    rollback does not restore; [calls] and [emits] count the datastore
    calls and the socket emissions made so far; [outbox] holds what was
    emitted, per socket id. *)
Record world := {
  committed : tables;
  auto_increment : Z;
  tx : tables;
  calls : nat;
  emits : nat;
  outbox : list (string * Notification.t)
}.

(** What the request does not control: which datastore call and which
    emission throws, the clock, the column default of [orders.status], and
    the admin sockets when [io] and [adminSockets] are both registered on
    the app. *)
Record env := {
  faulty : nat -> bool;
  emit_throws : nat -> bool;
  now : Z;
  default_status : Js.value;
  channel : option (list string)
}.

Inductive outcome (A : Type) :=
  | Ok (a : A)
  | Throw (message : string).
Arguments Ok {A} a.
Arguments Throw {A} message.

(** A piece of handler code: reads the environment, updates the world,
    returns or throws. *)
Definition M (A : Type) : Type := env -> world -> outcome A * world.

Definition ret {A} (a : A) : M A := fun _ w => (Ok a, w).

Definition bind {A B} (m : M A) (k : A -> M B) : M B := fun e w =>
  match m e w with
  | (Ok a, w') => k a e w'
  | (Throw msg, w') => (Throw msg, w')
  end.

Definition throw {A} (msg : string) : M A := fun _ w => (Throw msg, w).

(** [try { body } catch (err) { handler(err) }], the handler itself not
    throwing. *)
Definition try_catch {A} (body : M A) (handler : string -> env -> world -> A * world)
    : env -> world -> A * world := fun e w =>
  match body e w with
  | (Ok a, w') => (a, w')
  | (Throw msg, w') => handler msg e w'
  end.

#[global] Instance M_ret : MRet M := @ret.
#[global] Instance M_bind : MBind M := fun A B k m => bind m k.

(** [for (const x of l) { await f(x) }] *)
Fixpoint for_each {A} (f : A -> M unit) (l : list A) : M unit :=
  match l with
  | [] => ret tt
  | x :: l' => f x ;; for_each f l'
  end.

Definition tick (w : world) : world :=
  {| committed := committed w; auto_increment := auto_increment w; tx := tx w;
     calls := S (calls w); emits := emits w; outbox := outbox w |}.

(** One awaited datastore call: it throws when the environment says so,
    and runs otherwise. *)
Definition datastore {A} (m : M A) : M A := fun e w =>
  if faulty e (calls w) then (Throw "datastore error", tick w) else m e (tick w).

Definition set_tx (t : tables) (w : world) : world :=
  {| committed := committed w; auto_increment := auto_increment w; tx := t;
     calls := calls w; emits := emits w; outbox := outbox w |}.

Definition set_committed (t : tables) (w : world) : world :=
  {| committed := t; auto_increment := auto_increment w; tx := tx w;
     calls := calls w; emits := emits w; outbox := outbox w |}.

(** [connection.beginTransaction()] *)
Definition beginTransaction : M unit :=
  datastore (fun _ w => (Ok tt, set_tx (committed w) w)).

(** [connection.commit()] *)
Definition commit : M unit :=
  datastore (fun _ w => (Ok tt, set_committed (tx w) w)).

(** [connection.rollback()] in a [catch]: drops the connection's pending
    writes; it does not throw. *)
Definition rollback (w : world) : world := set_tx (committed w) w.

(** A statement run on the leased connection. *)
Definition on_connection (f : tables -> tables) : M unit :=
  datastore (fun _ w => (Ok tt, set_tx (f (tx w)) w)).

(** A statement run through the pool, outside any transaction. *)
Definition on_pool (f : tables -> tables) : M unit :=
  datastore (fun _ w => (Ok tt, set_committed (f (committed w)) w)).

(** A [SELECT] through the pool. *)
Definition select {A} (f : tables -> A) : M A :=
  datastore (fun _ w => (Ok (f (committed w)), w)).

Definition with_orders (f : gmap Z Order.row -> gmap Z Order.row) (t : tables) : tables :=
  {| orders := f (orders t); order_items := order_items t;
     products := products t; product_colors := product_colors t |}.

Definition with_order_items (f : list Item.row -> list Item.row) (t : tables) : tables :=
  {| orders := orders t; order_items := f (order_items t);
     products := products t; product_colors := product_colors t |}.

Definition with_products (f : gmap Z Product.row -> gmap Z Product.row) (t : tables) : tables :=
  {| orders := orders t; order_items := order_items t;
     products := f (products t); product_colors := product_colors t |}.

Definition with_product_colors (f : gmap Z Color.row -> gmap Z Color.row) (t : tables) : tables :=
  {| orders := orders t; order_items := order_items t;
     products := products t; product_colors := f (product_colors t) |}.

(** [INSERT INTO orders (...)] on the connection: the row gets the next
    auto-increment id, which the counter then passes; a key already taken
    is a duplicate-entry error.  Returns [insertId]. *)
Definition insert_order (mk : Z -> Order.row) : M Z :=
  datastore (fun _ w =>
    let k := auto_increment w in
    let w' := {| committed := committed w; auto_increment := k + 1; tx := tx w;
                 calls := calls w; emits := emits w; outbox := outbox w |} in
    match orders (tx w) !! k with
    | Some _ => (Throw "Duplicate entry", w')
    | None => (Ok k, set_tx (with_orders (insert k (mk k)) (tx w)) w')
    end).

(** [io.to(socketId).emit('notification', n)] *)
Definition emit (socketId : string) (n : Notification.t) : M unit := fun e w =>
  let w' := {| committed := committed w; auto_increment := auto_increment w; tx := tx w;
               calls := calls w; emits := S (emits w); outbox := outbox w |} in
  if emit_throws e (emits w) then (Throw "emit error", w')
  else (Ok tt, {| committed := committed w; auto_increment := auto_increment w; tx := tx w;
                  calls := calls w; emits := S (emits w);
                  outbox := outbox w ++ [(socketId, n)] |}).

(** Reading the environment. *)
Definition ask : M env := fun e w => (Ok e, w).

End Store.

(** ** Responses *)

Module Http.
Inductive body :=
  | Msg (msg : string)                       (* { msg } *)
  | OrderCreated (msg : string) (orderId : Z) (* { msg, orderId } *)
  | Error (error details : string)           (* { error, details } *)
  | Text (s : string).                       (* res.send(s) *)
Record response := { code : Z; payload : body }.
Definition json (c : Z) (b : body) : response := {| code := c; payload := b |}.
End Http.

(** ** [services/notificationService.js] *)

Module NotificationService.
Import Store.

(** [notifyAdmins(io, adminSockets, notification)]: fills in a missing
    timestamp and title, then emits to every admin socket in turn. *)
Definition notifyAdmins `{Js.Builtins} (adminSockets : list string)
    (notification : Notification.t) : M unit :=
  e ← ask;
  let n1 :=
    if String.eqb (Notification.timestamp notification) ""
    then {| Notification.type := Notification.type notification;
            Notification.title := Notification.title notification;
            Notification.message := Notification.message notification;
            Notification.data := Notification.data notification;
            Notification.timestamp := Js.toISOString (now e) |}
    else notification in
  let n2 :=
    if String.eqb (Notification.title n1) ""
    then {| Notification.type := Notification.type n1;
            Notification.title :=
              if String.eqb (Notification.type n1) "order" then "New Order"
              else if String.eqb (Notification.type n1) "stock" then "Stock Alert"
              else "Notification";
            Notification.message := Notification.message n1;
            Notification.data := Notification.data n1;
            Notification.timestamp := Notification.timestamp n1 |}
    else n1 in
  for_each (fun socketId => emit socketId n2) adminSockets.

End NotificationService.

(** ** The order routes *)

Module Req.
(** One element of [items].  Identifiers and quantities are JSON
    integers; [colorId] may be absent. *)
Record item := {
  productId : Z;
  colorId : option Z;
  quantity : Z;
  price : Js.value
}.
(** The body of an order-creation request; [items] may be absent. *)
Record body := {
  name : Js.value;
  phone : Js.value;
  address : Js.value;
  notes : Js.value;
  items : option (list item);
  order_source : Js.value
}.
End Req.

Module OrderRoutes.
Import Store.

(** [if (item.colorId)] *)
Definition truthy_id (c : option Z) : bool :=
  match c with
  | Some k => negb (k =? 0)
  | None => false
  end.

(** [item.colorId || null] *)
Definition id_or_null (c : option Z) : option Z := if truthy_id c then c else None.

(** [UPDATE product_colors SET stock = stock - ?
     WHERE id = ? AND product_id = ? AND stock >= ?]
    with parameters [(quantity, colorId, productId, quantity)]. *)
Definition update_color_stock (q colorId productId : Z)
    (m : gmap Z Color.row) : gmap Z Color.row :=
  match m !! colorId with
  | Some c =>
      match Color.stock c with
      | Some s =>
          if (Color.product_id c =? productId) && (q <=? s)
          then <[colorId := Color.with_stock c (s - q)]> m
          else m
      | None => m
      end
  | None => m
  end.

(** [UPDATE products SET stock = stock - ? WHERE id = ? AND stock >= ?]
    with parameters [(quantity, productId, quantity)]. *)
Definition update_product_stock (q productId : Z)
    (m : gmap Z Product.row) : gmap Z Product.row :=
  match m !! productId with
  | Some p =>
      match Product.stock p with
      | Some s =>
          if q <=? s
          then <[productId := Product.with_stock p (s - q)]> m
          else m
      | None => m
      end
  | None => m
  end.

(** The [order_items] row of one item. *)
Definition item_row `{Js.Builtins} (orderId : Z) (item : Req.item) : Item.row :=
  let finalPrice := Js.num_or_zero (Js.parseFloat (Req.price item)) in
  {| Item.order_id := orderId;
     Item.product_id := Req.productId item;
     Item.quantity := Req.quantity item;
     Item.price := finalPrice;
     Item.color_id := id_or_null (Req.colorId item) |}.

(** [INSERT INTO order_items (...)] *)
Definition insert_item `{Js.Builtins} (orderId : Z) (item : Req.item) : M unit :=
  on_connection (with_order_items (fun rows => (rows ++ [item_row orderId item])%list)).

(** The stock statement of one item of a regular order. *)
Definition stock_update (item : Req.item) : tables -> tables :=
  if truthy_id (Req.colorId item)
  then with_product_colors
         (update_color_stock (Req.quantity item) (default 0 (Req.colorId item))
                             (Req.productId item))
  else with_products (update_product_stock (Req.quantity item) (Req.productId item)).

(** The body of the [for (const item of items)] loop of [POST /]. *)
Definition item_step `{Js.Builtins} (isWhatsAppOrder : bool) (orderId : Z)
    (item : Req.item) : M unit :=
  insert_item orderId item;;
  if negb isWhatsAppOrder then on_connection (stock_update item) else mret tt.

(** The post-commit block shared by both creation routes: re-read the
    order and, when a channel is registered, notify the admins. *)
Definition notify_new_order `{Js.Builtins} (orderId : Z)
    (mk : Order.row -> string * string) : M unit :=
  orderDetails ← select (fun t => orders t !! orderId);
  match orderDetails with
  | Some orderData =>
      e ← ask;
      match channel e with
      | Some adminSockets =>
          let currentTime := Js.toISOString (now e) in
          NotificationService.notifyAdmins adminSockets
            {| Notification.type := "order";
               Notification.title := fst (mk orderData);
               Notification.message := snd (mk orderData);
               Notification.data := orderData;
               Notification.timestamp := currentTime |}
      | None => mret tt
      end
  | None => mret tt
  end.

(** [!items || items.length === 0] *)
Definition no_items (items : option (list Req.item)) : bool :=
  match items with
  | None | Some [] => true
  | Some (_ :: _) => false
  end.

(** [!name || !phone || !address] *)
Definition missing_customer (b : Req.body) : bool :=
  negb (Js.truthy (Req.name b)) || negb (Js.truthy (Req.phone b))
  || negb (Js.truthy (Req.address b)).

(** The row [POST /] inserts, once the key is known. *)
Definition new_order_row (e : env) (isWhatsAppOrder : bool) (b : Req.body)
    (k : Z) : Order.row :=
  {| Order.id := k;
     Order.name := if isWhatsAppOrder then Js.Str "WhatsApp Order" else Req.name b;
     Order.phone := if isWhatsAppOrder then Js.Str "WhatsApp" else Req.phone b;
     Order.address :=
       if isWhatsAppOrder then Js.Str "To be provided via WhatsApp" else Req.address b;
     Order.notes :=
       if isWhatsAppOrder then Js.Str "Customer will provide details via WhatsApp"
       else Js.or_else (Req.notes b) Js.Null;
     Order.status := default_status e;
     Order.order_source := Js.Str (if isWhatsAppOrder then "whatsapp" else "website");
     Order.order_date := now e;
     Order.completed_date := None |}.

(** Title and message of the notification of [POST /]. *)
Definition order_notice `{Js.Builtins} (isWhatsAppOrder : bool) (orderData : Order.row)
    : string * string :=
  if isWhatsAppOrder
  then ("WhatsApp Order",
        String.append "New WhatsApp order #"
          (String.append (pretty (Order.id orderData)) " created"))
  else ("New Order",
        String.append "New order #"
          (String.append (pretty (Order.id orderData))
             (String.append " from " (Js.toString (Order.name orderData))))).

(** Title and message of the notification of [POST /whatsapp]. *)
Definition whatsapp_notice (orderData : Order.row) : string * string :=
  ("WhatsApp Order",
   String.append "New WhatsApp order #"
     (String.append (pretty (Order.id orderData)) " created")).

(** [router.post('/')]: create an order. *)
Definition post_orders `{Js.Builtins} (b : Req.body)
    : env -> world -> Http.response * world :=
  try_catch
    (beginTransaction;;
     if no_items (Req.items b)
     then mret (Http.json 400 (Http.Msg "Missing required items"))
     else
       let isWhatsAppOrder := Js.is_str (Req.order_source b) "whatsapp" in
       if negb isWhatsAppOrder && missing_customer b
       then mret (Http.json 400 (Http.Msg "Missing required customer information"))
       else
         e ← ask;
         orderId ← insert_order (new_order_row e isWhatsAppOrder b);
         for_each (item_step isWhatsAppOrder orderId) (default [] (Req.items b));;
         commit;;
         notify_new_order orderId (order_notice isWhatsAppOrder);;
         mret (Http.json 201 (Http.OrderCreated "Order created successfully" orderId)))
    (fun msg _ w => (Http.json 500 (Http.Error "Server error" msg), rollback w)).

(** The row [POST /whatsapp] inserts. *)
Definition new_whatsapp_row (e : env) (b : Req.body) (k : Z) : Order.row :=
  {| Order.id := k;
     Order.name := Js.or_else (Req.name b) (Js.Str "WhatsApp Order");
     Order.phone := Js.or_else (Req.phone b) (Js.Str "WhatsApp");
     Order.address := Js.or_else (Req.address b) (Js.Str "To be provided via WhatsApp");
     Order.notes :=
       Js.or_else (Req.notes b) (Js.Str "Customer will provide details via WhatsApp");
     Order.status := Js.Str "pending";
     Order.order_source := Js.Str "whatsapp";
     Order.order_date := now e;
     Order.completed_date := None |}.

(** [router.post('/whatsapp')]: create an order from a WhatsApp cart. *)
Definition post_orders_whatsapp `{Js.Builtins} (b : Req.body)
    : env -> world -> Http.response * world :=
  try_catch
    (beginTransaction;;
     if no_items (Req.items b)
     then mret (Http.json 400 (Http.Msg "Missing required items"))
     else
       e ← ask;
       orderId ← insert_order (new_whatsapp_row e b);
       for_each (insert_item orderId) (default [] (Req.items b));;
       commit;;
       notify_new_order orderId whatsapp_notice;;
       mret (Http.json 201 (Http.OrderCreated "WhatsApp order created successfully" orderId)))
    (fun msg _ w => (Http.json 500 (Http.Error "Server error" msg), rollback w)).

(** [['pending', 'confirmed', 'delivered', 'cancelled'].includes(status)] *)
Definition valid_status (status : Js.value) : bool :=
  Js.is_str status "pending" || Js.is_str status "confirmed"
  || Js.is_str status "delivered" || Js.is_str status "cancelled".

(** The value the handler writes to [completed_date]: the stored one,
    unless the status is ['delivered'] and none is stored yet. *)
Definition next_completed_date (e : env) (status : Js.value) (o : Order.row) : option Z :=
  let completedDate := Order.completed_date o in
  if Js.is_str status "delivered" && negb (bool_decide (is_Some completedDate))
  then Some (now e)
  else completedDate.

(** [UPDATE orders SET status = ?, completed_date = ? WHERE id = ?] *)
Definition update_status (status : Js.value) (completedDate : option Z) (o : Order.row)
    : Order.row :=
  {| Order.id := Order.id o; Order.name := Order.name o; Order.phone := Order.phone o;
     Order.address := Order.address o; Order.notes := Order.notes o;
     Order.status := status; Order.order_source := Order.order_source o;
     Order.order_date := Order.order_date o; Order.completed_date := completedDate |}.

(** [router.put('/:id/status')] *)
Definition put_order_status (id : Z) (status : Js.value)
    : env -> world -> Http.response * world :=
  try_catch
    (if negb (valid_status status)
     then mret (Http.json 400 (Http.Msg "Invalid status"))
     else
       order ← select (fun t => orders t !! id);
       match order with
       | None => mret (Http.json 404 (Http.Msg "Order not found"))
       | Some o =>
           e ← ask;
           let completedDate := next_completed_date e status o in
           on_pool (with_orders (alter (update_status status completedDate) id));;
           mret (Http.json 200 (Http.Msg "Order status updated"))
       end)
    (fun _ _ w => (Http.json 500 (Http.Text "Server error"), w)).

End OrderRoutes.

(** ** The report export: the orders query *)

Module ExportQuery.

(** [orderId] as a request carries it: absent, a JSON number (in the body
    of [POST /prepare-export]) or a string (always so in the query of
    [GET /export]), which is empty or the decimal text of an integer. *)
Inductive id_param :=
  | IdAbsent
  | IdNumber (n : Z)     (* 17, 0 *)
  | IdEmpty              (* '' *)
  | IdText (n : Z).      (* '17', '0' *)

(** The export filters of the request.  [status] is a string,
    [startDate] and [endDate] calendar days (sent as ['YYYY-MM-DD'], held
    here as a day number); each may be absent. *)
Record filters := {
  orderId : id_param;
  status : option string;
  startDate : option Z;
  endDate : option Z
}.

(** A datetime literal [`${day} hh:mm:ss`] and the instant (in seconds)
    it denotes. *)
Record datetime := { day : Z; hh : Z; mm : Z; ss : Z }.
Definition instant (d : datetime) : Z := day d * 86400 + hh d * 3600 + mm d * 60 + ss d.

(** One entry of [whereClauses], with its entry of [queryParams]. *)
Inductive clause :=
  | IdEq (param : Z)                  (* 'id = ?' *)
  | StatusEq (param : string)         (* 'status = ?' *)
  | OrderDateGe (param : datetime)    (* 'order_date >= ?' *)
  | OrderDateLe (param : datetime).   (* 'order_date <= ?' *)

Definition clause_sql (c : clause) : string :=
  match c with
  | IdEq _ => "id = ?"
  | StatusEq _ => "status = ?"
  | OrderDateGe _ => "order_date >= ?"
  | OrderDateLe _ => "order_date <= ?"
  end.

(** [if (orderId)]: a number is truthy unless it is zero, a string unless
    it is empty (['0'] is truthy). *)
Definition given_id (v : id_param) : bool :=
  match v with
  | IdNumber n => negb (n =? 0)
  | IdText _ => true
  | IdAbsent | IdEmpty => false
  end.

(** The integer the datastore compares [id] with, for a number and for
    the text of one. *)
Definition id_value (v : id_param) : Z :=
  match v with
  | IdNumber n | IdText n => n
  | IdAbsent | IdEmpty => 0
  end.

(** [if (s)] for a string field *)
Definition given_str (v : option string) : bool :=
  match v with
  | Some s => negb (String.eqb s "")
  | None => false
  end.

(** The [whereClauses]/[queryParams] pair the handler builds, in push
    order. *)
Definition whereClauses (f : filters) : list clause :=
  (if given_id (orderId f) then [IdEq (id_value (orderId f))] else [])
  ++ (if given_str (status f) && negb (String.eqb (default "" (status f)) "all")
      then [StatusEq (default "" (status f))] else [])
  ++ (match startDate f with
      | Some d => [OrderDateGe {| day := d; hh := 0; mm := 0; ss := 0 |}]
      | None => []
      end)
  ++ (match endDate f with
      | Some d => [OrderDateLe {| day := d; hh := 23; mm := 59; ss := 59 |}]
      | None => []
      end).

(** [whereClauses.join(' AND ')] *)
Fixpoint join_and (l : list clause) : string :=
  match l with
  | [] => ""
  | [c] => clause_sql c
  | c :: l' => String.append (clause_sql c) (String.append " AND " (join_and l'))
  end.

(** The statement text sent to the datastore. *)
Definition query_text (f : filters) : string :=
  String.append "SELECT * FROM orders"
    (String.append
       (match whereClauses f with
        | [] => ""
        | cs => String.append " WHERE " (join_and cs)
        end)
       " ORDER BY order_date DESC").

(** What the datastore does with one clause on one row. *)
Definition holds (c : clause) (o : Order.row) : bool :=
  match c with
  | IdEq k => Order.id o =? k
  | StatusEq s => Js.is_str (Order.status o) s
  | OrderDateGe d => instant d <=? Order.order_date o
  | OrderDateLe d => Order.order_date o <=? instant d
  end.

(** [WHERE c1 AND c2 AND ...] *)
Definition where_ (cs : list clause) (o : Order.row) : bool := forallb (fun c => holds c o) cs.

(** [a] may come before [b] in a newest-first listing. *)
Definition newer_or_same (a b : Order.row) : Prop := Order.order_date b <= Order.order_date a.

(** [ORDER BY order_date DESC], as an insertion sort. *)
Fixpoint insert_desc (o : Order.row) (l : list Order.row) : list Order.row :=
  match l with
  | [] => [o]
  | x :: l' =>
      if Order.order_date x <=? Order.order_date o
      then o :: x :: l'
      else x :: insert_desc o l'
  end.

Definition order_by_date_desc (l : list Order.row) : list Order.row :=
  fold_right insert_desc [] l.

(** The rows of [orders]. *)
Definition rows (t : Store.tables) : list Order.row :=
  (map_to_list (Store.orders t)).*2.

(** [db.query(query, queryParams)] for the query built from [f]. *)
Definition select_orders (f : filters) (t : Store.tables) : list Order.row :=
  order_by_date_desc (filter (fun o => where_ (whereClauses f) o = true) (rows t)).

End ExportQuery.

(** ** The report export: the three renderers of the synchronous route *)

Module JsObject.

(** The property names every object literal inherits from
    [Object.prototype]. *)
Definition prototype_keys : list string :=
  ["constructor"; "toString"; "toLocaleString"; "valueOf"; "hasOwnProperty";
   "isPrototypeOf"; "propertyIsEnumerable"; "__proto__"; "__defineGetter__";
   "__defineSetter__"; "__lookupGetter__"; "__lookupSetter__"].

(** What [obj[key]] finds on an object literal: an own property, an
    inherited one (a function, or the prototype itself), or nothing
    ([undefined]). *)
Inductive property (A : Type) :=
  | Own (a : A)
  | Inherited (key : string)
  | Absent.
Arguments Own {A} a.
Arguments Inherited {A} key.
Arguments Absent {A}.

Fixpoint own {A} (obj : list (string * A)) (key : string) : option A :=
  match obj with
  | [] => None
  | (k, a) :: obj' => if String.eqb k key then Some a else own obj' key
  end.

Definition get {A} (obj : list (string * A)) (key : string) : property A :=
  match own obj key with
  | Some a => Own a
  | None => if existsb (String.eqb key) prototype_keys then Inherited key else Absent
  end.

End JsObject.

Module Report.

(** A row of the items query, as the renderers read it. *)
Record item := { product_name : Js.value; quantity : Js.value; price : Js.value }.

(** An order row with its [items] property. *)
Record order := { row : Order.row; items : option (list item) }.

(** [order.items && order.items.length > 0] *)
Definition has_items (o : order) : option (list item) :=
  match items o with
  | Some (i :: l) => Some (i :: l)
  | _ => None
  end.

(** A render either completes or is cut short by an exception, which the
    renderer's [catch] turns into a 500 response. *)
Inductive rendering (A : Type) :=
  | Rendered (a : A)
  | Failed (error : string).
Arguments Rendered {A} a.
Arguments Failed {A} error.

(** [price] and [quantity] of the item loops of the PDF and Word
    renderers. *)
Definition price_of `{Js.Builtins} (i : item) : float :=
  Js.num_or_zero (Js.parseFloat (price i)).
Definition quantity_of `{Js.Builtins} (i : item) : float :=
  Js.num_or_zero (Js.parseInt (quantity i)).

(** The grand total in the words of the specification: the sum over the
    items of price multiplied by quantity. *)
Definition grand_total `{Js.Builtins} (l : list item) : float :=
  fold_left (fun sum i => PrimFloat.add sum (PrimFloat.mul (price_of i) (quantity_of i)))
            l 0%float.

End Report.

Module Excel.
Import Report.

(** The value of a cell: a string, a value of the order row, or (for the
    status column) a member of [Object.prototype]. *)
Inductive cell :=
  | Text (s : string)
  | Value (v : Js.value)
  | PrototypeMember (key : string).

Definition statusMap : list (string * string) :=
  [("pending", "En attente"); ("confirmed", "Confirmée");
   ("delivered", "Livrée"); ("cancelled", "Annulée")].

(** [statusMap[order.status] || 'En attente'] *)
Definition status_cell `{Js.Builtins} (status : Js.value) : cell :=
  match JsObject.get statusMap (Js.toString status) with
  | JsObject.Own label => if String.eqb label "" then Text "En attente" else Text label
  | JsObject.Inherited key => PrototypeMember key
  | JsObject.Absent => Text "En attente"
  end.

(** The [switch (order.status)] that colours the status cell. *)
Definition status_fill (status : Js.value) : option string :=
  if Js.is_str status "pending" then Some "FFF5D7"
  else if Js.is_str status "confirmed" then Some "D7E9FF"
  else if Js.is_str status "delivered" then Some "D7F9E9"
  else if Js.is_str status "cancelled" then Some "FFD7D7"
  else None.

(** [items.map(item => `${item.product_name} (x${item.quantity})`).join(', ')] *)
Fixpoint productNames `{Js.Builtins} (l : list item) : string :=
  match l with
  | [] => ""
  | i :: l' =>
      let one := String.append (Js.toString (product_name i))
                   (String.append " (x" (String.append (Js.toString (quantity i)) ")")) in
      match l' with
      | [] => one
      | _ => String.append one (String.append ", " (productNames l'))
      end
  end.

(** One data row: the seven keyed cells and the fill of the status cell. *)
Record data_row := {
  id : string;
  customer : Js.value;
  phone : Js.value;
  address : Js.value;
  date : string;
  status : cell;
  products : string;
  fill : option string
}.

Definition add_row `{Js.Builtins} (o : order) : data_row :=
  {| id := String.append "#" (pretty (Order.id (row o)));
     customer := Js.or_else (Order.name (row o)) (Js.Str "N/A");
     phone := Js.or_else (Order.phone (row o)) (Js.Str "N/A");
     address := Js.or_else (Order.address (row o)) (Js.Str "N/A");
     date := Js.formatDate (Order.order_date (row o)) "dd/MM/yyyy HH:mm";
     status := status_cell (Order.status (row o));
     products := match items o with Some l => productNames l | None => "" end;
     fill := status_fill (Order.status (row o)) |}.

(** The worksheet: the rows added before the data (each a list of cell
    texts), the column headers, the data rows, the footer. *)
Record worksheet := {
  preamble : list (list string);
  columns : list (string * string);
  data : list data_row;
  footer : string
}.

(** [createExcelExport(orders, res)]; [logo] tells whether the logo file
    exists, [now] is the clock. *)
Definition createExcelExport `{Js.Builtins} (logo : bool) (now : Z)
    (orders : list order) : worksheet :=
  {| preamble :=
       (if logo then [[]; []; []] else [])
       ++ [["Rapport de Commandes"];
           [String.append "Généré le: " (Js.formatDate now "dd/MM/yyyy HH:mm")];
           []];
     columns :=
       [("N° Commande", "id"); ("Client", "customer"); ("Téléphone", "phone");
        ("Adresse", "address"); ("Date", "date"); ("Statut", "status");
        ("Articles", "products")];
     data := map add_row orders;
     footer := "Beauty Shop - Tous droits réservés" |}.

End Excel.

Module Pdf.
Import Report.

(** [statusInfo]: label and badge colour per status. *)
Definition statusInfo : list (string * (string * string)) :=
  [("pending", ("En attente", "#d97706")); ("confirmed", ("Confirmée", "#1a56db"));
   ("delivered", ("Livrée", "#059669")); ("cancelled", ("Annulée", "#dc2626"))].

(** [const status = order.status || 'pending';
     const statusText = statusInfo[status].text;] with
    [statusInfo[status].color]: reading [.text] of [undefined] throws; a
    member of [Object.prototype] has no [.text]. *)
Definition status_badge `{Js.Builtins} (st : Js.value) : rendering (Js.value * Js.value) :=
  let status := Js.or_else st (Js.Str "pending") in
  match JsObject.get statusInfo (Js.toString status) with
  | JsObject.Own (text, color) => Rendered (Js.Str text, Js.Str color)
  | JsObject.Inherited _ => Rendered (Js.Undefined, Js.Undefined)
  | JsObject.Absent => Failed "TypeError: Cannot read properties of undefined (reading 'text')"
  end.

(** One line of the items table. *)
Record line := {
  no : string;
  article : Js.value;
  quantite : string;
  prix : string;
  sous_total : string
}.

(** The state of the items loop: the index, the lines drawn so far, and
    [total]. *)
Definition draw_item `{Js.Builtins} (acc : nat * list line * float) (item : item)
    : nat * list line * float :=
  let '(i, drawn, total) := acc in
  let price := Js.num_or_zero (Js.parseFloat (price item)) in
  let quantity := Js.num_or_zero (Js.parseInt (quantity item)) in
  let subtotal := PrimFloat.mul price quantity in
  (S i,
   (drawn ++ [{| no := pretty (Z.of_nat i + 1);
                article := Js.or_else (product_name item) (Js.Str "Article inconnu");
                quantite := Js.numberToString quantity;
                prix := String.append (Js.toFixed2 price) " MAD";
                sous_total := String.append (Js.toFixed2 subtotal) " MAD" |}])%list,
   PrimFloat.add total subtotal).

(** The items table: its lines, [total], and the text of the total row. *)
Record table := { lines : list line; total : float; total_text : string }.

Definition items_table `{Js.Builtins} (l : list item) : table :=
  let '(_, drawn, total) := fold_left draw_item l (O, [], 0%float) in
  {| lines := drawn; total := total;
     total_text := String.append (Js.toFixed2 total) " MAD" |}.

(** One page; [articles = None] stands for the line
    'Aucun article trouvé pour cette commande'. *)
Record page := {
  heading : string;
  statusText : Js.value;
  statusColor : Js.value;
  client : Js.value;
  telephone : Js.value;
  adresse : Js.value;
  date : string;
  articles : option table;
  page_number : string
}.

Definition order_page `{Js.Builtins} (n index : nat) (o : order) : rendering page :=
  match status_badge (Order.status (row o)) with
  | Failed e => Failed e
  | Rendered (text, color) =>
      Rendered
        {| heading := String.append "Commande #" (pretty (Order.id (row o)));
           statusText := text;
           statusColor := color;
           client := Js.or_else (Order.name (row o)) (Js.Str "N/A");
           telephone := Js.or_else (Order.phone (row o)) (Js.Str "N/A");
           adresse := Js.or_else (Order.address (row o)) (Js.Str "N/A");
           date := Js.formatDate (Order.order_date (row o)) "dd/MM/yyyy HH:mm";
           articles := option_map items_table (has_items o);
           page_number :=
             String.append "Page "
               (String.append (pretty (Z.of_nat index + 1))
                  (String.append " sur " (pretty (Z.of_nat n)))) |}
  end.

(** [orders.forEach((order, index) => ...)]: an exception in one page
    ends the whole loop. *)
Fixpoint pages `{Js.Builtins} (n index : nat) (orders : list order)
    : rendering (list page) :=
  match orders with
  | [] => Rendered []
  | o :: rest =>
      match order_page n index o with
      | Failed e => Failed e
      | Rendered p =>
          match pages n (S index) rest with
          | Failed e => Failed e
          | Rendered ps => Rendered (p :: ps)
          end
      end
  end.

(** [createPdfExport(orders, res)] *)
Definition createPdfExport `{Js.Builtins} (orders : list order) : rendering (list page) :=
  match pages (length orders) O orders with
  | Rendered ps => Rendered ps
  | Failed _ => Failed "Échec de la génération du fichier PDF"
  end.

End Pdf.

Module Word.
Import Report.

(** The [switch(order.status)] over the initial
    ['En attente'] / ['status-pending']. *)
Definition status_span (status : Js.value) : string * string :=
  if Js.is_str status "confirmed" then ("Confirmée", "status-confirmed")
  else if Js.is_str status "delivered" then ("Livrée", "status-delivered")
  else if Js.is_str status "cancelled" then ("Annulée", "status-cancelled")
  else ("En attente", "status-pending").

(** One [<tr>] of the items table. *)
Record tr := {
  rowStyle : string;
  idx : string;
  article : Js.value;
  quantite : string;
  prix : string;
  sous_total : string
}.

(** The state of the items loop: the index, the markup so far, [total]. *)
Definition add_item `{Js.Builtins} (acc : nat * list tr * float) (item : item)
    : nat * list tr * float :=
  let '(idx, html, total) := acc in
  let price := Js.num_or_zero (Js.parseFloat (price item)) in
  let quantity := Js.num_or_zero (Js.parseInt (quantity item)) in
  let subtotal := PrimFloat.mul price quantity in
  let total := PrimFloat.add total subtotal in
  (S idx,
   (html ++ [{| rowStyle := if Nat.even idx then "" else "background-color: #f3f4f6;";
               idx := pretty (Z.of_nat idx + 1);
               article := Js.or_else (product_name item) (Js.Str "Article inconnu");
               quantite := Js.numberToString quantity;
               prix := String.append (Js.toFixed2 price) " MAD";
               sous_total := String.append (Js.toFixed2 subtotal) " MAD" |}])%list,
   total).

(** The [<table>]: its rows, [total], and the text of the total row. *)
Record table := { trs : list tr; total : float; total_text : string }.

Definition items_table `{Js.Builtins} (l : list item) : table :=
  let '(_, html, total) := fold_left add_item l (O, [], 0%float) in
  {| trs := html; total := total;
     total_text := String.append (Js.toFixed2 total) " MAD" |}.

(** One [<div class="order-container">]; [articles = None] stands for
    'Aucun article trouvé pour cette commande'. *)
Record section := {
  page_break : bool;
  heading : string;
  statusClass : string;
  statusText : string;
  client : Js.value;
  telephone : Js.value;
  adresse : Js.value;
  date : string;
  articles : option table;
  page_number : string
}.

Definition order_section `{Js.Builtins} (n index : nat) (o : order) : section :=
  {| page_break := negb (Nat.eqb index 0);
     heading := String.append "Commande #" (pretty (Order.id (row o)));
     statusClass := snd (status_span (Order.status (row o)));
     statusText := fst (status_span (Order.status (row o)));
     client := Js.or_else (Order.name (row o)) (Js.Str "N/A");
     telephone := Js.or_else (Order.phone (row o)) (Js.Str "N/A");
     adresse := Js.or_else (Order.address (row o)) (Js.Str "N/A");
     date := Js.formatDate (Order.order_date (row o)) "dd/MM/yyyy HH:mm";
     articles := option_map items_table (has_items o);
     page_number :=
       String.append "Page "
         (String.append (pretty (Z.of_nat index + 1))
            (String.append " sur " (pretty (Z.of_nat n)))) |}.

Fixpoint sections `{Js.Builtins} (n index : nat) (orders : list order) : list section :=
  match orders with
  | [] => []
  | o :: rest => order_section n index o :: sections n (S index) rest
  end.

(** [createWordExport(orders, res)] *)
Definition createWordExport `{Js.Builtins} (orders : list order) : list section :=
  sections (length orders) O orders.

End Word.

(** ** What the PDF and the Word document report as totals *)

Module ReportTotals.

(** The totals printed, per order; [None] where the order has no items
    and no total is printed. *)
Definition pdf_totals (ps : list Pdf.page) : list (option float) :=
  map (fun p => option_map Pdf.total (Pdf.articles p)) ps.
Definition word_totals (ss : list Word.section) : list (option float) :=
  map (fun s => option_map Word.total (Word.articles s)) ss.

End ReportTotals.

(** ** The creation routes, taken apart

    The pieces the statements about the two creation routes are phrased
    with: the effect of one item, the shared transaction, the shape of the
    handlers, and the tables a committed creation leaves. *)

Module OrderModel.
Import Store OrderRoutes.

(** What one item does to the connection's view. *)
Definition item_effect `{Js.Builtins} (isWhatsAppOrder : bool) (orderId : Z)
    (item : Req.item) (t : tables) : tables :=
  let t1 := with_order_items (fun rows => (rows ++ [item_row orderId item])%list) t in
  if negb isWhatsAppOrder then stock_update item t1 else t1.

(** The datastore calls the items loop makes. *)
Definition loop_calls (isWhatsAppOrder : bool) (items : list Req.item) : nat :=
  (length items * (if isWhatsAppOrder then 1 else 2))%nat.

(** The part both creation routes share once the body is validated:
    insert the order, run the items loop, commit, notify, answer 201. *)
Definition transaction `{Js.Builtins} (mkrow : Z -> Order.row) (isWA : bool)
    (notice : Order.row -> string * string) (msg : string) (items : list Req.item)
    : M Http.response :=
  orderId ← insert_order mkrow;
  for_each (item_step isWA orderId) items;;
  commit;;
  notify_new_order orderId notice;;
  mret (Http.json 201 (Http.OrderCreated msg orderId)).

(** The tables a committed creation leaves: the order row under the next
    key, then the effect of each item in turn. *)
Definition created `{Js.Builtins} (mkrow : Z -> Order.row) (isWA : bool)
    (items : list Req.item) (k : Z) (t : tables) : tables :=
  fold_left (fun t i => item_effect isWA k i t) items
            (with_orders (insert k (mkrow k)) t).

(** The shape both creation routes have: begin, answer [refusal] when the
    validation produced one, run the transaction otherwise; any exception
    is answered 500 after a rollback. *)
Definition guarded (refusal : option Http.response) (t : M Http.response)
    : env -> world -> Http.response * world :=
  try_catch
    (beginTransaction;;
     match refusal with
     | Some r => mret r
     | None => t
     end)
    (fun msg _ w => (Http.json 500 (Http.Error "Server error" msg), rollback w)).

(** The 400 answer of [POST /], if any. *)
Definition refusal (b : Req.body) : option Http.response :=
  if no_items (Req.items b)
  then Some (Http.json 400 (Http.Msg "Missing required items"))
  else if negb (Js.is_str (Req.order_source b) "whatsapp") && missing_customer b
  then Some (Http.json 400 (Http.Msg "Missing required customer information"))
  else None.

(** The 400 answer of [POST /whatsapp], if any. *)
Definition refusal_whatsapp (b : Req.body) : option Http.response :=
  if no_items (Req.items b)
  then Some (Http.json 400 (Http.Msg "Missing required items"))
  else None.

(** A run of status updates, each on its own order id, with its own
    status and environment. *)
Fixpoint updates (l : list (Z * Js.value * env)) (w : world) : world :=
  match l with
  | [] => w
  | (id, status, e) :: l' => updates l' (put_order_status id status e w).2
  end.

End OrderModel.

(** ** Sample data *)

Module Samples.
Import Store.

Definition empty_server : DownloadTokens.server :=
  {| DownloadTokens.tokens := ∅; DownloadTokens.temp := ∅ |}.

Definition lost_file_server : DownloadTokens.server :=
  {| DownloadTokens.tokens :=
       {[ "k3x9" := {| DownloadTokens.filename := "orders_1.pdf";
                       DownloadTokens.expiresAt := 301000 |} ]};
     DownloadTokens.temp := ∅ |}.

(** A shop with a product in stock, a product sold by colour, and one
    colour of it. *)
Definition shop : tables :=
  {| orders := ∅;
     order_items := [];
     products :=
       {[ 1 := {| Product.name_fr := "Rouge"; Product.stock := Some 5 |};
          2 := {| Product.name_fr := "Vernis"; Product.stock := None |} ]};
     product_colors := {[ 7 := {| Color.product_id := 2; Color.stock := Some 1 |} ]} |}.

Definition start : world :=
  {| committed := shop; auto_increment := 1; tx := shop;
     calls := 0; emits := 0; outbox := [] |}.

Definition cart : list Req.item :=
  [ {| Req.productId := 1; Req.colorId := None; Req.quantity := 3;
       Req.price := Js.Num 10 |};
    {| Req.productId := 2; Req.colorId := Some 7; Req.quantity := 1;
       Req.price := Js.Num 25.5 |} ].

Definition web_order : Req.body :=
  {| Req.name := Js.Str "Amina"; Req.phone := Js.Str "0600000000";
     Req.address := Js.Str "Rabat"; Req.notes := Js.Undefined;
     Req.items := Some cart; Req.order_source := Js.Undefined |}.

(** A WhatsApp cart sent with the customer's name. *)
Definition named_whatsapp_order : Req.body :=
  {| Req.name := Js.Str "Amina"; Req.phone := Js.Undefined;
     Req.address := Js.Undefined; Req.notes := Js.Undefined;
     Req.items := Some cart; Req.order_source := Js.Undefined |}.

(** Nothing fails; one admin is connected. *)
Definition calm : env :=
  {| faulty := fun _ => false; emit_throws := fun _ => false;
     now := 1700000000; default_status := Js.Str "pending";
     channel := Some ["admin-1"] |}.


(** The emission to the admin socket throws. *)
Definition emit_fails : env :=
  {| faulty := fun _ => false; emit_throws := fun _ => true;
     now := 1700000000; default_status := Js.Str "pending";
     channel := Some ["admin-1"] |}.

(** An order that was never delivered. *)
Definition open_order : Order.row :=
  {| Order.id := 4; Order.name := Js.Str "Amina"; Order.phone := Js.Str "0600000000";
     Order.address := Js.Str "Rabat"; Order.notes := Js.Null;
     Order.status := Js.Str "confirmed"; Order.order_source := Js.Str "website";
     Order.order_date := 1699990000; Order.completed_date := None |}.

Definition shop_with_order : world :=
  {| committed := with_orders (insert 4 open_order) shop; auto_increment := 5;
     tx := shop; calls := 0; emits := 0; outbox := [] |}.

(** Two reports of one order with one item, alike but for the price. *)
Definition report_at (p : float) : list Report.order :=
  [ {| Report.row := open_order;
       Report.items :=
         Some [ {| Report.product_name := Js.Str "Rouge";
                   Report.quantity := Js.Num 1;
                   Report.price := Js.Num p |} ] |} ].

(** An order whose stored status is none of the four. *)
Definition shipped_order : Report.order :=
  {| Report.row :=
       {| Order.id := 9; Order.name := Js.Str "Amina"; Order.phone := Js.Str "0600000000";
          Order.address := Js.Str "Rabat"; Order.notes := Js.Null;
          Order.status := Js.Str "shipped"; Order.order_source := Js.Str "website";
          Order.order_date := 1699990000; Order.completed_date := None |};
     Report.items := Some [] |}.

End Samples.

(** ** The deferred export: naming the file and handing out its token *)

Module PrepareExport.
Import DownloadTokens.

(** [`orders_${timestamp}_${randomId}${ext}`] *)
Definition export_name (timestamp randomId ext : string) : string :=
  String.append "orders_"
    (String.append timestamp (String.append "_" (String.append randomId ext))).

(** The format check and the [switch (exportFormat)] of
    [POST /prepare-export]: the file name and the MIME type of each of the
    three formats, nothing for any other value. *)
Definition export_file (exportFormat : Js.value) (timestamp randomId : string)
    : option (string * string) :=
  if Js.is_str exportFormat "excel"
  then Some (export_name timestamp randomId ".xlsx",
             "application/vnd.openxmlformats-officedocument.spreadsheetml.sheet")
  else if Js.is_str exportFormat "pdf"
  then Some (export_name timestamp randomId ".pdf", "application/pdf")
  else if Js.is_str exportFormat "word"
  then Some (export_name timestamp randomId ".doc", "application/msword")
  else None.

(** How the part between the format check and the token ends: the two
    queries and the writing of the file complete, or one of them throws,
    the file being on disk by then or not. *)
Inductive pipeline :=
  | Completes
  | Throws (message : string) (file_left : bool).

(** What the request does not control: the clock, the formatted
    timestamp, the two random strings, the fate of the pipeline. *)
Record env := {
  now : Z;
  timestamp : string;
  randomId : string;
  token : string;
  run : pipeline
}.

Inductive response :=
  | InvalidFormat                                   (* 400 { msg: 'Invalid export format' } *)
  | Prepared (downloadUrl fname mimeType : string)  (* { success: true, ... } *)
  | PreparationFailed (details : string).           (* 500 { error, details } *)

(** [router.post('/prepare-export')], for an authenticated admin. *)
Definition prepare_export (exportFormat : Js.value) (e : env) (s : server)
    : response * server :=
  match export_file exportFormat (timestamp e) (randomId e) with
  | None => (InvalidFormat, s)
  | Some (fname, mimeType) =>
      match run e with
      | Throws message file_left =>
          (PreparationFailed message,
           {| tokens := tokens s;
              temp := if file_left then temp s ∪ {[fname]} else temp s |})
      | Completes =>
          let '(downloadToken, s') := register_export (now e) (token e) fname s in
          (Prepared (String.append "/api/orders/download/" downloadToken) fname mimeType, s')
      end
  end.

End PrepareExport.

(** ** Suffixes of file names *)

Module Suffix.

(** The last character of a string. *)
Fixpoint last_char (s : string) : option Ascii.ascii :=
  match s with
  | EmptyString => None
  | String c EmptyString => Some c
  | String _ s' => last_char s'
  end.

End Suffix.

(** ** Stock levels *)

Module Stock.
Import Store.

(** No stored stock count, of a product or of a colour, is negative. *)
Definition nonneg (t : tables) : Prop :=
  (forall k p s, products t !! k = Some p -> Product.stock p = Some s -> 0 <= s)
  /\ (forall k c s, product_colors t !! k = Some c -> Color.stock c = Some s -> 0 <= s).

End Stock.

(** ** The admin sockets of [server.js] *)

Module AdminSockets.

(** [const adminSockets = new Set()], in insertion order. *)
Definition add (id : string) (sockets : list string) : list string :=
  if decide (id ∈ sockets) then sockets else sockets ++ [id].

Definition delete (id : string) (sockets : list string) : list string :=
  filter (fun s => s <> id) sockets.

(** What a client socket can do. *)
Inductive event :=
  | Connection (id : string)
  | Authenticate (id : string) (token : Js.value)   (* 'admin:authenticate' *)
  | Disconnect (id : string).

(** The handlers of [io.on('connection', ...)]: the token of
    ['admin:authenticate'] is not looked at. *)
Definition handle (sockets : list string) (ev : event) : list string :=
  match ev with
  | Connection _ => sockets
  | Authenticate id _ => add id sockets
  | Disconnect id => delete id sockets
  end.

Definition after (events : list event) (sockets : list string) : list string :=
  fold_left handle events sockets.

(** The last thing socket [id] did in [events] was to authenticate. *)
Fixpoint listening (id : string) (events : list event) (before : bool) : bool :=
  match events with
  | [] => before
  | Authenticate id' _ :: rest => listening id rest (if decide (id' = id) then true else before)
  | Disconnect id' :: rest => listening id rest (if decide (id' = id) then false else before)
  | Connection _ :: rest => listening id rest before
  end.

End AdminSockets.

(** ** The read routes of the order module *)

Module OrderReads.
Import Store.

(** [router.get('/:id')], for an authenticated admin: the order, or 404. *)
Inductive order_answer :=
  | Found (o : Order.row)
  | OrderNotFound                 (* 404 { msg: 'Order not found' } *)
  | ReadFailed.                   (* 500 'Server error' *)

Definition get_order (id : Z) : env -> world -> order_answer * world :=
  try_catch
    (rows ← select (fun t => orders t !! id);
     match rows with
     | None => mret OrderNotFound
     | Some o => mret (Found o)
     end)
    (fun _ _ w => (ReadFailed, w)).

(** [status != 'delivered' AND status != 'cancelled']: a null status
    satisfies neither comparison; strings are compared as they are
    stored, the statuses the routes write being lower-case. *)
Definition active (o : Order.row) : bool :=
  match Order.status o with
  | Js.Str s => negb (String.eqb s "delivered") && negb (String.eqb s "cancelled")
  | _ => false
  end.

(** [SELECT COUNT( * ) as count FROM orders WHERE ...] *)
Definition count_active (t : tables) : nat :=
  length (filter (fun o => active o = true) (map_to_list (orders t)).*2).

(** [router.get('/active/count')]: the count, or nothing on a failure
    (500). *)
Definition get_active_count : env -> world -> option nat * world :=
  try_catch
    (n ← select count_active; mret (Some n))
    (fun _ _ w => (None, w)).

End OrderReads.

(** ** What the three documents show, side by side *)

Module Shown.

(** A stored status the renderers have a label for: missing, or one of
    the four. *)
Definition known_status (st : Js.value) : Prop :=
  Js.truthy st = false
  \/ exists s, st = Js.Str s /\ In s ["pending"; "confirmed"; "delivered"; "cancelled"].

(** The five texts of a line of the items table, in the PDF and in the
    Word document. *)
Definition pdf_line (l : Pdf.line) : string * Js.value * string * string * string :=
  (Pdf.no l, Pdf.article l, Pdf.quantite l, Pdf.prix l, Pdf.sous_total l).
Definition word_line (r : Word.tr) : string * Js.value * string * string * string :=
  (Word.idx r, Word.article r, Word.quantite r, Word.prix r, Word.sous_total r).

(** Heading, status label and page number of a page and of a section. *)
Definition pdf_frame (p : Pdf.page) : string * Js.value * string :=
  (Pdf.heading p, Pdf.statusText p, Pdf.page_number p).
Definition word_frame (s : Word.section) : string * Js.value * string :=
  (Word.heading s, Js.Str (Word.statusText s), Word.page_number s).

End Shown.

(** ** Admin login *)

Module Auth.

(** A row of [admins]. *)
Record admin := { id : Z; username : string; password_hash : string }.

(** [bcrypt.compare] and [jwt.sign], uninterpreted; either may fail
    ([None]). *)
Class Crypto := {
  compare : Js.value -> string -> option bool;
  sign : Z -> string -> option string
}.

Inductive response :=
  | Token (token : string)     (* { token } *)
  | InvalidCredentials         (* 400 { msg: 'Invalid Credentials' } *)
  | ServerError                (* 500 'Server error' *)
  | Unanswered.                (* the callback of [jwt.sign] threw *)

(** [SELECT * FROM admins WHERE username = ?] *)
Definition by_username (name : string) (admins : list admin) : list admin :=
  filter (fun a => username a = name) admins.

(** [router.post('/login')]; [db_fails] tells whether the query throws. *)
Definition login `{Crypto} (admins : list admin) (db_fails : bool)
    (name : string) (password : Js.value) : response :=
  if db_fails then ServerError
  else
    match by_username name admins with
    | [] => InvalidCredentials
    | admin :: _ =>
        match compare password (password_hash admin) with
        | None => ServerError
        | Some false => InvalidCredentials
        | Some true =>
            match sign (id admin) (username admin) with
            | Some token => Token token
            | None => Unanswered
            end
        end
    end.

(** A stand-in for running the model: the "hash" of a password is the
    password, the token names the admin. *)
Definition plain_crypto : Crypto := {|
  compare p h := Some (Js.is_str p h);
  sign i name := Some (String.append "token-for-" name)
|}.

End Auth.

(** ** More sample data *)

Module MoreSamples.

(** A deferred PDF export that completes. *)
Definition pdf_export : PrepareExport.env :=
  {| PrepareExport.now := 1000; PrepareExport.timestamp := "20240101_120000";
     PrepareExport.randomId := "abcd1234"; PrepareExport.token := "k3x9";
     PrepareExport.run := PrepareExport.Completes |}.

(** Two sockets authenticate; the second one leaves. *)
Definition evening : list AdminSockets.event :=
  [ AdminSockets.Connection "a"; AdminSockets.Authenticate "a" Js.Undefined;
    AdminSockets.Connection "b"; AdminSockets.Authenticate "b" (Js.Str "x");
    AdminSockets.Disconnect "b" ].

(** A notification sent without title and timestamp. *)
Definition stock_alert : Notification.t :=
  {| Notification.type := "stock"; Notification.title := "";
     Notification.message := "Rouge is out of stock";
     Notification.data := Samples.open_order; Notification.timestamp := "" |}.

(** Two admins are connected; the emission to the second one throws. *)
Definition second_emit_fails : Store.env :=
  {| Store.faulty := fun _ => false; Store.emit_throws := fun n => Nat.eqb n 1;
     Store.now := 1700000000; Store.default_status := Js.Str "pending";
     Store.channel := Some ["admin-1"; "admin-2"] |}.

(** A regular order for the first product in a colour of the second. *)
Definition stray_order : Req.body :=
  {| Req.name := Js.Str "Amina"; Req.phone := Js.Str "0600000000";
     Req.address := Js.Str "Rabat"; Req.notes := Js.Undefined;
     Req.items := Some [ {| Req.productId := 1; Req.colorId := Some 7;
                            Req.quantity := 1; Req.price := Js.Num 10 |} ];
     Req.order_source := Js.Undefined |}.

(** A second order, delivered a day after [Samples.open_order] was
    placed. *)
Definition late_order : Order.row :=
  {| Order.id := 5; Order.name := Js.Str "Salma"; Order.phone := Js.Str "0611111111";
     Order.address := Js.Str "Fes"; Order.notes := Js.Null;
     Order.status := Js.Str "delivered"; Order.order_source := Js.Str "website";
     Order.order_date := 1700080000; Order.completed_date := Some 1700090000 |}.

Definition two_orders : Store.tables :=
  Store.with_orders (insert 5 late_order)
    (Store.committed Samples.shop_with_order).

End MoreSamples.

(** ** The product save of the catalogue routes *)

Module CatalogProduct.
(** [products], all the columns the save writes. *)
Record row := {
  name_fr : Js.value;
  name_ar : Js.value;
  desc_fr : Js.value;
  desc_ar : Js.value;
  price : float;
  discount : float;
  category : Js.value;
  image : Js.value;
  stock : float
}.
End CatalogProduct.

Module CatalogColor.
(** [product_colors], all its columns but the key. *)
Record row := {
  product_id : Z;
  name_fr : Js.value;
  name_ar : Js.value;
  hex_code : Js.value;
  stock : Js.value;
  image : Js.value
}.
End CatalogColor.

Module ProductSave.
Import Store.

(** The [id] of an element of [colors]: absent, a number, or a client-side
    string that starts with ['temp-']. *)
Inductive color_id :=
  | NoId
  | NumId (n : Z)
  | TempId (s : string).

(** [if (c.id)] *)
Definition truthy_color_id (i : color_id) : bool :=
  match i with
  | NoId => false
  | NumId n => negb (n =? 0)
  | TempId _ => true
  end.

(** [c.id.toString().startsWith('temp-')] *)
Definition is_temp (i : color_id) : bool :=
  match i with
  | TempId _ => true
  | _ => false
  end.

(** An element of the parsed [colors] array. *)
Record color_input := {
  id : color_id;
  isNew : bool;
  name_fr : Js.value;
  name_ar : Js.value;
  hex_code : Js.value;
  stock : Js.value;
  image : Js.value
}.

(** [req.body.colors]: falsy, a string [JSON.parse] rejects, or an
    array. *)
Inductive colors_field :=
  | NoColors
  | BadJson
  | Colors (l : list color_input).

(** The multipart request: the text fields, the path of the uploaded
    [image] if any, the paths of the uploaded [colorImage_i], and
    [req.params.id]. *)
Record request := {
  r_name_fr : Js.value;
  r_name_ar : Js.value;
  r_desc_fr : Js.value;
  r_desc_ar : Js.value;
  r_price : Js.value;
  r_discount : Js.value;
  r_category : Js.value;
  r_stock : Js.value;
  colors : colors_field;
  image_file : option string;
  color_files : gmap nat string;
  params_id : Z
}.

(** Every temporary file of the request. *)
Definition files (req : request) : gset string :=
  (match image_file req with Some p => {[p]} | None => ∅ end)
  ∪ list_to_set (map_to_list (color_files req)).*2.

Record tables := {
  products : gmap Z CatalogProduct.row;
  product_colors : gmap Z CatalogColor.row
}.

(** What a save runs against: the committed tables and the view of the
    leased connection, the two auto-increment counters, the count of
    datastore calls, the temporary directory, and the paths sent to the
    image host so far. *)
Record world := {
  committed : tables;
  tx : tables;
  next_product : Z;
  next_color : Z;
  calls : nat;
  disk : gset string;
  sent : list string
}.

(** Which datastore call throws, and what the image host answers for a
    path: a URL, or a failure. *)
Record env := {
  faulty : nat -> bool;
  hosted : string -> option string
}.

Definition M (A : Type) : Type := env -> world -> outcome A * world.

#[global] Instance M_ret : MRet M := fun A a _ w => (Ok a, w).
#[global] Instance M_bind : MBind M := fun A B k m e w =>
  match m e w with
  | (Ok a, w') => k a e w'
  | (Throw msg, w') => (Throw msg, w')
  end.

Definition throw {A} (msg : string) : M A := fun _ w => (Throw msg, w).

Definition with_tx (t : tables) (w : world) : world :=
  {| committed := committed w; tx := t; next_product := next_product w;
     next_color := next_color w; calls := calls w; disk := disk w; sent := sent w |}.

Definition tick (w : world) : world :=
  {| committed := committed w; tx := tx w; next_product := next_product w;
     next_color := next_color w; calls := S (calls w); disk := disk w; sent := sent w |}.

(** One awaited datastore call. *)
Definition datastore {A} (m : M A) : M A := fun e w =>
  if faulty e (calls w) then (Throw "datastore error", tick w) else m e (tick w).

Definition beginTransaction : M unit :=
  datastore (fun _ w => (Ok tt, with_tx (committed w) w)).

Definition commit : M unit :=
  datastore (fun _ w =>
    (Ok tt, {| committed := tx w; tx := tx w; next_product := next_product w;
               next_color := next_color w; calls := calls w; disk := disk w;
               sent := sent w |})).

Definition rollback (w : world) : world := with_tx (committed w) w.

(** A statement, and a [SELECT], on the leased connection. *)
Definition exec (f : tables -> tables) : M unit :=
  datastore (fun _ w => (Ok tt, with_tx (f (tx w)) w)).
Definition query {A} (f : tables -> A) : M A :=
  datastore (fun _ w => (Ok (f (tx w)), w)).

(** [imgbbService.uploadImage(path)] *)
Definition uploadImage (path : string) : M string := fun e w =>
  let w' := {| committed := committed w; tx := tx w; next_product := next_product w;
               next_color := next_color w; calls := calls w; disk := disk w;
               sent := sent w ++ [path] |} in
  match hosted e path with
  | Some url => (Ok url, w')
  | None => (Throw "Failed to upload image to ImgBB", w')
  end.

(** [if (fs.existsSync(path)) fs.unlinkSync(path)] *)
Definition unlink (path : string) : M unit := fun _ w =>
  (Ok tt, {| committed := committed w; tx := tx w; next_product := next_product w;
             next_color := next_color w; calls := calls w; disk := disk w ∖ {[path]};
             sent := sent w |}).

(** The clean-up of the [finally] block. *)
Definition cleanup (req : request) (w : world) : world :=
  {| committed := committed w; tx := tx w; next_product := next_product w;
     next_color := next_color w; calls := calls w; disk := disk w ∖ files req;
     sent := sent w |}.

Definition with_products (f : gmap Z CatalogProduct.row -> gmap Z CatalogProduct.row)
    (t : tables) : tables :=
  {| products := f (products t); product_colors := product_colors t |}.
Definition with_colors (f : gmap Z CatalogColor.row -> gmap Z CatalogColor.row)
    (t : tables) : tables :=
  {| products := products t; product_colors := f (product_colors t) |}.

(** [INSERT INTO products (...)]: the next key, a duplicate-entry error
    if it is taken; returns [insertId]. *)
Definition insert_product (p : CatalogProduct.row) : M Z :=
  datastore (fun _ w =>
    let k := next_product w in
    let w' := {| committed := committed w; tx := tx w; next_product := k + 1;
                 next_color := next_color w; calls := calls w; disk := disk w;
                 sent := sent w |} in
    match products (tx w) !! k with
    | Some _ => (Throw "Duplicate entry", w')
    | None => (Ok k, with_tx (with_products (insert k p) (tx w)) w')
    end).

(** [INSERT INTO product_colors (...)] *)
Definition insert_color (c : CatalogColor.row) : M unit :=
  datastore (fun _ w =>
    let k := next_color w in
    let w' := {| committed := committed w; tx := tx w; next_product := next_product w;
                 next_color := k + 1; calls := calls w; disk := disk w;
                 sent := sent w |} in
    match product_colors (tx w) !! k with
    | Some _ => (Throw "Duplicate entry", w')
    | None => (Ok tt, with_tx (with_colors (insert k c) (tx w)) w')
    end).

(** [colors.filter(c => !c.isNew && c.id).map(c => c.id)] *)
Definition existingColorIds (l : list color_input) : list color_id :=
  map id (List.filter (fun c => negb (isNew c) && truthy_color_id (id c)) l).

(** The numbers among the ids. *)
Definition numbers (ids : list color_id) : list Z :=
  omap (fun i => match i with NumId n => Some n | _ => None end) ids.

(** [DELETE FROM product_colors WHERE product_id = ? AND id NOT IN (...)],
    the ids joined into the statement text: a ['temp-...'] id there reads
    as a column name and the statement is rejected. *)
Definition delete_not_in (productId : Z) (ids : list color_id) : M unit :=
  if existsb is_temp ids
  then datastore (throw "Unknown column 'temp' in 'where clause'")
  else exec (with_colors
               (filter (fun kc => ~ (CatalogColor.product_id kc.2 = productId
                                      /\ kc.1 ∉ numbers ids)))).

(** [DELETE FROM product_colors WHERE product_id = ?] *)
Definition delete_all (productId : Z) : M unit :=
  exec (with_colors (filter (fun kc => CatalogColor.product_id kc.2 <> productId))).

(** [UPDATE product_colors SET ... WHERE id = ? AND product_id = ?] *)
Definition update_color (k productId : Z) (c : CatalogColor.row)
    (m : gmap Z CatalogColor.row) : gmap Z CatalogColor.row :=
  match m !! k with
  | Some old => if CatalogColor.product_id old =? productId then <[k := c]> m else m
  | None => m
  end.

(** The row a colour is written as. *)
Definition color_row (productId : Z) (color : color_input) (colorImage : Js.value)
    : CatalogColor.row :=
  {| CatalogColor.product_id := productId;
     CatalogColor.name_fr := name_fr color;
     CatalogColor.name_ar := name_ar color;
     CatalogColor.hex_code := hex_code color;
     CatalogColor.stock := Js.or_else (stock color) (Js.Num 0);
     CatalogColor.image := colorImage |}.

(** [color.isNew || !color.id || color.id.toString().startsWith('temp-')] *)
Definition is_insert (color : color_input) : bool :=
  isNew color || negb (truthy_color_id (id color)) || is_temp (id color).

(** The body of the [for (let i = 0; ...)] loop over the colours. *)
Definition save_color (req : request) (productId : Z) (i : nat) (color : color_input)
    : M unit :=
  colorImage ←
    match color_files req !! i with
    | Some path => url ← uploadImage path; unlink path;; mret (Js.Str url)
    | None => mret (image color)
    end;
  if is_insert color
  then insert_color (color_row productId color colorImage)
  else exec (with_colors
               (update_color (match id color with NumId n => n | _ => 0 end) productId
                             (color_row productId color colorImage))).

Fixpoint save_colors (req : request) (productId : Z) (i : nat) (l : list color_input)
    : M unit :=
  match l with
  | [] => mret tt
  | color :: rest => save_color req productId i color;; save_colors req productId (S i) rest
  end.

(** [if (req.body.colors) { ... }] *)
Definition handle_colors (req : request) (isUpdate : bool) (productId : Z) : M unit :=
  match colors req with
  | NoColors => mret tt
  | BadJson => throw "Unexpected token in JSON"
  | Colors l =>
      (if isUpdate
       then match existingColorIds l with
            | [] => delete_all productId
            | ids => delete_not_in productId ids
            end
       else mret tt);;
      save_colors req productId O l
  end.

Inductive response :=
  | Saved (product : option CatalogProduct.row) (colors : list (Z * CatalogColor.row))
  | ImageRequired          (* 400 { msg: 'Please upload an image' } *)
  | ProductNotFound        (* 404 { msg: 'Product not found' } *)
  | SaveFailed (details : string).   (* 500 { error: 'Server error', details } *)

(** The row written to [products]. *)
Definition product_row `{Js.Builtins} (req : request) (image : Js.value)
    : CatalogProduct.row :=
  {| CatalogProduct.name_fr := r_name_fr req;
     CatalogProduct.name_ar := r_name_ar req;
     CatalogProduct.desc_fr := Js.or_else (r_desc_fr req) (Js.Str "");
     CatalogProduct.desc_ar := Js.or_else (r_desc_ar req) (Js.Str "");
     CatalogProduct.price := Js.num_or_zero (Js.parseFloat (r_price req));
     CatalogProduct.discount := Js.num_or_zero (Js.parseFloat (r_discount req));
     CatalogProduct.category := r_category req;
     CatalogProduct.image := image;
     CatalogProduct.stock := Js.num_or_zero (Js.parseInt (r_stock req)) |}.

(** [UPDATE products SET ... WHERE id = ?] *)
Definition update_product (k : Z) (p : CatalogProduct.row)
    (m : gmap Z CatalogProduct.row) : gmap Z CatalogProduct.row :=
  match m !! k with
  | Some _ => <[k := p]> m
  | None => m
  end.

(** From the colours to the answer: reconcile the colours, commit, read
    the product and its colours back. *)
Definition finish (req : request) (isUpdate : bool) (productId : Z) : M response :=
  handle_colors req isUpdate productId;;
  commit;;
  product ← query (fun t => products t !! productId);
  colors ← query (fun t =>
    map_to_list (filter (fun kc => CatalogColor.product_id kc.2 = productId)
                        (product_colors t)));
  mret (Saved product colors).

(** The [try] block of [handleProductSave]. *)
Definition save `{Js.Builtins} (req : request) (isUpdate : bool) : M response :=
  beginTransaction;;
  image ←
    match image_file req with
    | Some path => url ← uploadImage path; unlink path;; mret (Js.Str url)
    | None => mret Js.Null
    end;
  if isUpdate
  then
    product ← query (fun t => products t !! params_id req);
    match product with
    | None => mret ProductNotFound
    | Some old =>
        let image := if Js.truthy image then image else CatalogProduct.image old in
        exec (with_products (update_product (params_id req) (product_row req image)));;
        finish req isUpdate (params_id req)
    end
  else
    if negb (Js.truthy image)
    then mret ImageRequired
    else
      productId ← insert_product (product_row req image);
      finish req isUpdate productId.

(** [handleProductSave(req, res, isUpdate)]: the [try] block, the [catch]
    that rolls back and answers 500, the [finally] that removes the
    temporary files. *)
Definition handleProductSave `{Js.Builtins} (req : request) (isUpdate : bool)
    : env -> world -> response * world := fun e w =>
  match save req isUpdate e w with
  | (Ok r, w') => (r, cleanup req w')
  | (Throw msg, w') => (SaveFailed msg, cleanup req (rollback w'))
  end.

End ProductSave.

(** ** What a product save leaves when every statement runs *)

Module SaveModel.
Import ProductSave.

(** The image a colour is stored with: the hosted copy of its uploaded
    file, or the [image] the client sent. *)
Definition color_image (req : request) (e : env) (i : nat) (color : color_input)
    : Js.value :=
  match color_files req !! i with
  | Some path =>
      match hosted e path with
      | Some url => Js.Str url
      | None => image color
      end
  | None => image color
  end.

(** The statement of the colour at index [i], on the colour table and the
    auto-increment counter. *)
Definition color_effect (req : request) (e : env) (productId : Z) (i : nat)
    (color : color_input) (acc : gmap Z CatalogColor.row * Z)
    : gmap Z CatalogColor.row * Z :=
  let row := color_row productId color (color_image req e i color) in
  if is_insert color
  then (<[acc.2 := row]> acc.1, acc.2 + 1)
  else (update_color (match id color with NumId n => n | _ => 0 end) productId row acc.1,
        acc.2).

Fixpoint colors_effect (req : request) (e : env) (productId : Z) (i : nat)
    (l : list color_input) (acc : gmap Z CatalogColor.row * Z)
    : gmap Z CatalogColor.row * Z :=
  match l with
  | [] => acc
  | color :: rest =>
      colors_effect req e productId (S i) rest (color_effect req e productId i color acc)
  end.

(** The colour is written by the [UPDATE] of the row [k]. *)
Definition updates (k : Z) (color : color_input) : bool :=
  match id color with
  | NumId n => (n =? k) && negb (is_insert color)
  | _ => false
  end.

(** The rows the [DELETE] of an update leaves: those of other products,
    and those whose id is listed. *)
Definition kept (productId : Z) (l : list color_input) (kc : Z * CatalogColor.row) : Prop :=
  ~ (CatalogColor.product_id kc.2 = productId /\ kc.1 ∉ numbers (existingColorIds l)).

(** The colour statements of a save. *)
Definition reconciled (req : request) (e : env) (isUpdate : bool) (productId : Z)
    (acc : gmap Z CatalogColor.row * Z) : gmap Z CatalogColor.row * Z :=
  match colors req with
  | Colors l =>
      colors_effect req e productId O l
        (if isUpdate then filter (kept productId l) acc.1 else acc.1, acc.2)
  | _ => acc
  end.

(** The image a product is stored with: the hosted copy of the uploaded
    file if there is one, else [old]. *)
Definition product_image (req : request) (e : env) (old : Js.value) : Js.value :=
  match image_file req with
  | Some path =>
      match hosted e path with
      | Some url => if Js.truthy (Js.Str url) then Js.Str url else old
      | None => old
      end
  | None => old
  end.

(** The id of the product a save writes. *)
Definition target (req : request) (isUpdate : bool) (w : world) : Z :=
  if isUpdate then params_id req else next_product w.

(** The tables after a save whose statements all ran. *)
Definition saved `{Js.Builtins} (req : request) (isUpdate : bool) (e : env) (w : world)
    : tables :=
  let productId := target req isUpdate w in
  let old := if isUpdate
             then from_option CatalogProduct.image Js.Null
                    (products (committed w) !! productId)
             else Js.Null in
  {| products :=
       (if isUpdate then update_product productId else insert productId)
         (product_row req (product_image req e old)) (products (committed w));
     product_colors :=
       (reconciled req e isUpdate productId
          (product_colors (committed w), next_color w)).1 |}.

(** The colours of a product, as the last [SELECT] returns them. *)
Definition colors_of (productId : Z) (t : tables) : list (Z * CatalogColor.row) :=
  map_to_list (filter (fun kc => CatalogColor.product_id kc.2 = productId)
                      (product_colors t)).

(** No row of the colour table has a key the counter has not passed. *)
Definition counter_ahead (m : gmap Z CatalogColor.row) (next : Z) : Prop :=
  forall k c, m !! k = Some c -> k < next.

(** A relation between the world before and after a computation that
    holds however the computation ends. *)
Definition stays (R : world -> world -> Prop) {A} (m : M A) : Prop :=
  forall e w, R w (m e w).2.

(** The tables and the counters are as they were. *)
Definition quiet (w w' : world) : Prop :=
  tx w' = tx w /\ committed w' = committed w
  /\ next_product w' = next_product w /\ next_color w' = next_color w.

(** The tables of a transaction that holds the product statement already,
    once the colour statements ran. *)
Definition finished (req : request) (e : env) (isUpdate : bool) (productId : Z)
    (w : world) : tables :=
  {| products := products (tx w);
     product_colors :=
       (reconciled req e isUpdate productId (product_colors (tx w), next_color w)).1 |}.

(** Nothing is committed. *)
Definition uncommitted (w w' : world) : Prop := committed w' = committed w.

(** Only files among [F] leave the temporary directory, none enters it,
    and only files among [F] are sent to the image host. *)
Definition tidy (F : gset string) (w w' : world) : Prop :=
  disk w ∖ F ⊆ disk w' /\ disk w' ⊆ disk w
  /\ exists l, sent w' = (sent w ++ l)%list /\ forall p, p ∈ l -> p ∈ F.

End SaveModel.

(** ** A catalogue to run the product save on *)

Module SaveSamples.
Import ProductSave.

Definition shirt : CatalogProduct.row :=
  {| CatalogProduct.name_fr := Js.Str "Chemise"; CatalogProduct.name_ar := Js.Str "Qamis";
     CatalogProduct.desc_fr := Js.Str ""; CatalogProduct.desc_ar := Js.Str "";
     CatalogProduct.price := 120; CatalogProduct.discount := 0;
     CatalogProduct.category := Js.Str "tops";
     CatalogProduct.image := Js.Str "https://i.ibb.co/shirt.png";
     CatalogProduct.stock := 4 |}.

Definition shade (productId : Z) (name hex : string) : CatalogColor.row :=
  {| CatalogColor.product_id := productId;
     CatalogColor.name_fr := Js.Str name; CatalogColor.name_ar := Js.Str name;
     CatalogColor.hex_code := Js.Str hex; CatalogColor.stock := Js.Num 2;
     CatalogColor.image := Js.Null |}.

(** Two products; the first has a red and a blue shade, the second a
    green one. *)
Definition catalogue : tables :=
  {| products := {[ 1 := shirt; 2 := shirt ]};
     product_colors :=
       {[ 1 := shade 1 "Rouge" "#ff0000"; 2 := shade 1 "Bleu" "#0000ff";
          3 := shade 2 "Vert" "#00ff00" ]} |}.

Definition shelf : world :=
  {| committed := catalogue; tx := catalogue; next_product := 3; next_color := 4;
     calls := 0; disk := {[ "uploads/temp/c1.png" ]}; sent := [] |}.

(** Nothing fails; the image host stores every file. *)
Definition host : env :=
  {| faulty := fun _ => false;
     hosted := fun path => Some (String.append "https://i.ibb.co/" path) |}.

Definition entry (i : color_id) (new : bool) (name hex : string) : color_input :=
  {| id := i; isNew := new; name_fr := Js.Str name; name_ar := Js.Str name;
     hex_code := Js.Str hex; stock := Js.Undefined; image := Js.Null |}.

Definition edit_with (l : list color_input) : request :=
  {| r_name_fr := Js.Str "Chemise"; r_name_ar := Js.Str "Qamis";
     r_desc_fr := Js.Undefined; r_desc_ar := Js.Undefined;
     r_price := Js.Num 99; r_discount := Js.Undefined;
     r_category := Js.Str "tops"; r_stock := Js.Num 4;
     colors := Colors l;
     image_file := None;
     color_files := {[ 1%nat := "uploads/temp/c1.png" ]};
     params_id := 1 |}.

(** An edit of the first product: the red shade renamed, the blue one
    dropped, a yellow one added with its picture. *)
Definition palette : list color_input :=
  [ entry (NumId 1) false "Rouge vif" "#ee0000";
    entry (TempId "temp-17") true "Jaune" "#ffff00" ].
Definition edit : request := edit_with palette.

(** The same edit with the new shade not flagged as new. *)
Definition stale_palette : list color_input :=
  [ entry (NumId 1) false "Rouge vif" "#ee0000";
    entry (TempId "temp-17") false "Jaune" "#ffff00" ].
Definition stale_edit : request := edit_with stale_palette.

End SaveSamples.

(** ** The status values the order routes store *)

Module StoredStatus.
Import Store.



End StoredStatus.

(** * Properties *)

(** ** The download-token store *)

Module TokenFacts.
Import DownloadTokens Samples.

Lemma verify_absent now tok (reg : registry) :
  reg !! tok = None -> verifyDownloadToken now tok reg = (None, reg).
Proof. intros E. unfold verifyDownloadToken. now rewrite E. Qed.

Lemma verify_live now tok fi (reg : registry) :
  reg !! tok = Some fi -> now <= expiresAt fi ->
  verifyDownloadToken now tok reg = (Some fi, delete tok reg).
Proof.
  intros E Hle. unfold verifyDownloadToken. rewrite E.
  destruct (Z.ltb_spec (expiresAt fi) now); [lia | reflexivity].
Qed.

Lemma verify_expired now tok fi (reg : registry) :
  reg !! tok = Some fi -> expiresAt fi < now ->
  verifyDownloadToken now tok reg = (None, delete tok reg).
Proof.
  intros E Hlt. unfold verifyDownloadToken. rewrite E.
  destruct (Z.ltb_spec (expiresAt fi) now); [reflexivity | lia].
Qed.

(** The registry a download leaves is the one verification leaves,
    whatever the handler answers. *)
Lemma download_tokens now ends tok s :
  tokens (download now ends tok s).2 = (verifyDownloadToken now tok (tokens s)).2.
Proof.
  unfold download.
  destruct (verifyDownloadToken now tok (tokens s)) as [[fi|] reg]; simpl.
  - destruct (decide (filename fi ∈ temp s)); reflexivity.
  - reflexivity.
Qed.

(** A token that is not in the registry is refused, and the registry and
    the files stay as they are. *)
Lemma download_absent now ends tok s :
  tokens s !! tok = None -> download now ends tok s = (Unauthorized, s).
Proof.
  intros E. unfold download. rewrite (verify_absent _ _ _ E).
  destruct s; reflexivity.
Qed.

Lemma download_live_present now ends tok fi s :
  tokens s !! tok = Some fi -> now <= expiresAt fi -> filename fi ∈ temp s ->
  download now ends tok s =
    (Streamed (contentTypeOf (filename fi)) (filename fi) ends,
     {| tokens := delete tok (tokens s);
        temp := if ends then temp s ∖ {[filename fi]} else temp s |}).
Proof.
  intros E Hle Hin. unfold download. rewrite (verify_live _ _ _ _ E Hle).
  destruct (decide (filename fi ∈ temp s)); [reflexivity | contradiction].
Qed.

Lemma download_live_missing now ends tok fi s :
  tokens s !! tok = Some fi -> now <= expiresAt fi -> filename fi ∉ temp s ->
  download now ends tok s =
    (NotFound, {| tokens := delete tok (tokens s); temp := temp s |}).
Proof.
  intros E Hle Hin. unfold download. rewrite (verify_live _ _ _ _ E Hle).
  destruct (decide (filename fi ∈ temp s)); [contradiction | reflexivity].
Qed.

Lemma download_expired now ends tok fi s :
  tokens s !! tok = Some fi -> expiresAt fi < now ->
  download now ends tok s =
    (Unauthorized, {| tokens := delete tok (tokens s); temp := temp s |}).
Proof.
  intros E Hlt. unfold download. now rewrite (verify_expired _ _ _ _ E Hlt).
Qed.

(** The state right after the deferred export issued [tok] at [t0]. *)
Lemma register_export_state t0 tok fname s :
  register_export t0 tok fname s =
    (tok, {| tokens := <[tok := {| filename := fname; expiresAt := t0 + TTL |}]> (tokens s);
             temp := temp s ∪ {[fname]} |}).
Proof. reflexivity. Qed.

(** C2.  The deferred export that issues [tok] at [t0] leaves its entry,
    expiring at [t0 + TTL], in the registry and its file on disk.  In any
    later state that still holds this entry: retrieved at a time [now]
    within the time-to-live, with the file in place, the download is
    served and the token leaves the registry, and any further retrieval
    with it is answered 401; retrieved after the time-to-live, the
    never-used token is answered 401 and its entry is removed at that
    moment. *)
Theorem token_single_use_and_expiry (s0 : server) (t0 now : Z) (tok fname : string)
    (ends : bool) :
  let issued := {| filename := fname; expiresAt := t0 + TTL |} in
  (tokens (register_export t0 tok fname s0).2 !! tok = Some issued
   /\ fname ∈ temp (register_export t0 tok fname s0).2)
  /\ forall s : server,
       tokens s !! tok = Some issued ->
       (now <= t0 + TTL -> fname ∈ temp s ->
          (download now ends tok s).1 = Streamed (contentTypeOf fname) fname ends
          /\ tokens (download now ends tok s).2 !! tok = None
          /\ forall now' ends',
               (download now' ends' tok (download now ends tok s).2).1 = Unauthorized
               /\ status (download now' ends' tok (download now ends tok s).2).1 = 401)
       /\ (t0 + TTL < now ->
             (download now ends tok s).1 = Unauthorized
             /\ status (download now ends tok s).1 = 401
             /\ tokens (download now ends tok s).2 !! tok = None).
Proof.
  intros issued. split.
  - rewrite register_export_state. cbn [snd tokens temp].
    split; [apply lookup_insert_eq | set_solver].
  - intros s E. split.
    + intros Hle Hin.
      rewrite (download_live_present now ends tok issued s E Hle Hin). simpl.
      split; [reflexivity |]. split; [apply lookup_delete_eq |].
      intros now' ends'. rewrite download_absent by apply lookup_delete_eq.
      split; reflexivity.
    + intros Hlt.
      rewrite (download_expired now ends tok issued s E Hlt). simpl.
      split; [reflexivity |]. split; [reflexivity | apply lookup_delete_eq].
Qed.

Lemma token_single_use_and_expiry_witness :
  (let s := (register_export 1000 "k3x9" "orders_1.pdf" empty_server).2 in
   (download 2000 true "k3x9" s).1 = Streamed "application/pdf" "orders_1.pdf" true
   /\ (download 5000 true "k3x9" (download 2000 true "k3x9" s).2).1 = Unauthorized)
  /\ (let s := (register_export 1000 "k3x9" "orders_1.pdf" empty_server).2 in
      (download 301001 true "k3x9" s).1 = Unauthorized).
Proof.
  split.
  - destruct (token_single_use_and_expiry empty_server 1000 2000 "k3x9" "orders_1.pdf" true)
      as [[E Hin] H].
    destruct (H _ E) as [H1 _].
    destruct H1 as (H1 & _ & H3); [unfold TTL; lia | exact Hin |].
    split; [exact H1 | exact (proj1 (H3 5000 true))].
  - destruct (token_single_use_and_expiry empty_server 1000 301001 "k3x9" "orders_1.pdf" true)
      as [[E _] H].
    destruct (H _ E) as [_ H2].
    destruct H2 as (H1 & _); [unfold TTL; lia | exact H1].
Defined.

(** C10.  The token is consumed at verification, before the file is
    looked at or streamed: the registry after the request is the one
    verification leaves; with a live token whose file is missing the answer
    is 404, with the file present and the stream breaking the download is
    incomplete, and in both cases the token is gone and the same request
    repeated is answered 401. *)
Theorem token_consumed_whatever_the_delivery (s : server) (now : Z) (tok : string)
    (fi : fileInfo) :
  tokens s !! tok = Some fi ->
  now <= expiresAt fi ->
  (forall ends, tokens (download now ends tok s).2 = (verifyDownloadToken now tok (tokens s)).2)
  /\ (filename fi ∉ temp s ->
        forall ends,
          (download now ends tok s).1 = NotFound
          /\ status (download now ends tok s).1 = 404
          /\ tokens (download now ends tok s).2 !! tok = None
          /\ forall now' ends',
               status (download now' ends' tok (download now ends tok s).2).1 = 401)
  /\ (filename fi ∈ temp s ->
        (download now false tok s).1 = Streamed (contentTypeOf (filename fi)) (filename fi) false
        /\ tokens (download now false tok s).2 !! tok = None
        /\ forall now' ends',
             status (download now' ends' tok (download now false tok s).2).1 = 401).
Proof.
  intros E Hle. split; [intros ends; apply download_tokens |]. split.
  - intros Hmiss ends.
    rewrite (download_live_missing now ends tok fi s E Hle Hmiss). simpl.
    split; [reflexivity |]. split; [reflexivity |]. split; [apply lookup_delete_eq |].
    intros now' ends'. rewrite download_absent by apply lookup_delete_eq. reflexivity.
  - intros Hin.
    rewrite (download_live_present now false tok fi s E Hle Hin). simpl.
    split; [reflexivity |]. split; [apply lookup_delete_eq |].
    intros now' ends'. rewrite download_absent by apply lookup_delete_eq. reflexivity.
Qed.

Lemma token_consumed_whatever_the_delivery_witness :
  (download 2000 true "k3x9" lost_file_server).1 = NotFound
  /\ status (download 2001 true "k3x9" (download 2000 true "k3x9" lost_file_server).2).1 = 401.
Proof.
  destruct (token_consumed_whatever_the_delivery lost_file_server 2000 "k3x9"
              {| filename := "orders_1.pdf"; expiresAt := 301000 |})
    as (_ & H & _).
  - reflexivity.
  - simpl. lia.
  - destruct (H ltac:(simpl; set_solver) true) as (H1 & _ & _ & H4).
    split; [exact H1 | exact (H4 2001 true)].
Defined.

End TokenFacts.

(** ** Status updates *)

Module StatusFacts.
Import Store OrderRoutes OrderModel Samples.

(** What one status update can do to the committed tables: nothing, or,
    for a valid status and an existing order, the one [UPDATE]. *)
Lemma put_order_status_committed id status e w :
  committed (put_order_status id status e w).2 = committed w
  \/ exists o,
       orders (committed w) !! id = Some o
       /\ valid_status status = true
       /\ faulty e (calls w) = false /\ faulty e (S (calls w)) = false
       /\ (put_order_status id status e w).1 = Http.json 200 (Http.Msg "Order status updated")
       /\ committed (put_order_status id status e w).2 =
            with_orders (alter (update_status status (next_completed_date e status o)) id)
                        (committed w).
Proof.
  unfold put_order_status, try_catch.
  destruct (valid_status status) eqn:Hv; simpl; [| now left].
  unfold mbind, M_bind, bind, select, datastore.
  destruct (faulty e (calls w)) eqn:F1; simpl; [now left |].
  destruct (orders (committed w) !! id) as [o|] eqn:Ho; simpl; [| now left].
  unfold on_pool, datastore. simpl.
  destruct (faulty e (S (calls w))) eqn:F2; simpl; [now left |].
  right. exists o. repeat split; reflexivity.
Qed.

Lemma put_order_status_no_fault id status e w o :
  orders (committed w) !! id = Some o ->
  valid_status status = true ->
  faulty e (calls w) = false -> faulty e (S (calls w)) = false ->
  (put_order_status id status e w).1 = Http.json 200 (Http.Msg "Order status updated")
  /\ committed (put_order_status id status e w).2 =
       with_orders (alter (update_status status (next_completed_date e status o)) id)
                   (committed w).
Proof.
  intros Ho Hv F1 F2.
  unfold put_order_status, try_catch. rewrite Hv. simpl.
  unfold mbind, M_bind, bind, select, datastore. rewrite F1. simpl. rewrite Ho. simpl.
  unfold on_pool, datastore. simpl. rewrite F2. simpl. split; reflexivity.
Qed.

(** After any one update the order is still there, and its completion
    date is the stored one or the one [next_completed_date] computes. *)
Lemma put_order_status_row id status e w o :
  orders (committed w) !! id = Some o ->
  exists o',
    orders (committed (put_order_status id status e w).2) !! id = Some o'
    /\ (Order.completed_date o' = Order.completed_date o
        \/ Order.completed_date o' = next_completed_date e status o).
Proof.
  intros Ho.
  destruct (put_order_status_committed id status e w) as [-> | (o1 & Ho1 & _ & _ & _ & _ & ->)].
  - exists o. split; [exact Ho | now left].
  - rewrite Ho in Ho1. injection Ho1 as <-.
    exists (update_status status (next_completed_date e status o) o). split.
    + simpl. rewrite lookup_alter_eq, Ho. reflexivity.
    + now right.
Qed.

Lemma next_completed_date_set e status o d :
  Order.completed_date o = Some d -> next_completed_date e status o = Some d.
Proof.
  intros E. unfold next_completed_date. rewrite E.
  rewrite bool_decide_eq_true_2 by eauto.
  now rewrite andb_false_r.
Qed.

Lemma next_completed_date_other e status o :
  Js.is_str status "delivered" = false ->
  next_completed_date e status o = Order.completed_date o.
Proof. intros E. unfold next_completed_date. now rewrite E. Qed.

(** An update of another order leaves this one as it is. *)
Lemma put_order_status_other id id' status e w :
  id <> id' ->
  orders (committed (put_order_status id' status e w).2) !! id = orders (committed w) !! id.
Proof.
  intros Hne.
  destruct (put_order_status_committed id' status e w) as [-> | (o1 & _ & _ & _ & _ & _ & ->)].
  - reflexivity.
  - simpl. apply lookup_alter_ne. congruence.
Qed.

Lemma completed_date_kept l : forall w id o d,
  orders (committed w) !! id = Some o ->
  Order.completed_date o = Some d ->
  exists o', orders (committed (updates l w)) !! id = Some o'
             /\ Order.completed_date o' = Some d.
Proof.
  induction l as [| [[id' status] e] l IH]; intros w id o d Ho Hd; simpl.
  - eauto.
  - destruct (decide (id = id')) as [<- | Hne].
    + destruct (put_order_status_row id status e w o Ho) as (o' & Ho' & Hc).
      apply (IH _ id o' d Ho').
      destruct Hc as [-> | ->]; [exact Hd | now apply next_completed_date_set].
    + apply (IH _ id o d); [| exact Hd].
      now rewrite put_order_status_other.
Qed.

(** C6.  On an existing order [o]: (1) an update to ['delivered'] that
    the datastore carries out, with no completion date stored, stores one;
    (2) once a completion date is stored, no run of status updates,
    whatever their statuses, changes it; (3) an update to any other status
    leaves a null completion date null. *)
Theorem completed_date_set_once (w : world) (id : Z) (o : Order.row) :
  orders (committed w) !! id = Some o ->
  (forall e,
     Order.completed_date o = None ->
     faulty e (calls w) = false -> faulty e (S (calls w)) = false ->
     exists o',
       orders (committed (put_order_status id (Js.Str "delivered") e w).2) !! id = Some o'
       /\ Order.status o' = Js.Str "delivered"
       /\ Order.completed_date o' = Some (now e))
  /\ (forall d l,
        Order.completed_date o = Some d ->
        exists o', orders (committed (updates l w)) !! id = Some o'
                   /\ Order.completed_date o' = Some d)
  /\ (forall e status,
        Js.is_str status "delivered" = false ->
        Order.completed_date o = None ->
        exists o',
          orders (committed (put_order_status id status e w).2) !! id = Some o'
          /\ Order.completed_date o' = None).
Proof.
  intros Ho. split; [| split].
  - intros e Hn F1 F2.
    destruct (put_order_status_no_fault id (Js.Str "delivered") e w o Ho eq_refl F1 F2)
      as [_ ->].
    exists (update_status (Js.Str "delivered")
              (next_completed_date e (Js.Str "delivered") o) o).
    split; [simpl; rewrite lookup_alter_eq, Ho; reflexivity |].
    split; [reflexivity |].
    simpl. unfold next_completed_date. rewrite Hn. reflexivity.
  - intros d l Hd. exact (completed_date_kept l w id o d Ho Hd).
  - intros e status Hs Hn.
    destruct (put_order_status_row id status e w o Ho) as (o' & Ho' & Hc).
    exists o'. split; [exact Ho' |].
    destruct Hc as [-> | ->]; [exact Hn |].
    now rewrite next_completed_date_other.
Qed.

Lemma completed_date_set_once_witness :
  exists o',
    orders (committed (put_order_status 4 (Js.Str "delivered") calm shop_with_order).2) !! 4
      = Some o'
    /\ Order.status o' = Js.Str "delivered"
    /\ Order.completed_date o' = Some 1700000000.
Proof.
  destruct (completed_date_set_once shop_with_order 4 open_order) as (H & _).
  - reflexivity.
  - apply (H calm); reflexivity.
Defined.

End StatusFacts.

(** ** Order creation *)

Module OrderFacts.
Import Store OrderRoutes OrderModel Samples.

Lemma datastore_ok {A} (m : M A) e w :
  faulty e (calls w) = false -> datastore m e w = m e (tick w).
Proof. intros F. unfold datastore. now rewrite F. Qed.

Lemma datastore_fault {A} (m : M A) e w :
  faulty e (calls w) = true -> datastore m e w = (Throw "datastore error", tick w).
Proof. intros F. unfold datastore. now rewrite F. Qed.

Lemma item_loop_spec `{Js.Builtins} isWA oid items : forall e w r w',
  for_each (item_step isWA oid) items e w = (r, w') ->
  committed w' = committed w /\ auto_increment w' = auto_increment w
  /\ outbox w' = outbox w /\ emits w' = emits w
  /\ match r with
     | Ok _ =>
         tx w' = fold_left (fun t i => item_effect isWA oid i t) items (tx w)
         /\ calls w' = (calls w + loop_calls isWA items)%nat
         /\ forall n, (n < loop_calls isWA items)%nat -> faulty e (calls w + n) = false
     | Throw _ =>
         exists n, (n < loop_calls isWA items)%nat /\ faulty e (calls w + n) = true
     end.
Proof.
  induction items as [| item items IH]; intros e w r w' Hrun.
  - simpl in Hrun. injection Hrun as <- <-.
    repeat split; try reflexivity.
    + unfold loop_calls. simpl. lia.
    + unfold loop_calls. simpl. lia.
  - simpl in Hrun.
    unfold mbind, M_bind, bind, item_step, insert_item, on_connection in Hrun.
    unfold mbind, M_bind, bind in Hrun.
    unfold datastore at 1 in Hrun.
    destruct (faulty e (calls w)) eqn:F1.
    { injection Hrun as <- <-. repeat split; try reflexivity.
      exists O. split; [unfold loop_calls; destruct isWA; simpl; lia |].
      now rewrite Nat.add_0_r. }
    destruct isWA; simpl in Hrun.
    + unfold mret, M_ret, ret in Hrun.
      apply IH in Hrun. simpl in Hrun.
      destruct Hrun as (Hc & Ha & Ho & He & Hr).
      repeat split; try assumption.
      destruct r as [u | msg].
      * destruct Hr as (Ht & Hk & Hf). repeat split.
        -- rewrite Ht. reflexivity.
        -- rewrite Hk. unfold loop_calls. simpl. lia.
        -- intros n Hn. destruct n as [| n]; [now rewrite Nat.add_0_r |].
           replace (calls w + S n)%nat with (S (calls w) + n)%nat by lia.
           apply Hf. unfold loop_calls in *. simpl in Hn. lia.
      * destruct Hr as (n & Hn & Hf). exists (S n). split.
        -- unfold loop_calls in *. simpl. lia.
        -- replace (calls w + S n)%nat with (S (calls w) + n)%nat by lia. exact Hf.
    + unfold datastore at 1 in Hrun. simpl in Hrun.
      destruct (faulty e (S (calls w))) eqn:F2.
      { injection Hrun as <- <-. repeat split; try reflexivity.
        exists 1%nat. split; [unfold loop_calls; simpl; lia |].
        now replace (calls w + 1)%nat with (S (calls w)) by lia. }
      apply IH in Hrun. simpl in Hrun.
      destruct Hrun as (Hc & Ha & Ho & He & Hr).
      repeat split; try assumption.
      destruct r as [u | msg].
      * destruct Hr as (Ht & Hk & Hf). repeat split.
        -- rewrite Ht. reflexivity.
        -- rewrite Hk. unfold loop_calls. simpl. lia.
        -- intros n Hn. destruct n as [| [| n]].
           ++ now rewrite Nat.add_0_r.
           ++ now replace (calls w + 1)%nat with (S (calls w)) by lia.
           ++ replace (calls w + S (S n))%nat with (S (S (calls w)) + n)%nat by lia.
              apply Hf. unfold loop_calls in *. simpl in Hn. lia.
      * destruct Hr as (n & Hn & Hf). exists (S (S n)). split.
        -- unfold loop_calls in *. simpl. lia.
        -- replace (calls w + S (S n))%nat with (S (S (calls w)) + n)%nat by lia. exact Hf.
Qed.

(** The loop of [POST /whatsapp] is the loop of [POST /] for a WhatsApp
    order. *)
Lemma insert_item_step `{Js.Builtins} oid item e w :
  insert_item oid item e w = item_step true oid item e w.
Proof.
  unfold item_step, mbind, M_bind, bind. simpl.
  destruct (insert_item oid item e w) as [[[] | msg] w']; reflexivity.
Qed.

Lemma for_each_ext {A} (f g : A -> M unit) l :
  (forall x e w, f x e w = g x e w) ->
  forall e w, for_each f l e w = for_each g l e w.
Proof.
  intros Hfg. induction l as [| x l IH]; intros e w; [reflexivity |].
  simpl. unfold mbind, M_bind, bind. rewrite Hfg.
  destruct (g x e w) as [[u | msg] w']; [apply IH | reflexivity].
Qed.

(** The broadcast loop touches neither the tables nor the counters of the
    datastore; it completes when no emission throws, and throws when the
    first one does. *)
Lemma emit_loop_spec (n : Notification.t) sockets : forall e w r w',
  for_each (fun socketId => emit socketId n) sockets e w = (r, w') ->
  committed w' = committed w /\ tx w' = tx w /\ auto_increment w' = auto_increment w
  /\ calls w' = calls w
  /\ ((forall k, emit_throws e k = false) ->
        r = Ok tt /\ outbox w' = (outbox w ++ map (fun s => (s, n)) sockets)%list)
  /\ (emit_throws e (emits w) = true -> sockets <> [] -> exists msg, r = Throw msg).
Proof.
  induction sockets as [| s sockets IH]; intros e w r w' Hrun.
  - simpl in Hrun. injection Hrun as <- <-.
    split_and!; try reflexivity.
    + intros _. split; [reflexivity | now rewrite app_nil_r].
    + intros _ Hne. now contradiction Hne.
  - simpl in Hrun. unfold mbind, M_bind, bind in Hrun. unfold emit at 1 in Hrun.
    destruct (emit_throws e (emits w)) eqn:F.
    + injection Hrun as <- <-. split_and!; try reflexivity.
      * intros Hall. rewrite Hall in F. discriminate.
      * intros _ _. eauto.
    + apply IH in Hrun. simpl in Hrun.
      destruct Hrun as (Hc & Ht & Ha & Hk & Hok & _).
      split_and!; try assumption.
      * intros Hall. destruct (Hok Hall) as [-> ->].
        split; [reflexivity | now rewrite <- app_assoc].
      * intros Habs. discriminate.
Qed.

(** The post-commit block: the tables stay as committed; a failing
    re-read throws; with the re-read passing, the block completes when no
    channel is registered or no emission throws, and throws when the order
    is found, a socket is registered and the first emission throws. *)
Lemma notify_new_order_spec `{Js.Builtins} oid notice e w r w' :
  notify_new_order oid notice e w = (r, w') ->
  committed w' = committed w /\ auto_increment w' = auto_increment w
  /\ (faulty e (calls w) = true -> exists msg, r = Throw msg)
  /\ (faulty e (calls w) = false ->
        (channel e = None \/ forall k, emit_throws e k = false) -> r = Ok tt)
  /\ (faulty e (calls w) = false ->
        forall o s sockets,
          orders (committed w) !! oid = Some o ->
          channel e = Some (s :: sockets) ->
          emit_throws e (emits w) = true ->
          exists msg, r = Throw msg).
Proof.
  unfold notify_new_order, mbind, M_bind, bind, select, datastore. intros Hrun.
  destruct (faulty e (calls w)) eqn:F.
  { injection Hrun as <- <-. split_and!; try reflexivity; try discriminate. eauto. }
  simpl in Hrun.
  destruct (orders (committed w) !! oid) as [o |] eqn:Ho.
  - destruct (channel e) as [sockets |] eqn:Hch.
    + unfold NotificationService.notifyAdmins, mbind, M_bind, bind in Hrun.
      simpl in Hrun. apply emit_loop_spec in Hrun. simpl in Hrun.
      destruct Hrun as (Hc & _ & Ha & _ & Hok & Hthrow).
      split_and!; try assumption; try discriminate.
      * intros _ [Habs | Hall]; [discriminate | now destruct (Hok Hall)].
      * intros _ o' s' sockets' _ Hs Hemit. injection Hs as ->.
        apply Hthrow; [exact Hemit | discriminate].
    + simpl in Hrun. injection Hrun as <- <-.
      split_and!; try reflexivity; try discriminate.
  - simpl in Hrun. injection Hrun as <- <-.
    split_and!; try reflexivity; try discriminate.
Qed.

(** Either the transaction throws before its commit takes effect, the
    committed tables being untouched, and then a call up to the commit
    failed or the key was taken; or every call up to the commit passed, the
    committed tables are [created], and the outcome is that of the
    post-commit block. *)
Lemma transaction_spec `{Js.Builtins} mkrow isWA notice msg items e w r w' :
  transaction mkrow isWA notice msg items e w = (r, w') ->
  let k := auto_increment w in
  let N := loop_calls isWA items in
  (committed w' = committed w /\ (exists m, r = Throw m)
   /\ ((exists n, (n <= S N)%nat /\ faulty e (calls w + n) = true)
       \/ orders (tx w) !! k <> None))
  \/ (orders (tx w) !! k = None
      /\ (forall n, (n <= S N)%nat -> faulty e (calls w + n) = false)
      /\ committed w' = created mkrow isWA items k (tx w)
      /\ exists w4 rn,
           notify_new_order k notice e w4 = (rn, w')
           /\ committed w4 = committed w'
           /\ calls w4 = (calls w + N + 2)%nat
           /\ emits w4 = emits w
           /\ r = match rn with
                  | Ok _ => Ok (Http.json 201 (Http.OrderCreated msg k))
                  | Throw m => Throw m
                  end).
Proof.
  intros Hrun k N. unfold transaction in Hrun.
  unfold mbind at 1, M_bind at 1, bind at 1 in Hrun.
  unfold insert_order, datastore at 1 in Hrun.
  destruct (faulty e (calls w)) eqn:F0.
  { injection Hrun as <- <-. left. split_and!; [reflexivity | eauto |].
    left. exists O. split; [lia | now rewrite Nat.add_0_r]. }
  cbn [tick tx auto_increment committed calls] in Hrun.
  destruct (orders (tx w) !! auto_increment w) as [dup |] eqn:Hk.
  { injection Hrun as <- <-. left. split_and!; [reflexivity | eauto |].
    right. unfold k. rewrite Hk. discriminate. }
  unfold mbind at 1, M_bind at 1, bind at 1 in Hrun.
  match type of Hrun with
  | context [for_each ?f ?l e ?w1] =>
      destruct (for_each f l e w1) as [[[] | m] w3] eqn:Hloop
  end.
  2:{ injection Hrun as <- <-.
      apply item_loop_spec in Hloop. simpl in Hloop.
      destruct Hloop as (Hc & _ & _ & _ & n & Hn & Hf).
      left. split_and!; [exact Hc | eauto |].
      left. exists (S n). split; [fold N in Hn; lia |].
      now replace (calls w + S n)%nat with (S (calls w) + n)%nat by lia. }
  apply item_loop_spec in Hloop. simpl in Hloop.
  destruct Hloop as (Hc & Ha & Ho & He & Ht & Hcalls & Hf).
  unfold mbind at 1, M_bind at 1, bind at 1 in Hrun.
  unfold commit, datastore at 1 in Hrun.
  destruct (faulty e (calls w3)) eqn:F3.
  { injection Hrun as <- <-. left. split_and!; [exact Hc | eauto |].
    left. exists (S N). split; [lia |].
    rewrite Hcalls in F3. fold N in F3.
    now replace (calls w + S N)%nat with (S (calls w) + N)%nat by lia. }
  unfold mbind at 1, M_bind at 1, bind at 1 in Hrun.
  match type of Hrun with
  | context [notify_new_order ?a ?b e ?w4] =>
      destruct (notify_new_order a b e w4) as [rn w5] eqn:Hn; set (w4' := w4) in *
  end.
  right. split_and!.
  - exact Hk.
  - intros n Hn'. destruct n as [| n]; [now rewrite Nat.add_0_r |].
    destruct (decide (n = N)) as [-> | Hne].
    + rewrite Hcalls in F3. fold N in F3.
      now replace (calls w + S N)%nat with (S (calls w) + N)%nat by lia.
    + replace (calls w + S n)%nat with (S (calls w) + n)%nat by lia.
      apply Hf. fold N. lia.
  - pose proof (notify_new_order_spec _ _ _ _ _ _ Hn) as (Hc5 & _).
    destruct rn as [[] | m]; injection Hrun as <- <-; rewrite Hc5; subst w4'; simpl;
      rewrite Ht; reflexivity.
  - exists w4', rn.
    pose proof (notify_new_order_spec _ _ _ _ _ _ Hn) as (Hc5 & _).
    destruct rn as [[] | m]; injection Hrun as <- <-;
      (split_and!; [exact Hn | now rewrite Hc5 | subst w4'; simpl; rewrite Hcalls; fold N; lia
                   | subst w4'; simpl; exact He | reflexivity]).
Qed.

Lemma try_catch_begin {A} (k : M A) h e w :
  try_catch (beginTransaction;; k) h e w =
    if faulty e (calls w)
    then h "datastore error" e (tick w)
    else try_catch k h e (set_tx (committed (tick w)) (tick w)).
Proof.
  unfold try_catch, mbind, M_bind, bind, beginTransaction, datastore.
  destruct (faulty e (calls w)); reflexivity.
Qed.

Lemma post_orders_guarded `{Js.Builtins} b e w :
  post_orders b e w =
    guarded (refusal b)
      (transaction (new_order_row e (Js.is_str (Req.order_source b) "whatsapp") b)
                   (Js.is_str (Req.order_source b) "whatsapp")
                   (order_notice (Js.is_str (Req.order_source b) "whatsapp"))
                   "Order created successfully" (default [] (Req.items b)))
      e w.
Proof.
  unfold post_orders, guarded, refusal. rewrite !try_catch_begin.
  destruct (faulty e (calls w)); [reflexivity |].
  destruct (no_items (Req.items b)); [reflexivity |].
  destruct (negb (Js.is_str (Req.order_source b) "whatsapp") && missing_customer b);
    reflexivity.
Qed.

Lemma post_orders_whatsapp_guarded `{Js.Builtins} b e w :
  post_orders_whatsapp b e w =
    guarded (refusal_whatsapp b)
      (transaction (new_whatsapp_row e b) true whatsapp_notice
                   "WhatsApp order created successfully" (default [] (Req.items b)))
      e w.
Proof.
  unfold post_orders_whatsapp, guarded, refusal_whatsapp. rewrite !try_catch_begin.
  destruct (faulty e (calls w)); [reflexivity |].
  destruct (no_items (Req.items b)); [reflexivity |].
  unfold try_catch, transaction, mbind, M_bind, bind, ask.
  match goal with
  | |- context [insert_order ?r e ?w1] =>
      destruct (insert_order r e w1) as [[k | m] w2]; [| reflexivity]
  end.
  rewrite (for_each_ext (insert_item k) (item_step true k) _ (insert_item_step k)).
  reflexivity.
Qed.

(** Every run of a creation route is of one of four kinds: the
    transaction could not begin (500); the body was refused (the
    validation's answer); a call up to the commit failed or the key was
    taken (500); or the transaction committed, and the answer is 201 or 500
    as the post-commit block completes or throws.  The committed tables
    are untouched in the first three and [created] in the last. *)
Lemma guarded_cases `{Js.Builtins} refusal mkrow isWA notice msg items e w :
  let run := guarded refusal (transaction mkrow isWA notice msg items) e w in
  let k := auto_increment w in
  let N := loop_calls isWA items in
  (faulty e (calls w) = true /\ Http.code run.1 = 500
   /\ committed run.2 = committed w)
  \/ (faulty e (calls w) = false /\ refusal = Some run.1
      /\ committed run.2 = committed w)
  \/ (faulty e (calls w) = false /\ refusal = None /\ Http.code run.1 = 500
      /\ committed run.2 = committed w
      /\ ((exists n, (1 <= n <= N + 2)%nat /\ faulty e (calls w + n) = true)
          \/ orders (committed w) !! k <> None))
  \/ (refusal = None /\ orders (committed w) !! k = None
      /\ (forall n, (n <= N + 2)%nat -> faulty e (calls w + n) = false)
      /\ committed run.2 = created mkrow isWA items k (committed w)
      /\ exists w4 rn wn,
           notify_new_order k notice e w4 = (rn, wn)
           /\ committed w4 = committed run.2
           /\ calls w4 = (calls w + N + 3)%nat
           /\ emits w4 = emits w
           /\ run.1 = match rn with
                      | Ok _ => Http.json 201 (Http.OrderCreated msg k)
                      | Throw m => Http.json 500 (Http.Error "Server error" m)
                      end).
Proof.
  intros run k N. subst run. unfold guarded. rewrite try_catch_begin.
  destruct (faulty e (calls w)) eqn:F0.
  { left. split_and!; reflexivity. }
  right. destruct refusal as [r0 |].
  { left. split_and!; reflexivity. }
  right. unfold try_catch.
  match goal with
  | |- context [transaction _ _ _ _ _ e ?w1] =>
      set (w1' := w1);
      destruct (transaction mkrow isWA notice msg items e w1') as [r w'] eqn:Hrun
  end.
  apply transaction_spec in Hrun. cbv zeta in Hrun. fold N in Hrun.
  replace (auto_increment w1') with k in Hrun by reflexivity.
  replace (tx w1') with (committed w) in Hrun by reflexivity.
  replace (calls w1') with (S (calls w)) in Hrun by reflexivity.
  destruct Hrun as [(Hc & (m & ->) & Hwhy) | (Hk & Hf & Hc & w4 & rn & Hn & Hc4 & Hcalls & He & ->)].
  - left. split_and!; try reflexivity.
    + simpl. exact Hc.
    + destruct Hwhy as [(n & Hn & Hfn) | Hdup]; [left | now right].
      exists (S n). split; [lia |].
      now replace (calls w + S n)%nat with (S (calls w) + n)%nat by lia.
  - right. split_and!; try reflexivity.
    + exact Hk.
    + intros n Hn'. destruct n as [| n]; [now rewrite Nat.add_0_r |].
      replace (calls w + S n)%nat with (S (calls w) + n)%nat by lia.
      apply Hf. lia.
    + destruct rn as [[] | m]; simpl; exact Hc.
    + exists w4, rn, w'. split_and!.
      * exact Hn.
      * destruct rn as [[] | m]; simpl; exact Hc4.
      * rewrite Hcalls. lia.
      * exact He.
      * destruct rn as [[] | m]; reflexivity.
Qed.

(** *** What [created] holds, table by table *)

Lemma stock_update_orders item t :
  orders (stock_update item t) = orders t
  /\ order_items (stock_update item t) = order_items t.
Proof. unfold stock_update. destruct (truthy_id (Req.colorId item)); split; reflexivity. Qed.

Lemma stock_update_congr item t t' :
  products t = products t' -> product_colors t = product_colors t' ->
  products (stock_update item t) = products (stock_update item t')
  /\ product_colors (stock_update item t) = product_colors (stock_update item t').
Proof.
  intros Hp Hc. unfold stock_update.
  destruct (truthy_id (Req.colorId item)); simpl; rewrite ?Hp, ?Hc; split; reflexivity.
Qed.

Lemma fold_effect_orders `{Js.Builtins} isWA k items : forall t,
  orders (fold_left (fun t i => item_effect isWA k i t) items t) = orders t.
Proof.
  induction items as [| i items IH]; intros t; [reflexivity |].
  simpl. rewrite IH. unfold item_effect.
  destruct isWA; simpl; [reflexivity |].
  now rewrite (proj1 (stock_update_orders i _)).
Qed.

Lemma fold_effect_items `{Js.Builtins} isWA k items : forall t,
  order_items (fold_left (fun t i => item_effect isWA k i t) items t) =
    (order_items t ++ map (item_row k) items)%list.
Proof.
  induction items as [| i items IH]; intros t; simpl.
  - now rewrite app_nil_r.
  - rewrite IH. unfold item_effect.
    destruct isWA; simpl; [now rewrite <- app_assoc |].
    rewrite (proj2 (stock_update_orders i _)). simpl. now rewrite <- app_assoc.
Qed.

Lemma fold_effect_whatsapp_stock `{Js.Builtins} k items : forall t,
  products (fold_left (fun t i => item_effect true k i t) items t) = products t
  /\ product_colors (fold_left (fun t i => item_effect true k i t) items t) =
       product_colors t.
Proof.
  induction items as [| i items IH]; intros t; [split; reflexivity |].
  simpl. destruct (IH (item_effect true k i t)) as [-> ->]. split; reflexivity.
Qed.

Lemma fold_effect_stock `{Js.Builtins} k items : forall t t',
  products t = products t' -> product_colors t = product_colors t' ->
  products (fold_left (fun t i => item_effect false k i t) items t) =
    products (fold_left (fun t i => stock_update i t) items t')
  /\ product_colors (fold_left (fun t i => item_effect false k i t) items t) =
       product_colors (fold_left (fun t i => stock_update i t) items t').
Proof.
  induction items as [| i items IH]; intros t t' Hp Hc; [now split |].
  simpl. apply IH; unfold item_effect; simpl; now apply stock_update_congr.
Qed.

Lemma created_orders `{Js.Builtins} mkrow isWA items k t :
  orders (created mkrow isWA items k t) = <[k := mkrow k]> (orders t).
Proof. unfold created. now rewrite fold_effect_orders. Qed.

Lemma created_order_items `{Js.Builtins} mkrow isWA items k t :
  order_items (created mkrow isWA items k t) =
    (order_items t ++ map (item_row k) items)%list.
Proof. unfold created. now rewrite fold_effect_items. Qed.

Lemma created_whatsapp_stock `{Js.Builtins} mkrow items k t :
  products (created mkrow true items k t) = products t
  /\ product_colors (created mkrow true items k t) = product_colors t.
Proof.
  unfold created.
  destruct (fold_effect_whatsapp_stock k items (with_orders (insert k (mkrow k)) t))
    as [-> ->].
  split; reflexivity.
Qed.

Lemma created_stock `{Js.Builtins} mkrow items k t :
  products (created mkrow false items k t) =
    products (fold_left (fun t i => stock_update i t) items t)
  /\ product_colors (created mkrow false items k t) =
       product_colors (fold_left (fun t i => stock_update i t) items t).
Proof. unfold created. now apply fold_effect_stock. Qed.

(** *** The two stock statements *)

Lemma update_product_stock_spec q pid (m : gmap Z Product.row) p S :
  m !! pid = Some p -> Product.stock p = Some S ->
  update_product_stock q pid m =
    if q <=? S then <[pid := Product.with_stock p (S - q)]> m else m.
Proof. intros Hp Hs. unfold update_product_stock. now rewrite Hp, Hs. Qed.

Lemma update_color_stock_spec q cid pid (m : gmap Z Color.row) c S :
  m !! cid = Some c -> Color.product_id c = pid -> Color.stock c = Some S ->
  update_color_stock q cid pid m =
    if q <=? S then <[cid := Color.with_stock c (S - q)]> m else m.
Proof.
  intros Hc Hp Hs. unfold update_color_stock. rewrite Hc, Hs, Hp, Z.eqb_refl. reflexivity.
Qed.

(** The stock a product row holds after the statement of an item without a
    colour, and the stock a colour row of the item's product holds after
    the statement of an item with that colour. *)
Lemma stock_update_product item t p S :
  truthy_id (Req.colorId item) = false ->
  products t !! Req.productId item = Some p -> Product.stock p = Some S ->
  product_colors (stock_update item t) = product_colors t
  /\ Product.stock <$> products (stock_update item t) !! Req.productId item =
       Some (Some (if Req.quantity item <=? S then S - Req.quantity item else S))
  /\ forall pid', pid' <> Req.productId item ->
       products (stock_update item t) !! pid' = products t !! pid'.
Proof.
  intros Hc Hp Hs. unfold stock_update. rewrite Hc. simpl.
  rewrite (update_product_stock_spec _ _ _ p S Hp Hs).
  split; [reflexivity |].
  destruct (Req.quantity item <=? S); split.
  - now rewrite lookup_insert_eq.
  - intros pid' Hne. now rewrite lookup_insert_ne.
  - now rewrite Hp; simpl; rewrite Hs.
  - reflexivity.
Qed.

Lemma stock_update_color item t cid c S :
  Req.colorId item = Some cid -> cid <> 0 ->
  product_colors t !! cid = Some c ->
  Color.product_id c = Req.productId item -> Color.stock c = Some S ->
  products (stock_update item t) = products t
  /\ Color.stock <$> product_colors (stock_update item t) !! cid =
       Some (Some (if Req.quantity item <=? S then S - Req.quantity item else S))
  /\ forall cid', cid' <> cid ->
       product_colors (stock_update item t) !! cid' = product_colors t !! cid'.
Proof.
  intros Hid Hnz Hc Hp Hs. unfold stock_update, truthy_id. rewrite Hid.
  destruct (Z.eqb_spec cid 0) as [-> | _]; [contradiction | simpl].
  rewrite (update_color_stock_spec _ _ _ _ c S Hc Hp Hs).
  split; [reflexivity |].
  destruct (Req.quantity item <=? S); split.
  - now rewrite lookup_insert_eq.
  - intros cid' Hne. now rewrite lookup_insert_ne.
  - now rewrite Hc; simpl; rewrite Hs.
  - reflexivity.
Qed.





(** Whether the broadcast returns: it does when none of the emissions
    throws, and throws when one of them does. *)
Lemma emit_loop_result (n : Notification.t) sockets : forall e w r w',
  for_each (fun socketId => emit socketId n) sockets e w = (r, w') ->
  ((forall j, (j < length sockets)%nat -> emit_throws e (emits w + j) = false) ->
     r = Ok tt)
  /\ (forall j, (j < length sockets)%nat -> emit_throws e (emits w + j) = true ->
        exists msg, r = Throw msg).
Proof.
  induction sockets as [| s sockets IH]; intros e w r w' Hrun.
  - simpl in Hrun. injection Hrun as <- <-. split; [reflexivity |].
    intros j Hj. simpl in Hj. lia.
  - simpl in Hrun. unfold mbind, M_bind, bind in Hrun. unfold emit at 1 in Hrun.
    destruct (emit_throws e (emits w)) eqn:F.
    + injection Hrun as <- <-. split; [| eauto].
      intros Hall. specialize (Hall O ltac:(simpl; lia)).
      rewrite Nat.add_0_r, F in Hall. discriminate.
    + apply IH in Hrun. simpl in Hrun. destruct Hrun as (Hok & Hthrow). split.
      * intros Hall. apply Hok. intros j Hj.
        replace (S (emits w + j)) with (emits w + S j)%nat by lia.
        apply Hall. simpl. lia.
      * intros [| j] Hj Hf; [rewrite Nat.add_0_r, F in Hf; discriminate |].
        apply (Hthrow j); [simpl in Hj; lia |].
        now replace (S (emits w + j)) with (emits w + S j)%nat by lia.
Qed.

Lemma notify_new_order_result `{Js.Builtins} oid notice e w r w' o sockets :
  notify_new_order oid notice e w = (r, w') ->
  faulty e (calls w) = false ->
  orders (committed w) !! oid = Some o ->
  channel e = Some sockets ->
  ((forall j, (j < length sockets)%nat -> emit_throws e (emits w + j) = false) ->
     r = Ok tt)
  /\ (forall j, (j < length sockets)%nat -> emit_throws e (emits w + j) = true ->
        exists msg, r = Throw msg).
Proof.
  unfold notify_new_order, mbind, M_bind, bind, select, datastore.
  intros Hrun F Ho Hch. rewrite F in Hrun. simpl in Hrun. rewrite Ho, Hch in Hrun.
  unfold NotificationService.notifyAdmins, mbind, M_bind, bind in Hrun.
  simpl in Hrun. apply emit_loop_result in Hrun. exact Hrun.
Qed.

(** *** The claims about order creation *)

Lemma refusal_none b :
  refusal b = None <->
  no_items (Req.items b) = false
  /\ (Js.is_str (Req.order_source b) "whatsapp" = true \/ missing_customer b = false).
Proof.
  unfold refusal.
  destruct (no_items (Req.items b)), (Js.is_str (Req.order_source b) "whatsapp"),
    (missing_customer b); simpl; split; try discriminate; try tauto;
    intros [? [? | ?]]; discriminate.
Qed.

Lemma refusal_some b r0 :
  refusal b = Some r0 -> Http.code r0 = 400.
Proof.
  unfold refusal.
  destruct (no_items (Req.items b)); [intros [= <-]; reflexivity |].
  destruct (negb _ && _); [intros [= <-]; reflexivity | discriminate].
Qed.

(** The creation routes never write to the stock tables for a WhatsApp
    order. *)
Lemma whatsapp_run_keeps_stock `{Js.Builtins} refusal mkrow notice msg items e w :
  let run := guarded refusal (transaction mkrow true notice msg items) e w in
  products (committed run.2) = products (committed w)
  /\ product_colors (committed run.2) = product_colors (committed w).
Proof.
  intros run.
  destruct (guarded_cases refusal mkrow true notice msg items e w)
    as [(_ & _ & Hc) | [(_ & _ & Hc) | [(_ & _ & _ & Hc & _) | (_ & _ & _ & Hc & _)]]];
    fold run in Hc; rewrite Hc; try (split; reflexivity).
  apply created_whatsapp_stock.
Qed.

(** A run in which no datastore call fails, on a body that passes the
    validation and with a free key, commits. *)
Lemma no_fault_run `{Js.Builtins} refusal mkrow isWA notice msg items e w :
  refusal = None ->
  orders (committed w) !! auto_increment w = None ->
  (forall n, faulty e n = false) ->
  let run := guarded refusal (transaction mkrow isWA notice msg items) e w in
  committed run.2 = created mkrow isWA items (auto_increment w) (committed w)
  /\ exists w4 rn wn,
       notify_new_order (auto_increment w) notice e w4 = (rn, wn)
       /\ committed w4 = committed run.2
       /\ emits w4 = emits w
       /\ run.1 = match rn with
                  | Ok _ => Http.json 201 (Http.OrderCreated msg (auto_increment w))
                  | Throw m => Http.json 500 (Http.Error "Server error" m)
                  end.
Proof.
  intros Hnone Hfresh Hcalm run.
  destruct (guarded_cases refusal mkrow isWA notice msg items e w)
    as [(F & _) | [(_ & Hr & _) | [(_ & _ & _ & _ & Hwhy) | (_ & _ & _ & Hc & Hn)]]].
  - rewrite Hcalm in F. discriminate.
  - rewrite Hnone in Hr. discriminate.
  - destruct Hwhy as [(n & _ & F) | Hdup]; [rewrite Hcalm in F; discriminate | contradiction].
  - split; [exact Hc |].
    destruct Hn as (w4 & rn & wn & Hn & Hc4 & _ & He & Hr). eauto 10.
Qed.

(** C1 as stated fails: an item that names a colour of another product
    is accepted (201) and decrements nothing, although its quantity does
    not exceed the stock of that colour. *)
Lemma colour_of_another_product_is_not_decremented :
  (post_orders (H := Js.numeric_builtins) MoreSamples.stray_order calm start).1 =
    Http.json 201 (Http.OrderCreated "Order created successfully" 1)
  /\ Color.stock <$> product_colors (committed start) !! 7 = Some (Some 1)
  /\ Color.stock <$>
       product_colors
         (committed (post_orders (H := Js.numeric_builtins)
                       MoreSamples.stray_order calm start).2) !! 7 = Some (Some 1)
  /\ products (committed (post_orders (H := Js.numeric_builtins)
                            MoreSamples.stray_order calm start).2)
     = products (committed start).
Proof. vm_compute. repeat split; reflexivity. Qed.

(** C1, amended.  Stock changes if and only if the order is not
    WhatsApp-sourced: (1) a request flagged ['whatsapp'] on [POST /], and
    any request on [POST /whatsapp], leaves [products] and
    [product_colors] as they were; (2) a regular order that passes the
    validation and whose statements all run is answered 201 and leaves the
    stock tables as the items' stock statements, run in order, make them;
    (3) the statement of an item with quantity [q] and no colour (or the
    colour id zero) targets the product row, and with prior stock [S]
    leaves [S - q] when [q <= S] and the tables as they are when [q > S],
    no other row changing; (4) with a colour id other than zero it targets
    the row of that colour when the colour belongs to the item's product,
    with the same outcome on its stock, no other row changing; (5) when
    the colour does not exist or belongs to another product, nothing
    changes.  No error is raised in any of these cases. *)
Theorem stock_decrement_iff_regular_order `{Js.Builtins} (b : Req.body) (e : env)
    (w : world) :
  (Js.is_str (Req.order_source b) "whatsapp" = true ->
     products (committed (post_orders b e w).2) = products (committed w)
     /\ product_colors (committed (post_orders b e w).2) = product_colors (committed w))
  /\ (products (committed (post_orders_whatsapp b e w).2) = products (committed w)
      /\ product_colors (committed (post_orders_whatsapp b e w).2) =
           product_colors (committed w))
  /\ (Js.is_str (Req.order_source b) "whatsapp" = false ->
      no_items (Req.items b) = false -> missing_customer b = false ->
      orders (committed w) !! auto_increment w = None ->
      (forall n, faulty e n = false) -> (forall n, emit_throws e n = false) ->
      (post_orders b e w).1 =
        Http.json 201 (Http.OrderCreated "Order created successfully" (auto_increment w))
      /\ products (committed (post_orders b e w).2) =
           products (fold_left (fun t i => stock_update i t) (default [] (Req.items b))
                               (committed w))
      /\ product_colors (committed (post_orders b e w).2) =
           product_colors (fold_left (fun t i => stock_update i t)
                                     (default [] (Req.items b)) (committed w)))
  /\ (forall (item : Req.item) (t : tables) (S : Z),
        let q := Req.quantity item in
        (forall p,
           truthy_id (Req.colorId item) = false ->
           products t !! Req.productId item = Some p -> Product.stock p = Some S ->
           product_colors (stock_update item t) = product_colors t
           /\ (q <= S ->
               Product.stock <$> products (stock_update item t) !! Req.productId item =
                 Some (Some (S - q)))
           /\ (q > S -> stock_update item t = t)
           /\ (forall pid', pid' <> Req.productId item ->
                 products (stock_update item t) !! pid' = products t !! pid'))
        /\ (forall cid c,
              Req.colorId item = Some cid -> cid <> 0 ->
              product_colors t !! cid = Some c ->
              Color.product_id c = Req.productId item -> Color.stock c = Some S ->
              products (stock_update item t) = products t
              /\ (q <= S ->
                  Color.stock <$> product_colors (stock_update item t) !! cid =
                    Some (Some (S - q)))
              /\ (q > S -> stock_update item t = t)
              /\ (forall cid', cid' <> cid ->
                    product_colors (stock_update item t) !! cid' =
                      product_colors t !! cid'))
        /\ (forall cid,
              Req.colorId item = Some cid -> cid <> 0 ->
              (product_colors t !! cid = None
               \/ exists c, product_colors t !! cid = Some c
                            /\ Color.product_id c <> Req.productId item) ->
              stock_update item t = t)).
Proof.
  refine (conj _ (conj _ (conj _ _))).
  - intros Hwa. rewrite post_orders_guarded, Hwa. apply whatsapp_run_keeps_stock.
  - rewrite post_orders_whatsapp_guarded. apply whatsapp_run_keeps_stock.
  - intros Hwa Hitems Hcust Hfresh Hcalm Hquiet.
    rewrite post_orders_guarded, Hwa.
    assert (Hnone : refusal b = None) by (apply refusal_none; auto).
    destruct (no_fault_run (refusal b) (new_order_row e false b) false (order_notice false)
                "Order created successfully" (default [] (Req.items b)) e w
                Hnone Hfresh Hcalm) as (Hc & w4 & rn & wn & Hn & _ & _ & Hr).
    rewrite Hc, Hr.
    apply notify_new_order_spec in Hn. destruct Hn as (_ & _ & _ & Hok & _).
    rewrite (Hok (Hcalm _) (or_intror Hquiet)).
    split; [reflexivity | apply created_stock].
  - intros item t S q. refine (conj _ (conj _ _)).
    + intros p Hc Hp Hs.
      destruct (stock_update_product item t p S Hc Hp Hs) as (Hcol & Hst & Hframe).
      refine (conj Hcol (conj _ (conj _ Hframe))).
      * intros Hle. rewrite Hst. fold q.
        destruct (Z.leb_spec q S); [reflexivity | lia].
      * intros Hgt. unfold stock_update. rewrite Hc. unfold with_products.
        rewrite (update_product_stock_spec _ _ _ p S Hp Hs). fold q.
        destruct (Z.leb_spec q S); [lia | now destruct t].
    + intros cid c Hid Hnz Hc Hp Hs.
      destruct (stock_update_color item t cid c S Hid Hnz Hc Hp Hs) as (Hprod & Hst & Hframe).
      refine (conj Hprod (conj _ (conj _ Hframe))).
      * intros Hle. rewrite Hst. fold q.
        destruct (Z.leb_spec q S); [reflexivity | lia].
      * intros Hgt. unfold stock_update, truthy_id. rewrite Hid.
        destruct (Z.eqb_spec cid 0) as [-> | _]; [contradiction | simpl].
        unfold with_product_colors.
        rewrite (update_color_stock_spec _ _ _ _ c S Hc Hp Hs). fold q.
        destruct (Z.leb_spec q S); [lia | now destruct t].
    + intros cid Hid Hnz Hstray. unfold stock_update, truthy_id. rewrite Hid.
      destruct (Z.eqb_spec cid 0) as [-> | _]; [contradiction | simpl].
      unfold with_product_colors, update_color_stock.
      destruct Hstray as [-> | (c & -> & Hne)]; [now destruct t |].
      destruct (Color.stock c); [| now destruct t].
      apply Z.eqb_neq in Hne. rewrite Hne. simpl. now destruct t.
Qed.

Lemma stock_decrement_iff_regular_order_witness :
  (post_orders (H := Js.numeric_builtins) web_order calm start).1 =
    Http.json 201 (Http.OrderCreated "Order created successfully" 1)
  /\ Product.stock <$>
       products (committed (post_orders (H := Js.numeric_builtins) web_order calm start).2)
         !! 1 = Some (Some 2)
  /\ Color.stock <$>
       product_colors
         (committed (post_orders (H := Js.numeric_builtins) web_order calm start).2)
         !! 7 = Some (Some 0).
Proof.
  destruct (stock_decrement_iff_regular_order (H := Js.numeric_builtins) web_order calm start)
    as (_ & _ & H & _).
  destruct H as (H1 & H2 & H3); try reflexivity.
  split; [exact H1 |]. rewrite H2, H3. split; reflexivity.
Defined.




(** C7 as stated fails on [POST /whatsapp]: a name sent with the cart is
    stored as the customer name of the WhatsApp order. *)
Lemma whatsapp_route_stores_supplied_name :
  (Order.name <$>
     orders (committed (post_orders_whatsapp (H := Js.numeric_builtins)
                          named_whatsapp_order calm start).2) !! 1)
    = Some (Js.Str "Amina")
  /\ (Order.order_source <$>
        orders (committed (post_orders_whatsapp (H := Js.numeric_builtins)
                             named_whatsapp_order calm start).2) !! 1)
       = Some (Js.Str "whatsapp").
Proof. vm_compute. split; reflexivity. Qed.

(** C7, amended.  For a request with items that the datastore carries
    out: (1) on [POST /] with [order_source = 'whatsapp'] the inserted row
    has the four placeholder strings as name, phone, address and notes,
    whatever the body supplied, and source ['whatsapp']; (2) on
    [POST /whatsapp] the inserted row has source ['whatsapp'] and, field by
    field, the supplied value when it is truthy and the placeholder
    otherwise; (3) a valid web order is inserted with source ['website'] and
    exactly one item row per input item, in order. *)
Theorem customer_fields_and_source `{Js.Builtins} (b : Req.body) (e : env) (w : world) :
  let k := auto_increment w in
  let items := default [] (Req.items b) in
  no_items (Req.items b) = false ->
  orders (committed w) !! k = None ->
  (forall n, faulty e n = false) ->
  (Js.is_str (Req.order_source b) "whatsapp" = true ->
     exists o,
       orders (committed (post_orders b e w).2) !! k = Some o
       /\ Order.name o = Js.Str "WhatsApp Order"
       /\ Order.phone o = Js.Str "WhatsApp"
       /\ Order.address o = Js.Str "To be provided via WhatsApp"
       /\ Order.notes o = Js.Str "Customer will provide details via WhatsApp"
       /\ Order.order_source o = Js.Str "whatsapp")
  /\ (exists o,
        orders (committed (post_orders_whatsapp b e w).2) !! k = Some o
        /\ Order.name o = Js.or_else (Req.name b) (Js.Str "WhatsApp Order")
        /\ Order.phone o = Js.or_else (Req.phone b) (Js.Str "WhatsApp")
        /\ Order.address o =
             Js.or_else (Req.address b) (Js.Str "To be provided via WhatsApp")
        /\ Order.notes o =
             Js.or_else (Req.notes b) (Js.Str "Customer will provide details via WhatsApp")
        /\ Order.order_source o = Js.Str "whatsapp")
  /\ (Js.is_str (Req.order_source b) "whatsapp" = false ->
      missing_customer b = false ->
      (exists o,
         orders (committed (post_orders b e w).2) !! k = Some o
         /\ Order.order_source o = Js.Str "website")
      /\ order_items (committed (post_orders b e w).2) =
           (order_items (committed w) ++ map (item_row k) items)%list
      /\ length (order_items (committed (post_orders b e w).2)) =
           (length (order_items (committed w)) + length items)%nat).
Proof.
  intros k items Hitems Hfresh Hcalm.
  refine (conj _ (conj _ _)).
  - intros Hwa. rewrite post_orders_guarded, Hwa.
    assert (Hnone : refusal b = None) by (apply refusal_none; auto).
    destruct (no_fault_run (refusal b) (new_order_row e true b) true (order_notice true)
                "Order created successfully" items e w Hnone Hfresh Hcalm) as (Hc & _).
    fold items. rewrite Hc, created_orders, lookup_insert_eq.
    eexists. split; [reflexivity |]. split_and!; reflexivity.
  - rewrite post_orders_whatsapp_guarded.
    assert (Hnone : refusal_whatsapp b = None) by (unfold refusal_whatsapp; now rewrite Hitems).
    destruct (no_fault_run (refusal_whatsapp b) (new_whatsapp_row e b) true whatsapp_notice
                "WhatsApp order created successfully" items e w Hnone Hfresh Hcalm)
      as (Hc & _).
    fold items. rewrite Hc, created_orders, lookup_insert_eq.
    eexists. split; [reflexivity |]. split_and!; reflexivity.
  - intros Hwa Hcust. rewrite post_orders_guarded, Hwa.
    assert (Hnone : refusal b = None) by (apply refusal_none; auto).
    destruct (no_fault_run (refusal b) (new_order_row e false b) false (order_notice false)
                "Order created successfully" items e w Hnone Hfresh Hcalm) as (Hc & _).
    fold items. rewrite Hc, created_orders, created_order_items, lookup_insert_eq.
    split_and!.
    + eexists. split; reflexivity.
    + reflexivity.
    + now rewrite length_app, length_map.
Qed.

Lemma customer_fields_and_source_witness :
  (exists o,
     orders (committed (post_orders (H := Js.numeric_builtins) web_order calm start).2) !! 1
       = Some o
     /\ Order.order_source o = Js.Str "website")
  /\ length (order_items
               (committed (post_orders (H := Js.numeric_builtins) web_order calm start).2))
     = 2%nat.
Proof.
  destruct (customer_fields_and_source (H := Js.numeric_builtins) web_order calm start)
    as (_ & _ & H); try reflexivity.
  destruct H as (H1 & _ & H3); try reflexivity.
  split; [exact H1 | exact H3].
Defined.

(** C8 as stated fails: with every datastore call passing and the
    emission to the connected admin throwing, the caller of a committed
    creation receives 500, not 201. *)
Lemma emission_failure_changes_the_response :
  Http.code (post_orders (H := Js.numeric_builtins) web_order emit_fails start).1 = 500
  /\ (Order.id <$>
        orders (committed (post_orders (H := Js.numeric_builtins)
                             web_order emit_fails start).2) !! 1) = Some 1
  /\ (post_orders (H := Js.numeric_builtins) web_order calm start).1 =
       Http.json 201 (Http.OrderCreated "Order created successfully" 1).
Proof. vm_compute. repeat split; reflexivity. Qed.

(** C8, amended.  For a creation on [POST /] whose datastore calls all
    pass (so that it commits): (1) when no channel is registered, or none
    of the emissions to the registered sockets throws, the caller receives
    201 with the new order id; (2) when any of the emissions to the
    registered sockets throws, the first one or a later one, the exception
    is not swallowed: the caller receives 500 while the order stays
    committed. *)
Theorem response_after_commit `{Js.Builtins} (b : Req.body) (e : env) (w : world) :
  let k := auto_increment w in
  let isWA := Js.is_str (Req.order_source b) "whatsapp" in
  no_items (Req.items b) = false ->
  (isWA = true \/ missing_customer b = false) ->
  orders (committed w) !! k = None ->
  (forall n, faulty e n = false) ->
  ((channel e = None
    \/ (forall n, emit_throws e n = false)
    \/ (exists sockets,
          channel e = Some sockets
          /\ forall j, (j < length sockets)%nat -> emit_throws e (emits w + j) = false)) ->
     (post_orders b e w).1 =
       Http.json 201 (Http.OrderCreated "Order created successfully" k))
  /\ (forall sockets j,
        channel e = Some sockets ->
        (j < length sockets)%nat ->
        emit_throws e (emits w + j) = true ->
        Http.code (post_orders b e w).1 = 500
        /\ orders (committed (post_orders b e w).2) !! k = Some (new_order_row e isWA b k)).
Proof.
  intros k isWA Hitems Hcust Hfresh Hcalm.
  rewrite post_orders_guarded. fold isWA.
  assert (Hnone : refusal b = None) by (apply refusal_none; auto).
  destruct (no_fault_run (refusal b) (new_order_row e isWA b) isWA (order_notice isWA)
              "Order created successfully" (default [] (Req.items b)) e w
              Hnone Hfresh Hcalm) as (Hc & w4 & rn & wn & Hn & Hc4 & He & Hr).
  fold k in Hc, Hn, Hr.
  assert (Hrow : orders (committed w4) !! k = Some (new_order_row e isWA b k))
    by (rewrite Hc4, Hc, created_orders; apply lookup_insert_eq).
  pose proof (fun sockets Hch =>
                notify_new_order_result _ _ _ _ _ _ _ sockets Hn (Hcalm _) Hrow Hch)
    as Hresult.
  apply notify_new_order_spec in Hn.
  destruct Hn as (_ & _ & _ & Hok & _).
  split.
  - intros [Hnone' | [Hall | (sockets & Hch & Hall)]].
    + rewrite Hr, (Hok (Hcalm _) (or_introl Hnone')). reflexivity.
    + rewrite Hr, (Hok (Hcalm _) (or_intror Hall)). reflexivity.
    + rewrite He in Hresult. destruct (Hresult sockets Hch) as (Hret & _).
      rewrite Hr, (Hret Hall). reflexivity.
  - intros sockets j Hch Hj Hemit.
    rewrite He in Hresult. destruct (Hresult sockets Hch) as (_ & Hthrow).
    destruct (Hthrow j Hj Hemit) as (m & ->).
    rewrite Hr. split; [reflexivity |].
    rewrite Hc, created_orders. apply lookup_insert_eq.
Qed.

Lemma response_after_commit_witness :
  (post_orders (H := Js.numeric_builtins) web_order calm start).1 =
    Http.json 201 (Http.OrderCreated "Order created successfully" 1)
  /\ Http.code (post_orders (H := Js.numeric_builtins) web_order
                  MoreSamples.second_emit_fails start).1 = 500.
Proof.
  split.
  - refine (proj1 (response_after_commit (H := Js.numeric_builtins) web_order calm start
                     _ _ _ _) _).
    + reflexivity.
    + right. reflexivity.
    + reflexivity.
    + reflexivity.
    + right. left. reflexivity.
  - refine (proj1 (proj2 (response_after_commit (H := Js.numeric_builtins) web_order
                            MoreSamples.second_emit_fails start _ _ _ _)
                     ["admin-1"; "admin-2"] 1%nat _ _ _)).
    + reflexivity.
    + right. reflexivity.
    + reflexivity.
    + reflexivity.
    + reflexivity.
    + simpl. lia.
    + reflexivity.
Defined.

End OrderFacts.

(** ** The export query *)

Module QueryFacts.
Import ExportQuery.

Lemma insert_desc_perm o l : Permutation (insert_desc o l) (o :: l).
Proof.
  induction l as [| x l IH]; simpl; [reflexivity |].
  destruct (Order.order_date x <=? Order.order_date o); [reflexivity |].
  rewrite IH. apply perm_swap.
Qed.

Lemma order_by_date_desc_perm l : Permutation (order_by_date_desc l) l.
Proof.
  induction l as [| x l IH]; simpl; [reflexivity |].
  unfold order_by_date_desc in *. simpl. rewrite insert_desc_perm. now constructor.
Qed.

Lemma insert_desc_hd o x l :
  newer_or_same x o -> HdRel newer_or_same x l -> HdRel newer_or_same x (insert_desc o l).
Proof.
  intros Hxo Hhd. destruct l as [| y l]; simpl; [now constructor |].
  destruct (Order.order_date y <=? Order.order_date o); constructor; [exact Hxo |].
  now inversion Hhd.
Qed.

Lemma insert_desc_sorted o l :
  Sorted newer_or_same l -> Sorted newer_or_same (insert_desc o l).
Proof.
  induction 1 as [| x l Hs IH Hhd]; simpl.
  - repeat constructor.
  - destruct (Z.leb_spec (Order.order_date x) (Order.order_date o)) as [Hle | Hlt].
    + constructor; [now constructor | constructor; exact Hle].
    + constructor; [exact IH |].
      apply insert_desc_hd; [unfold newer_or_same; lia | exact Hhd].
Qed.

Lemma order_by_date_desc_sorted l : Sorted newer_or_same (order_by_date_desc l).
Proof.
  induction l as [| x l IH]; [constructor |].
  unfold order_by_date_desc in *. simpl. now apply insert_desc_sorted.
Qed.

Lemma newer_or_same_trans : Relations_1.Transitive newer_or_same.
Proof. intros a b c. unfold newer_or_same. lia. Qed.

(** The four groups of clauses, one filter each. *)
Lemma id_clause_spec (v : id_param) o :
  forallb (fun c => holds c o) (if given_id v then [IdEq (id_value v)] else []) = true
  <-> (forall n, v = IdNumber n -> n <> 0 -> Order.id o = n)
      /\ (forall n, v = IdText n -> Order.id o = n).
Proof.
  destruct v as [| n | | n]; simpl.
  - split; [intros _; split; intros n Hn; discriminate | reflexivity].
  - destruct (Z.eqb_spec n 0) as [-> | Hnz]; simpl.
    + split; [| reflexivity]. intros _. split.
      * intros n [= <-] Hn. now contradiction Hn.
      * intros n Hn. discriminate.
    + rewrite andb_true_r, Z.eqb_eq. split.
      * intros ->. split; [intros n' [= <-] _; reflexivity | intros n' Hn; discriminate].
      * intros [Hn _]. now apply Hn.
  - split; [intros _; split; intros n Hn; discriminate | reflexivity].
  - rewrite andb_true_r, Z.eqb_eq. split.
    + intros ->. split; [intros n' Hn; discriminate | intros n' [= <-]; reflexivity].
    + intros [_ Hn]. now apply Hn.
Qed.

Lemma is_str_spec v s : Js.is_str v s = true <-> v = Js.Str s.
Proof.
  destruct v as [| | x | s']; simpl; try (split; [discriminate | discriminate]).
  rewrite String.eqb_eq. split; [now intros -> | now intros [= ->]].
Qed.

Lemma status_clause_spec (v : option string) o :
  forallb (fun c => holds c o)
          (if given_str v && negb (String.eqb (default "" v) "all")
           then [StatusEq (default "" v)] else []) = true
  <-> (forall s, v = Some s -> s <> "" -> s <> "all" -> Order.status o = Js.Str s).
Proof.
  destruct v as [s |]; simpl.
  - destruct (String.eqb_spec s "") as [-> | Hne]; simpl.
    + split; [intros _ s [= <-] Hs; now contradiction Hs | reflexivity].
    + destruct (String.eqb_spec s "all") as [-> | Hna]; simpl.
      * split; [intros _ s [= <-] _ Hs; now contradiction Hs | reflexivity].
      * rewrite andb_true_r, is_str_spec. split.
        -- intros -> s' [= <-] _ _. reflexivity.
        -- intros Hs. now apply Hs.
  - split; [intros _ s Hs; discriminate | reflexivity].
Qed.

Lemma start_clause_spec (v : option Z) o :
  forallb (fun c => holds c o)
          (match v with
           | Some d => [OrderDateGe {| day := d; hh := 0; mm := 0; ss := 0 |}]
           | None => []
           end) = true
  <-> (forall d, v = Some d ->
         instant {| day := d; hh := 0; mm := 0; ss := 0 |} <= Order.order_date o).
Proof.
  destruct v as [d |]; simpl.
  - rewrite andb_true_r, Z.leb_le. split.
    + intros Hle d' [= <-]. exact Hle.
    + intros Hd. now apply Hd.
  - split; [intros _ d Hd; discriminate | reflexivity].
Qed.

Lemma end_clause_spec (v : option Z) o :
  forallb (fun c => holds c o)
          (match v with
           | Some d => [OrderDateLe {| day := d; hh := 23; mm := 59; ss := 59 |}]
           | None => []
           end) = true
  <-> (forall d, v = Some d ->
         Order.order_date o <= instant {| day := d; hh := 23; mm := 59; ss := 59 |}).
Proof.
  destruct v as [d |]; simpl.
  - rewrite andb_true_r, Z.leb_le. split.
    + intros Hle d' [= <-]. exact Hle.
    + intros Hd. now apply Hd.
  - split; [intros _ d Hd; discriminate | reflexivity].
Qed.

Lemma where_spec f o :
  where_ (whereClauses f) o = true
  <-> (forall n, orderId f = IdNumber n -> n <> 0 -> Order.id o = n)
      /\ (forall n, orderId f = IdText n -> Order.id o = n)
      /\ (forall s, status f = Some s -> s <> "" -> s <> "all" ->
            Order.status o = Js.Str s)
      /\ (forall d, startDate f = Some d ->
            instant {| day := d; hh := 0; mm := 0; ss := 0 |} <= Order.order_date o)
      /\ (forall d, endDate f = Some d ->
            Order.order_date o <= instant {| day := d; hh := 23; mm := 59; ss := 59 |}).
Proof.
  unfold where_, whereClauses.
  rewrite !forallb_app, !andb_true_iff.
  rewrite id_clause_spec, status_clause_spec, start_clause_spec, end_clause_spec.
  tauto.
Qed.

Lemma rows_spec (t : Store.tables) o :
  In o (rows t) <-> exists k, Store.orders t !! k = Some o.
Proof.
  unfold rows. rewrite <- list_elem_of_In, list_elem_of_fmap. split.
  - intros ([k o'] & -> & Hin). exists k. now apply elem_of_map_to_list in Hin.
  - intros (k & Hk). exists (k, o). split; [reflexivity | now apply elem_of_map_to_list].
Qed.

(** C9 as stated fails: an [orderId] of [0] and a [status] of [''] are
    provided and yet not applied: the export returns the stored order,
    whose id is not [0] and whose status is not ['']. *)
Lemma falsy_filters_are_not_applied :
  select_orders {| orderId := IdNumber 0; status := None;
                   startDate := None; endDate := None |}
                (Store.committed Samples.shop_with_order) = [Samples.open_order]
  /\ Order.id Samples.open_order <> 0
  /\ select_orders {| orderId := IdAbsent; status := Some "";
                      startDate := None; endDate := None |}
                   (Store.committed Samples.shop_with_order) = [Samples.open_order]
  /\ Order.status Samples.open_order <> Js.Str "".
Proof.
  split; [vm_compute; reflexivity |].
  split; [discriminate |].
  split; [vm_compute; reflexivity | discriminate].
Qed.

(** C9, amended.  The orders the export query returns are exactly the
    stored orders that satisfy every filter the handler applies: the id
    equals [orderId] when it is a number other than zero or a non-empty
    string; the status equals [status] when it is given, not empty and not
    ['all']; the order date is at or after [startDate 00:00:00] and at or
    before [endDate 23:59:59] when these are given.  Each such order is
    returned once, and the result is ordered newest first by order date. *)
Theorem export_filters_and_order (f : filters) (t : Store.tables) :
  (forall o,
     In o (select_orders f t) <->
     (exists k, Store.orders t !! k = Some o)
     /\ (forall n, orderId f = IdNumber n -> n <> 0 -> Order.id o = n)
     /\ (forall n, orderId f = IdText n -> Order.id o = n)
     /\ (forall s, status f = Some s -> s <> "" -> s <> "all" ->
           Order.status o = Js.Str s)
     /\ (forall d, startDate f = Some d ->
           instant {| day := d; hh := 0; mm := 0; ss := 0 |} <= Order.order_date o)
     /\ (forall d, endDate f = Some d ->
           Order.order_date o <= instant {| day := d; hh := 23; mm := 59; ss := 59 |}))
  /\ Permutation (select_orders f t)
       (filter (fun o => where_ (whereClauses f) o = true)
               (map_to_list (Store.orders t)).*2)
  /\ StronglySorted (fun a b => Order.order_date a >= Order.order_date b)
       (select_orders f t).
Proof.
  refine (conj _ (conj _ _)).
  - intros o. rewrite <- rows_spec. unfold select_orders.
    rewrite <- !list_elem_of_In.
    rewrite (order_by_date_desc_perm _), list_elem_of_filter, where_spec.
    tauto.
  - apply order_by_date_desc_perm.
  - unfold select_orders.
    pose proof (Sorted_StronglySorted newer_or_same_trans
                  (order_by_date_desc_sorted
                     (filter (fun o => where_ (whereClauses f) o = true) (rows t)))) as Hs.
    revert Hs. generalize (order_by_date_desc
      (filter (fun o => where_ (whereClauses f) o = true) (rows t))).
    induction 1 as [| x l Hs IH Hall]; constructor; [exact IH |].
    eapply Forall_impl; [exact Hall |]. unfold newer_or_same. intros a Ha. lia.
Qed.

Lemma export_filters_and_order_witness :
  In MoreSamples.late_order
     (select_orders {| orderId := IdText 5; status := Some "delivered";
                       startDate := Some 19676; endDate := Some 19676 |}
                    MoreSamples.two_orders)
  /\ ~ In Samples.open_order
         (select_orders {| orderId := IdText 5; status := Some "delivered";
                           startDate := Some 19676; endDate := Some 19676 |}
                        MoreSamples.two_orders).
Proof.
  destruct (export_filters_and_order
              {| orderId := IdText 5; status := Some "delivered";
                 startDate := Some 19676; endDate := Some 19676 |}
              MoreSamples.two_orders) as (Hin & _ & _).
  split.
  - apply Hin. split; [exists 5; reflexivity |].
    refine (conj _ (conj _ (conj _ (conj _ _)))).
    + intros n Hn. discriminate.
    + intros n [= <-]. reflexivity.
    + intros s [= <-] _ _. reflexivity.
    + intros d [= <-]. vm_compute. discriminate.
    + intros d [= <-]. vm_compute. discriminate.
  - intros Habs. apply Hin in Habs as (_ & _ & Hid & _).
    specialize (Hid 5 eq_refl). discriminate.
Defined.


End QueryFacts.

(** ** The renderers *)

Module RenderFacts.
Import Report ReportTotals Samples.

Lemma draw_item_total `{Js.Builtins} l : forall i drawn t,
  (fold_left Pdf.draw_item l (i, drawn, t)).2 =
    fold_left (fun sum i => PrimFloat.add sum (PrimFloat.mul (price_of i) (quantity_of i))) l t.
Proof.
  induction l as [| x l IH]; intros i drawn t; [reflexivity |].
  simpl. apply IH.
Qed.

Lemma add_item_total `{Js.Builtins} l : forall i html t,
  (fold_left Word.add_item l (i, html, t)).2 =
    fold_left (fun sum i => PrimFloat.add sum (PrimFloat.mul (price_of i) (quantity_of i))) l t.
Proof.
  induction l as [| x l IH]; intros i html t; [reflexivity |].
  simpl. apply IH.
Qed.

Lemma pdf_table_total `{Js.Builtins} l : Pdf.total (Pdf.items_table l) = grand_total l.
Proof.
  unfold Pdf.items_table, grand_total. rewrite <- (draw_item_total l O [] 0%float).
  destruct (fold_left Pdf.draw_item l (O, [], 0%float)) as [[i drawn] t]. reflexivity.
Qed.

Lemma word_table_total `{Js.Builtins} l : Word.total (Word.items_table l) = grand_total l.
Proof.
  unfold Word.items_table, grand_total. rewrite <- (add_item_total l O [] 0%float).
  destruct (fold_left Word.add_item l (O, [], 0%float)) as [[i html] t]. reflexivity.
Qed.

Lemma pdf_pages_totals `{Js.Builtins} n orders : forall index ps,
  Pdf.pages n index orders = Rendered ps ->
  pdf_totals ps = map (fun o => option_map grand_total (has_items o)) orders.
Proof.
  induction orders as [| o orders IH]; intros index ps Hps; simpl in Hps.
  - injection Hps as <-. reflexivity.
  - unfold Pdf.order_page in Hps.
    destruct (Pdf.status_badge (Order.status (row o))) as [[text color] | err];
      [| discriminate].
    destruct (Pdf.pages n (S index) orders) as [ps' | err] eqn:Hrest; [| discriminate].
    injection Hps as <-. simpl. rewrite (IH _ _ Hrest). f_equal.
    destruct (has_items o) as [l |]; simpl; [| reflexivity].
    now rewrite pdf_table_total.
Qed.

Lemma word_sections_totals `{Js.Builtins} n orders : forall index,
  word_totals (Word.sections n index orders) =
    map (fun o => option_map grand_total (has_items o)) orders.
Proof.
  induction orders as [| o orders IH]; intros index; [reflexivity |].
  simpl. rewrite IH. f_equal.
  destruct (has_items o) as [l |]; simpl; [| reflexivity].
  now rewrite word_table_total.
Qed.

(** C3 as stated fails for the spreadsheet: its rows carry no total, and
    nothing read off the worksheet can be one, since two reports that
    differ in a price only give the same worksheet and different PDF
    totals. *)
Lemma spreadsheet_reports_no_total :
  ~ exists read : Excel.worksheet -> list (option float),
      forall orders ps,
        Pdf.createPdfExport (H := Js.numeric_builtins) orders = Rendered ps ->
        read (Excel.createExcelExport (H := Js.numeric_builtins) false 0 orders) =
          pdf_totals ps.
Proof.
  intros (read & Hread).
  pose proof (Hread (report_at 10) _ eq_refl) as H10.
  pose proof (Hread (report_at 20) _ eq_refl) as H20.
  change (Excel.createExcelExport (H := Js.numeric_builtins) false 0 (report_at 20))
    with (Excel.createExcelExport (H := Js.numeric_builtins) false 0 (report_at 10)) in H20.
  rewrite H10 in H20.
  apply (f_equal (fun l => match l with
                           | [Some x] => PrimFloat.ltb x 15%float
                           | _ => false
                           end)) in H20.
  vm_compute in H20. discriminate.
Qed.

(** C3, amended.  For the same orders and items, whenever the PDF is
    rendered, the grand total it prints for each order and the one the
    Word document prints are the same number, namely the sum over the
    order's items, in order, of price multiplied by quantity; both print
    none for an order without items.  The spreadsheet prints no total. *)
Theorem pdf_and_word_totals_agree `{Js.Builtins} (orders : list order)
    (ps : list Pdf.page) :
  Pdf.createPdfExport orders = Rendered ps ->
  pdf_totals ps = word_totals (Word.createWordExport orders)
  /\ pdf_totals ps = map (fun o => option_map grand_total (has_items o)) orders.
Proof.
  intros Hps. unfold Pdf.createPdfExport in Hps.
  destruct (Pdf.pages (length orders) O orders) as [ps' | err] eqn:Hpages; [| discriminate].
  injection Hps as <-.
  unfold Word.createWordExport.
  rewrite (pdf_pages_totals _ _ _ _ Hpages), word_sections_totals.
  split; reflexivity.
Qed.

Lemma pdf_and_word_totals_agree_witness :
  exists ps,
    Pdf.createPdfExport (H := Js.numeric_builtins) (report_at 10) = Rendered ps
    /\ pdf_totals ps =
         word_totals (Word.createWordExport (H := Js.numeric_builtins) (report_at 10)).
Proof.
  eexists. split; [reflexivity |].
  apply (pdf_and_word_totals_agree (H := Js.numeric_builtins) (report_at 10)).
  reflexivity.
Defined.

(** *** Status labels *)

Lemma own_absent {A} (obj : list (string * A)) key :
  ~ In key (map fst obj) -> JsObject.own obj key = None.
Proof.
  induction obj as [| [k a] obj IH]; intros Hnot; [reflexivity |].
  simpl in *. destruct (String.eqb_spec k key) as [-> | Hne]; [tauto |].
  apply IH. tauto.
Qed.

Lemma get_absent {A} (obj : list (string * A)) key :
  ~ In key (map fst obj) -> ~ In key JsObject.prototype_keys ->
  JsObject.get obj key = JsObject.Absent.
Proof.
  intros Hown Hproto. unfold JsObject.get. rewrite (own_absent _ _ Hown).
  destruct (existsb (String.eqb key) JsObject.prototype_keys) eqn:E; [| reflexivity].
  apply existsb_exists in E. destruct E as (k & Hin & Heq).
  apply String.eqb_eq in Heq. subst k. contradiction.
Qed.

(** For the four statuses and for a missing one, the three renderers
    print the label of the table. *)
Lemma status_labels_on_known_values `{Js.Builtins} :
  Forall
    (fun '(st, label) =>
       Excel.status_cell st = Excel.Text label
       /\ (exists color, Pdf.status_badge st = Rendered (Js.Str label, color))
       /\ fst (Word.status_span st) = label)
    [ (Js.Str "pending", "En attente"); (Js.Str "confirmed", "Confirmée");
      (Js.Str "delivered", "Livrée"); (Js.Str "cancelled", "Annulée");
      (Js.Null, "En attente"); (Js.Undefined, "En attente"); (Js.Str "", "En attente") ].
Proof.
  repeat (apply List.Forall_cons;
          [split_and!; [reflexivity | eexists; reflexivity | reflexivity] |]).
  apply List.Forall_nil.
Qed.

(** The PDF of a list of orders fails as soon as one page does. *)
Lemma pdf_pages_fail `{Js.Builtins} n o orders : forall index,
  In o orders ->
  (exists err, Pdf.status_badge (Order.status (row o)) = Failed err) ->
  exists err, Pdf.pages n index orders = Failed err.
Proof.
  induction orders as [| x orders IH]; intros index Hin Hbad; [contradiction |].
  simpl. destruct Hin as [-> | Hin].
  - unfold Pdf.order_page. destruct Hbad as (err & ->). eauto.
  - destruct (Pdf.order_page n index x); [| eauto].
    destruct (IH (S index) Hin Hbad) as (err & ->). eauto.
Qed.

(** The fallback of the table, renderer by renderer.  On a status that is
    a non-empty string, none of the four of the table and no property name
    of [Object.prototype]: the spreadsheet and the Word document print the
    fallback ['En attente'], and the PDF renderer, which reads [.text] of
    a missing table entry, throws, so that the export of a list that holds
    such an order ends in the renderer's error response. *)
Theorem pdf_has_no_fallback_label `{Js.Builtins} (s : string) :
  s <> "" ->
  ~ In s ["pending"; "confirmed"; "delivered"; "cancelled"] ->
  ~ In s JsObject.prototype_keys ->
  Excel.status_cell (Js.Str s) = Excel.Text "En attente"
  /\ Word.status_span (Js.Str s) = ("En attente", "status-pending")
  /\ (exists err, Pdf.status_badge (Js.Str s) = Failed err)
  /\ forall o orders,
       In o orders -> Order.status (row o) = Js.Str s ->
       Pdf.createPdfExport orders = Failed "Échec de la génération du fichier PDF"
       /\ exists sec, In sec (Word.createWordExport orders)
                      /\ Word.statusText sec = "En attente".
Proof.
  intros Hne Hknown Hproto.
  assert (Hbadge : exists err, Pdf.status_badge (Js.Str s) = Failed err).
  { unfold Pdf.status_badge, Js.or_else. simpl.
    destruct (String.eqb_spec s "") as [-> | _]; [contradiction | simpl].
    rewrite get_absent; [eauto | exact Hknown | exact Hproto]. }
  assert (Hword : Word.status_span (Js.Str s) = ("En attente", "status-pending")).
  { unfold Word.status_span. simpl.
    destruct (String.eqb_spec s "confirmed") as [-> | _]; [simpl in Hknown; tauto |].
    destruct (String.eqb_spec s "delivered") as [-> | _]; [simpl in Hknown; tauto |].
    destruct (String.eqb_spec s "cancelled") as [-> | _]; [simpl in Hknown; tauto |].
    reflexivity. }
  split_and!.
  - unfold Excel.status_cell. simpl.
    rewrite get_absent; [reflexivity | exact Hknown | exact Hproto].
  - exact Hword.
  - exact Hbadge.
  - intros o orders Hin Hst. split.
    + unfold Pdf.createPdfExport.
      destruct (pdf_pages_fail (length orders) o orders O Hin) as (err & ->);
        [rewrite Hst; exact Hbadge | reflexivity].
    + unfold Word.createWordExport. generalize (length orders) O.
      induction orders as [| x orders IH]; intros n index; [contradiction |].
      destruct Hin as [-> | Hin]; simpl.
      * eexists. split; [left; reflexivity |]. simpl. now rewrite Hst, Hword.
      * destruct (IH Hin n (S index)) as (sec & Hsec & Htext). eauto.
Qed.

Lemma pdf_has_no_fallback_label_witness :
  Pdf.createPdfExport (H := Js.numeric_builtins) [shipped_order] =
    Failed "Échec de la génération du fichier PDF"
  /\ Excel.status_cell (H := Js.numeric_builtins) (Js.Str "shipped") =
       Excel.Text "En attente".
Proof.
  assert (H1 : "shipped" <> "") by discriminate.
  assert (H2 : ~ In "shipped" ["pending"; "confirmed"; "delivered"; "cancelled"])
    by (simpl; intuition discriminate).
  assert (H3 : ~ In "shipped" JsObject.prototype_keys)
    by (simpl; intuition discriminate).
  destruct (pdf_has_no_fallback_label (H := Js.numeric_builtins) "shipped" H1 H2 H3)
    as (Hx & _ & _ & Hp).
  split; [| exact Hx].
  apply (Hp shipped_order [shipped_order]); [left; reflexivity | reflexivity].
Defined.

End RenderFacts.

Module TokenMore.
Import DownloadTokens PrepareExport.

Lemma verify_frame now tok tok' (reg : registry) :
  tok' <> tok ->
  (verifyDownloadToken now tok reg).2 !! tok' = reg !! tok'.
Proof.
  intros Hne. unfold verifyDownloadToken.
  destruct (reg !! tok) as [fi |]; [| reflexivity].
  destruct (expiresAt fi <? now); simpl; now rewrite lookup_delete_ne.
Qed.

Lemma verify_gone now tok (reg : registry) :
  (verifyDownloadToken now tok reg).2 !! tok = None.
Proof.
  unfold verifyDownloadToken.
  destruct (reg !! tok) as [fi |] eqn:E; [| exact E].
  destruct (expiresAt fi <? now); simpl; apply lookup_delete_eq.
Qed.

Lemma download_temp_subset now ends tok s f :
  f ∈ temp (download now ends tok s).2 -> f ∈ temp s.
Proof.
  unfold download.
  destruct (verifyDownloadToken now tok (tokens s)) as [[fi |] reg]; simpl; [| auto].
  destruct (decide (filename fi ∈ temp s)); simpl; [| auto].
  destruct ends; [intros Hf; apply elem_of_difference in Hf; tauto | auto].
Qed.

(** X1.  A download request, whatever its outcome, touches its own token
    only: after it the token is out of the registry, the entry of every
    other token is as it was, and no file has appeared in the temporary
    directory. *)
Theorem download_touches_its_token_only (now : Z) (ends : bool) (tok : string)
    (s : server) :
  tokens (download now ends tok s).2 !! tok = None
  /\ (forall tok', tok' <> tok ->
        tokens (download now ends tok s).2 !! tok' = tokens s !! tok')
  /\ (forall f, f ∈ temp (download now ends tok s).2 -> f ∈ temp s).
Proof.
  rewrite TokenFacts.download_tokens. split; [apply verify_gone |].
  split; [intros tok' Hne; now apply verify_frame |].
  intros f. apply download_temp_subset.
Qed.

(** X2.  With a registered token whose file is in the temporary
    directory: a download within the time-to-live removes the file
    exactly when the stream reaches its end, and leaves the directory as
    it was when the stream breaks; a download after the time-to-live
    leaves the directory as it was (the file stays) and removes the
    token. *)
Theorem file_removed_only_when_stream_ends (s : server) (now : Z) (ends : bool)
    (tok : string) (fi : fileInfo) :
  tokens s !! tok = Some fi ->
  filename fi ∈ temp s ->
  (now <= expiresAt fi ->
     temp (download now ends tok s).2 =
       if ends then temp s ∖ {[filename fi]} else temp s)
  /\ (expiresAt fi < now ->
        temp (download now ends tok s).2 = temp s
        /\ tokens (download now ends tok s).2 !! tok = None).
Proof.
  intros E Hin. split.
  - intros Hle. now rewrite (TokenFacts.download_live_present now ends tok fi s E Hle Hin).
  - intros Hlt. rewrite (TokenFacts.download_expired now ends tok fi s E Hlt). simpl.
    split; [reflexivity | apply lookup_delete_eq].
Qed.

Lemma file_removed_only_when_stream_ends_witness :
  temp (download 2000 true "k3x9"
          (register_export 1000 "k3x9" "orders_1.pdf" Samples.empty_server).2).2
  = temp (register_export 1000 "k3x9" "orders_1.pdf" Samples.empty_server).2
      ∖ {[ "orders_1.pdf" ]}.
Proof.
  refine (proj1 (file_removed_only_when_stream_ends
                   (register_export 1000 "k3x9" "orders_1.pdf" Samples.empty_server).2
                   2000 true "k3x9"
                   {| filename := "orders_1.pdf"; expiresAt := 1000 + TTL |} _ _) _).
  - apply lookup_insert_eq.
  - simpl. set_solver.
  - simpl. unfold TTL. lia.
Defined.

End TokenMore.

Module NameFacts.
Import DownloadTokens PrepareExport Suffix.

Lemma length_append (a b : string) :
  String.length (String.append a b) = (String.length a + String.length b)%nat.
Proof. induction a as [| c a IH]; simpl; [reflexivity | now rewrite IH]. Qed.

Lemma substring_all (s : string) : String.substring 0 (String.length s) s = s.
Proof. induction s as [| c s IH]; simpl; [reflexivity | now rewrite IH]. Qed.

Lemma substring_skip (p s : string) n :
  String.substring (String.length p) n (String.append p s) = String.substring 0 n s.
Proof. induction p as [| c p IH]; simpl; [reflexivity | exact IH]. Qed.

Lemma endsWith_append (p suffix : string) : Js.endsWith (String.append p suffix) suffix = true.
Proof.
  unfold Js.endsWith. rewrite length_append.
  replace (String.length p + String.length suffix - String.length suffix)%nat
    with (String.length p) by lia.
  rewrite substring_skip, substring_all, String.eqb_refl.
  rewrite andb_true_r. apply Nat.leb_le. lia.
Qed.

Lemma last_char_append (p s : string) :
  s <> "" -> last_char (String.append p s) = last_char s.
Proof.
  intros Hne. induction p as [| c p IH]; [reflexivity |].
  simpl. rewrite IH.
  destruct (String.append p s) eqn:E; [| reflexivity].
  destruct p; simpl in E; [contradiction | discriminate].
Qed.

Lemma substring_split (s : string) : forall n k,
  (n + k = String.length s)%nat ->
  s = String.append (String.substring 0 n s) (String.substring n k s).
Proof.
  induction s as [| c s IH]; intros n k Hlen; simpl in Hlen.
  - destruct n, k; try discriminate. reflexivity.
  - destruct n as [| n]; simpl.
    + destruct k as [| k]; [discriminate |]. injection Hlen as ->.
      simpl. now rewrite substring_all.
    + change (String c s =
              String c (String.append (String.substring 0 n s) (String.substring n k s))).
      f_equal. apply IH. lia.
Qed.

Lemma endsWith_last (s suffix : string) :
  suffix <> "" -> Js.endsWith s suffix = true -> last_char s = last_char suffix.
Proof.
  intros Hne H. unfold Js.endsWith in H. apply andb_true_iff in H. destruct H as [Hle Heq].
  apply Nat.leb_le in Hle. apply String.eqb_eq in Heq.
  rewrite (substring_split s (String.length s - String.length suffix) (String.length suffix))
    by lia.
  rewrite Heq. now apply last_char_append.
Qed.

Lemma endsWith_other_last (p a b : string) :
  a <> "" -> b <> "" -> last_char a <> last_char b ->
  Js.endsWith (String.append p a) b = false.
Proof.
  intros Ha Hb Hne. destruct (Js.endsWith (String.append p a) b) eqn:E; [| reflexivity].
  apply endsWith_last in E; [| exact Hb]. rewrite last_char_append in E by exact Ha.
  contradiction.
Qed.

Lemma append_assoc (a b c : string) :
  String.append (String.append a b) c = String.append a (String.append b c).
Proof.
  induction a as [| x a IH]; [reflexivity |].
  change (String x (String.append (String.append a b) c) =
          String x (String.append a (String.append b c))).
  now rewrite IH.
Qed.

Lemma export_name_append ts rid ext :
  export_name ts rid ext =
    String.append (String.append "orders_" (String.append ts (String.append "_" rid))) ext.
Proof. unfold export_name. now rewrite !append_assoc. Qed.

(** The MIME type the download route derives from a file name made by
    the deferred export is the one the export announced. *)
Lemma contentType_of_export exportFormat ts rid fname mimeType :
  export_file exportFormat ts rid = Some (fname, mimeType) ->
  contentTypeOf fname = mimeType.
Proof.
  unfold export_file, contentTypeOf.
  destruct (Js.is_str exportFormat "excel").
  { intros [= <- <-]. rewrite export_name_append, endsWith_append. reflexivity. }
  destruct (Js.is_str exportFormat "pdf").
  { intros [= <- <-]. rewrite export_name_append.
    rewrite (endsWith_other_last _ ".pdf" ".xlsx") by (simpl; congruence).
    rewrite endsWith_append. reflexivity. }
  destruct (Js.is_str exportFormat "word"); [| discriminate].
  intros [= <- <-]. rewrite export_name_append.
  rewrite (endsWith_other_last _ ".doc" ".xlsx") by (simpl; congruence).
  rewrite (endsWith_other_last _ ".doc" ".pdf") by (simpl; congruence).
  rewrite endsWith_append. reflexivity.
Qed.

(** X3.  A deferred export in one of the three formats whose pipeline
    completes answers with the URL [/api/orders/download/<token>], the
    file name and the MIME type of the format; within the time-to-live
    the download of that URL streams this file under the MIME type the
    export announced (the type the download route derives from the
    extension of the name it is given), and every further download with
    the token is answered 401. *)
Theorem prepared_export_downloads_once (exportFormat : Js.value) (e : env) (s : server)
    (fname mimeType : string) (later : Z) (ends : bool) :
  export_file exportFormat (timestamp e) (randomId e) = Some (fname, mimeType) ->
  run e = Completes ->
  later <= now e + TTL ->
  let prepared := prepare_export exportFormat e s in
  prepared.1 = Prepared (String.append "/api/orders/download/" (token e)) fname mimeType
  /\ (download later ends (token e) prepared.2).1 = Streamed mimeType fname ends
  /\ forall later' ends',
       (download later' ends' (token e) (download later ends (token e) prepared.2).2).1
         = Unauthorized.
Proof.
  intros Hfile Hrun Hlater prepared. subst prepared.
  unfold prepare_export. rewrite Hfile, Hrun.
  rewrite TokenFacts.register_export_state. cbn [fst snd].
  set (fi := {| filename := fname; expiresAt := now e + TTL |}).
  set (s1 := {| tokens := <[token e := fi]> (tokens s); temp := temp s ∪ {[fname]} |}).
  assert (E : tokens s1 !! token e = Some fi) by apply lookup_insert_eq.
  assert (Hin : filename fi ∈ temp s1) by (simpl; set_solver).
  split; [reflexivity |].
  rewrite (TokenFacts.download_live_present later ends (token e) fi s1 E Hlater Hin).
  unfold fi at 1 2. cbn [fst snd filename].
  rewrite (contentType_of_export _ _ _ _ _ Hfile).
  split; [reflexivity |].
  intros later' ends'. rewrite TokenFacts.download_absent; [reflexivity |].
  simpl. apply lookup_delete_eq.
Qed.

Lemma prepared_export_downloads_once_witness :
  (download 2000 true "k3x9"
     (prepare_export (Js.Str "pdf") MoreSamples.pdf_export Samples.empty_server).2).1
  = Streamed "application/pdf" "orders_20240101_120000_abcd1234.pdf" true.
Proof.
  refine (proj1 (proj2 (prepared_export_downloads_once (Js.Str "pdf") MoreSamples.pdf_export
                          Samples.empty_server "orders_20240101_120000_abcd1234.pdf"
                          "application/pdf" 2000 true _ _ _))).
  - reflexivity.
  - reflexivity.
  - simpl. unfold TTL. lia.
Defined.

(** X4.  A deferred export that does not succeed issues no token: a
    format that is none of ['excel'], ['pdf'], ['word'] is answered 400
    with the server state untouched, a 400 answer always leaves the
    state untouched, any answer other than the success answer leaves the
    token registry as it was, and the 500 answer carries the message of
    the error the pipeline threw. *)
Theorem failed_preparation_issues_no_token (exportFormat : Js.value) (e : env)
    (s : server) :
  (Js.is_str exportFormat "excel" = false -> Js.is_str exportFormat "pdf" = false ->
   Js.is_str exportFormat "word" = false ->
   prepare_export exportFormat e s = (InvalidFormat, s))
  /\ ((prepare_export exportFormat e s).1 = InvalidFormat ->
      (prepare_export exportFormat e s).2 = s)
  /\ ((forall url f m, (prepare_export exportFormat e s).1 <> Prepared url f m) ->
        tokens (prepare_export exportFormat e s).2 = tokens s)
  /\ (forall details, (prepare_export exportFormat e s).1 = PreparationFailed details ->
        exists file_left, run e = Throws details file_left).
Proof.
  unfold prepare_export, export_file. refine (conj _ (conj _ (conj _ _))).
  - intros H1 H2 H3. now rewrite H1, H2, H3.
  - destruct (if Js.is_str exportFormat "excel" then _ else _) as [[fname mime] |];
      [| reflexivity].
    destruct (run e); [| discriminate].
    rewrite TokenFacts.register_export_state. discriminate.
  - intros Hnot.
    destruct (if Js.is_str exportFormat "excel" then _ else _) as [[fname mime] |];
      [| reflexivity].
    destruct (run e); [| reflexivity].
    exfalso. rewrite TokenFacts.register_export_state in Hnot. eapply Hnot. reflexivity.
  - intros details.
    destruct (if Js.is_str exportFormat "excel" then _ else _) as [[fname mime] |];
      [| discriminate].
    destruct (run e) as [| message file_left].
    + rewrite TokenFacts.register_export_state. discriminate.
    + intros [= ->]. eauto.
Qed.

End NameFacts.

Module StatusMore.
Import Store OrderRoutes Samples.

(** X5.  [PUT /:id/status] refuses without writing: a status outside the
    four is answered 400 ['Invalid status'] before any datastore call,
    the world being untouched; a valid status for an id with no order is
    answered 404 ['Order not found'] when the first query runs; and
    whenever the answer is not 200 the committed tables are as they
    were. *)
Theorem status_update_refusals (id : Z) (status : Js.value) (e : env) (w : world) :
  (valid_status status = false ->
     put_order_status id status e w = (Http.json 400 (Http.Msg "Invalid status"), w))
  /\ (valid_status status = true -> faulty e (calls w) = false ->
      orders (committed w) !! id = None ->
      (put_order_status id status e w).1 = Http.json 404 (Http.Msg "Order not found")
      /\ committed (put_order_status id status e w).2 = committed w)
  /\ (Http.code (put_order_status id status e w).1 <> 200 ->
      committed (put_order_status id status e w).2 = committed w).
Proof.
  split_and!.
  - intros Hv. unfold put_order_status, try_catch. now rewrite Hv.
  - intros Hv F Hnone. unfold put_order_status, try_catch. rewrite Hv. simpl.
    unfold mbind, M_bind, bind, select, datastore. rewrite F. simpl. rewrite Hnone.
    split; reflexivity.
  - intros Hcode.
    destruct (StatusFacts.put_order_status_committed id status e w)
      as [Hc | (o & _ & _ & _ & _ & Hr & _)]; [exact Hc |].
    rewrite Hr in Hcode. now contradiction Hcode.
Qed.

(** X6.  A status update answered 200 rewrites one row only: the order of
    that id existed, the orders table is the old one with that row
    replaced, the new row carries the requested status and the old id,
    name, phone, address, notes, source and order date, and the order
    items, the products and the colours are untouched. *)
Theorem status_update_frame (id : Z) (status : Js.value) (e : env) (w : world) :
  Http.code (put_order_status id status e w).1 = 200 ->
  exists o o',
    orders (committed w) !! id = Some o
    /\ orders (committed (put_order_status id status e w).2) =
         <[id := o']> (orders (committed w))
    /\ Order.status o' = status
    /\ (Order.id o', Order.name o', Order.phone o', Order.address o', Order.notes o',
        Order.order_source o', Order.order_date o')
       = (Order.id o, Order.name o, Order.phone o, Order.address o, Order.notes o,
          Order.order_source o, Order.order_date o)
    /\ order_items (committed (put_order_status id status e w).2) = order_items (committed w)
    /\ products (committed (put_order_status id status e w).2) = products (committed w)
    /\ product_colors (committed (put_order_status id status e w).2) =
         product_colors (committed w).
Proof.
  intros Hcode.
  assert (Hv : valid_status status = true).
  { destruct (valid_status status) eqn:Hv; [reflexivity |].
    unfold put_order_status, try_catch in Hcode. rewrite Hv in Hcode. discriminate. }
  unfold put_order_status, try_catch in *. rewrite Hv in *. simpl in *.
  unfold mbind, M_bind, bind, select, datastore in *.
  destruct (faulty e (calls w)); [discriminate |]. simpl in *.
  destruct (orders (committed w) !! id) as [o |] eqn:Ho; [| discriminate]. simpl in *.
  unfold on_pool, datastore in *. simpl in *.
  destruct (faulty e (S (calls w))); [discriminate |]. simpl.
  exists o, (update_status status (next_completed_date e status o) o).
  split_and!; try reflexivity.
  apply map_eq. intros k. destruct (decide (k = id)) as [-> | Hne].
  - now rewrite lookup_alter_eq, lookup_insert_eq, Ho.
  - now rewrite lookup_alter_ne, lookup_insert_ne by congruence.
Qed.

Lemma status_update_frame_witness :
  exists o o',
    orders (committed shop_with_order) !! 4 = Some o
    /\ orders (committed (put_order_status 4 (Js.Str "cancelled") calm shop_with_order).2) =
         <[4 := o']> (orders (committed shop_with_order))
    /\ Order.status o' = Js.Str "cancelled".
Proof.
  destruct (status_update_frame 4 (Js.Str "cancelled") calm shop_with_order eq_refl)
    as (o & o' & H1 & H2 & H3 & _).
  exists o, o'. split_and!; assumption.
Defined.

End StatusMore.

Module NotifyFacts.
Import Store OrderRoutes OrderModel.

(** The broadcast loop emits to the sockets in order; when an emission
    throws, exactly the sockets before it have been served. *)
Lemma emit_loop_outbox (n : Notification.t) sockets : forall e w r w',
  for_each (fun socketId => emit socketId n) sockets e w = (r, w') ->
  match r with
  | Ok _ => outbox w' = (outbox w ++ map (fun s => (s, n)) sockets)%list
  | Throw _ =>
      exists j, (j < length sockets)%nat
        /\ outbox w' = (outbox w ++ map (fun s => (s, n)) (take j sockets))%list
        /\ emit_throws e (emits w + j) = true
        /\ forall i, (i < j)%nat -> emit_throws e (emits w + i) = false
  end.
Proof.
  induction sockets as [| s sockets IH]; intros e w r w' Hrun.
  - simpl in Hrun. injection Hrun as <- <-. simpl. now rewrite app_nil_r.
  - simpl in Hrun. unfold mbind, M_bind, bind in Hrun. unfold emit at 1 in Hrun.
    destruct (emit_throws e (emits w)) eqn:F.
    + injection Hrun as <- <-. exists O. simpl. split_and!.
      * lia.
      * now rewrite app_nil_r.
      * now rewrite Nat.add_0_r.
      * intros i Hi. lia.
    + apply IH in Hrun. simpl in Hrun. destruct r as [u | m].
      * rewrite Hrun. now rewrite <- app_assoc.
      * destruct Hrun as (j & Hj & Hout & Hthrow & Hbefore).
        exists (S j). simpl. split_and!.
        -- lia.
        -- rewrite Hout. now rewrite <- app_assoc.
        -- now replace (emits w + S j)%nat with (S (emits w + j)) by lia.
        -- intros i Hi. destruct i as [| i]; [now rewrite Nat.add_0_r |].
           replace (emits w + S i)%nat with (S (emits w + i)) by lia.
           apply Hbefore. lia.
Qed.

Lemma emit_loop_datastore (n : Notification.t) sockets : forall e w r w',
  for_each (fun socketId => emit socketId n) sockets e w = (r, w') ->
  committed w' = committed w /\ tx w' = tx w /\ calls w' = calls w
  /\ auto_increment w' = auto_increment w.
Proof.
  intros e w r w' Hrun. apply OrderFacts.emit_loop_spec in Hrun. tauto.
Qed.

(** X7.  [notifyAdmins] sends one and the same notification to the admin
    sockets in order: type, message and data are those passed, an empty
    timestamp is replaced by the current instant and an empty title by
    ['New Order'], ['Stock Alert'] or ['Notification'] according to the
    type; nothing is written to the datastore; when no emission throws
    the outbox grows by one entry per socket, and when one throws the
    sockets before it have received the notification and the others have
    not. *)
Theorem notifyAdmins_broadcast `{Js.Builtins} (adminSockets : list string)
    (notification : Notification.t) (e : env) (w : world) :
  exists sent : Notification.t,
    Notification.type sent = Notification.type notification
    /\ Notification.message sent = Notification.message notification
    /\ Notification.data sent = Notification.data notification
    /\ Notification.timestamp sent =
         (if String.eqb (Notification.timestamp notification) ""
          then Js.toISOString (now e) else Notification.timestamp notification)
    /\ Notification.title sent =
         (if String.eqb (Notification.title notification) ""
          then (if String.eqb (Notification.type notification) "order" then "New Order"
                else if String.eqb (Notification.type notification) "stock" then "Stock Alert"
                else "Notification")
          else Notification.title notification)
    /\ committed (NotificationService.notifyAdmins adminSockets notification e w).2
         = committed w
    /\ match (NotificationService.notifyAdmins adminSockets notification e w).1 with
       | Ok _ =>
           outbox (NotificationService.notifyAdmins adminSockets notification e w).2 =
             (outbox w ++ map (fun s => (s, sent)) adminSockets)%list
       | Throw _ =>
           exists j, (j < length adminSockets)%nat
             /\ outbox (NotificationService.notifyAdmins adminSockets notification e w).2 =
                  (outbox w ++ map (fun s => (s, sent)) (take j adminSockets))%list
             /\ emit_throws e (emits w + j) = true
       end.
Proof.
  unfold NotificationService.notifyAdmins, mbind, M_bind, bind. simpl.
  match goal with
  | |- context [for_each (fun socketId => emit socketId ?n) _ e w] => exists n
  end.
  split_and!.
  - destruct (String.eqb (Notification.timestamp notification) "");
      simpl; destruct (String.eqb _ ""); reflexivity.
  - destruct (String.eqb (Notification.timestamp notification) "");
      simpl; destruct (String.eqb _ ""); reflexivity.
  - destruct (String.eqb (Notification.timestamp notification) "");
      simpl; destruct (String.eqb _ ""); reflexivity.
  - destruct (String.eqb (Notification.timestamp notification) "");
      simpl; destruct (String.eqb _ ""); reflexivity.
  - destruct (String.eqb (Notification.timestamp notification) "");
      simpl; destruct (String.eqb (Notification.title notification) ""); reflexivity.
  - match goal with
    | |- context [for_each ?f ?l e w] =>
        destruct (for_each f l e w) as [r w'] eqn:Hrun
    end.
    apply emit_loop_datastore in Hrun. simpl. tauto.
  - match goal with
    | |- context [for_each ?f ?l e w] =>
        destruct (for_each f l e w) as [r w'] eqn:Hrun
    end.
    apply emit_loop_outbox in Hrun. simpl. destruct r as [u | m]; [exact Hrun |].
    destruct Hrun as (j & Hj & Hout & Hthrow & _). eauto.
Qed.

End NotifyFacts.


Module OrderMore.
Import Store OrderRoutes OrderModel Samples Stock.

Lemma transaction_outbox `{Js.Builtins} mkrow isWA notice msg items e w r w' :
  transaction mkrow isWA notice msg items e w = (r, w') ->
  (outbox w' = outbox w /\ committed w' = committed w /\ exists m, r = Throw m)
  \/ (exists w4 rn,
        notify_new_order (auto_increment w) notice e w4 = (rn, w')
        /\ outbox w4 = outbox w
        /\ committed w4 = created mkrow isWA items (auto_increment w) (tx w)
        /\ orders (tx w) !! auto_increment w = None
        /\ r = match rn with
               | Ok _ => Ok (Http.json 201 (Http.OrderCreated msg (auto_increment w)))
               | Throw m => Throw m
               end).
Proof.
  intros Hrun. unfold transaction in Hrun.
  unfold mbind at 1, M_bind at 1, bind at 1 in Hrun.
  unfold insert_order, datastore at 1 in Hrun.
  destruct (faulty e (calls w)) eqn:F0.
  { injection Hrun as <- <-. left. split_and!; [reflexivity | reflexivity | eauto]. }
  cbn [tick tx auto_increment committed calls] in Hrun.
  destruct (orders (tx w) !! auto_increment w) as [dup |] eqn:Hk.
  { injection Hrun as <- <-. left. split_and!; [reflexivity | reflexivity | eauto]. }
  unfold mbind at 1, M_bind at 1, bind at 1 in Hrun.
  match type of Hrun with
  | context [for_each ?f ?l e ?w1] =>
      destruct (for_each f l e w1) as [[[] | m] w3] eqn:Hloop
  end.
  2:{ injection Hrun as <- <-.
      apply OrderFacts.item_loop_spec in Hloop. simpl in Hloop.
      destruct Hloop as (Hc & _ & Ho & _).
      left. split_and!; [exact Ho | exact Hc | eauto]. }
  apply OrderFacts.item_loop_spec in Hloop. simpl in Hloop.
  destruct Hloop as (Hc & Ha & Ho & He & Ht & Hcalls & Hf).
  unfold mbind at 1, M_bind at 1, bind at 1 in Hrun.
  unfold commit, datastore at 1 in Hrun.
  destruct (faulty e (calls w3)) eqn:F3.
  { injection Hrun as <- <-. left. split_and!; [exact Ho | exact Hc | eauto]. }
  unfold mbind at 1, M_bind at 1, bind at 1 in Hrun.
  match type of Hrun with
  | context [notify_new_order ?a ?b e ?w4] =>
      destruct (notify_new_order a b e w4) as [rn w5] eqn:Hn; set (w4' := w4) in *
  end.
  right. exists w4', rn.
  destruct rn as [[] | m]; injection Hrun as <- <-;
    (split_and!; [exact Hn | exact Ho | subst w4'; simpl; rewrite Ht; reflexivity
                 | first [exact Hk | reflexivity] | reflexivity]).
Qed.

Lemma guarded_outbox `{Js.Builtins} refusal mkrow isWA notice msg items e w :
  let run := guarded refusal (transaction mkrow isWA notice msg items) e w in
  (outbox run.2 = outbox w /\ committed run.2 = committed w /\ Http.code run.1 <> 201
   \/ (outbox run.2 = outbox w /\ committed run.2 = committed w /\ refusal = Some run.1))
  \/ (exists w4 rn wn,
        notify_new_order (auto_increment w) notice e w4 = (rn, wn)
        /\ outbox w4 = outbox w
        /\ committed w4 = created mkrow isWA items (auto_increment w) (committed w)
        /\ orders (committed w) !! auto_increment w = None
        /\ outbox run.2 = outbox wn
        /\ committed run.2 = committed w4
        /\ run.1 = match rn with
                   | Ok _ => Http.json 201 (Http.OrderCreated msg (auto_increment w))
                   | Throw m => Http.json 500 (Http.Error "Server error" m)
                   end).
Proof.
  intros run. subst run. unfold guarded. rewrite OrderFacts.try_catch_begin.
  destruct (faulty e (calls w)) eqn:F0.
  { left. left. split_and!; [reflexivity | reflexivity | discriminate]. }
  destruct refusal as [r0 |].
  { left. right. split_and!; reflexivity. }
  unfold try_catch.
  match goal with
  | |- context [transaction _ _ _ _ _ e ?w1] =>
      set (w1' := w1);
      destruct (transaction mkrow isWA notice msg items e w1') as [r w'] eqn:Hrun
  end.
  apply transaction_outbox in Hrun.
  replace (auto_increment w1') with (auto_increment w) in Hrun by reflexivity.
  replace (tx w1') with (committed w) in Hrun by reflexivity.
  replace (outbox w1') with (outbox w) in Hrun by reflexivity.
  replace (committed w1') with (committed w) in Hrun by reflexivity.
  destruct Hrun as [(Ho & Hc & m & ->) | (w4 & rn & Hn & Ho & Hc & Hk & ->)].
  - left. left. split_and!; [exact Ho | exact Hc | discriminate].
  - right. exists w4, rn, w'.
    pose proof (OrderFacts.notify_new_order_spec _ _ _ _ _ _ Hn) as (Hc5 & _).
    destruct rn as [[] | m]; simpl; split_and!; try assumption; try reflexivity.
Qed.

(** What the post-commit block leaves in the outbox when it finds the
    order: the notification, once per registered socket, in order; a
    prefix of that when an emission throws; nothing when the re-read
    fails. *)
Lemma notify_new_order_outbox `{Js.Builtins} oid notice e w rn w' o :
  notify_new_order oid notice e w = (rn, w') ->
  orders (committed w) !! oid = Some o ->
  fst (notice o) <> "" ->
  let sent := {| Notification.type := "order";
                 Notification.title := fst (notice o);
                 Notification.message := snd (notice o);
                 Notification.data := o;
                 Notification.timestamp := Js.toISOString (now e) |} in
  match rn with
  | Ok _ => outbox w' = (outbox w ++ map (fun s => (s, sent)) (default [] (channel e)))%list
  | Throw _ =>
      exists j, outbox w' =
                  (outbox w ++ map (fun s => (s, sent)) (take j (default [] (channel e))))%list
  end.
Proof.
  intros Hrun Ho Htitle sent.
  unfold notify_new_order, mbind, M_bind, bind, select, datastore in Hrun.
  destruct (faulty e (calls w)) eqn:F.
  { injection Hrun as <- <-. exists O. simpl. now rewrite app_nil_r. }
  simpl in Hrun. rewrite Ho in Hrun.
  destruct (channel e) as [sockets |] eqn:Hch; simpl in *.
  - unfold NotificationService.notifyAdmins, mbind, M_bind, bind in Hrun. simpl in Hrun.
    apply String.eqb_neq in Htitle.
    destruct (String.eqb (Js.toISOString (now e)) ""); simpl in Hrun;
      rewrite Htitle in Hrun; apply NotifyFacts.emit_loop_outbox in Hrun; simpl in Hrun;
      (destruct rn as [u | m]; [exact Hrun |]);
      destruct Hrun as (j & _ & Hout & _); eauto.
  - injection Hrun as <- <-. simpl. now rewrite app_nil_r.
Qed.

Lemma order_notice_title `{Js.Builtins} isWA o :
  fst (order_notice isWA o) = if isWA then "WhatsApp Order" else "New Order".
Proof. destruct isWA; reflexivity. Qed.

(** X8.  On [POST /]: a 201 answer means every registered admin socket
    was sent exactly one ['order'] notification carrying the inserted
    order, titled ['WhatsApp Order'] or ['New Order'] by its source; a
    request that commits nothing sends nothing; and in every case what
    was sent is that notification to a prefix of the admin sockets. *)
Theorem notification_follows_commit `{Js.Builtins} (b : Req.body) (e : env) (w : world) :
  let run := post_orders b e w in
  let isWA := Js.is_str (Req.order_source b) "whatsapp" in
  let inserted := new_order_row e isWA b (auto_increment w) in
  let sent := {| Notification.type := "order";
                 Notification.title := if isWA then "WhatsApp Order" else "New Order";
                 Notification.message := snd (order_notice isWA inserted);
                 Notification.data := inserted;
                 Notification.timestamp := Js.toISOString (now e) |} in
  (Http.code run.1 = 201 ->
     outbox run.2 = (outbox w ++ map (fun s => (s, sent)) (default [] (channel e)))%list)
  /\ (committed run.2 = committed w -> outbox run.2 = outbox w)
  /\ exists j, outbox run.2 =
                 (outbox w ++ map (fun s => (s, sent)) (take j (default [] (channel e))))%list.
Proof.
  intros run isWA inserted sent. subst run. rewrite OrderFacts.post_orders_guarded.
  fold isWA.
  destruct (guarded_outbox (refusal b) (new_order_row e isWA b) isWA (order_notice isWA)
              "Order created successfully" (default [] (Req.items b)) e w)
    as [[(Ho & Hc & Hcode) | (Ho & Hc & Hr)] | (w4 & rn & wn & Hn & Ho4 & Hc4 & Hk & Ho & Hc & Hr)].
  - split_and!; [intros H201; contradiction | intros _; exact Ho |].
    exists O. rewrite Ho. simpl. now rewrite app_nil_r.
  - split_and!; [| intros _; exact Ho |].
    + intros H201. apply OrderFacts.refusal_some in Hr. congruence.
    + exists O. rewrite Ho. simpl. now rewrite app_nil_r.
  - assert (Hrow : orders (committed w4) !! auto_increment w = Some inserted)
      by (rewrite Hc4, OrderFacts.created_orders; apply lookup_insert_eq).
    assert (Htitle : fst (order_notice isWA inserted) <> "")
      by (rewrite order_notice_title; destruct isWA; discriminate).
    pose proof (notify_new_order_outbox _ _ _ _ _ _ _ Hn Hrow Htitle) as Hout.
    cbv zeta in Hout. rewrite order_notice_title in Hout. fold sent in Hout.
    rewrite Ho4 in Hout. split_and!.
    + intros H201. rewrite Ho. destruct rn as [u | m]; [exact Hout |].
      rewrite Hr in H201. discriminate.
    + intros Hsame. exfalso. rewrite Hc, Hc4 in Hsame.
      apply (f_equal (fun t => orders t !! auto_increment w)) in Hsame.
      rewrite OrderFacts.created_orders, lookup_insert_eq, Hk in Hsame. discriminate.
    + rewrite Ho. destruct rn as [u | m]; [| exact Hout].
      exists (length (default [] (channel e))). now rewrite firstn_all.
Qed.

(** X9.  The status code of [POST /] is 201, 400 or 500. With 201 the
    body carries the id the auto-increment counter held, that id was
    free, the orders table is the old one with the new row at that id,
    and the order items are the old ones followed by one row per item of
    the request, in order. With 400 nothing is committed and the request
    had no items or, not being a WhatsApp order, lacked a customer
    field. *)
Theorem answer_tells_what_was_stored `{Js.Builtins} (b : Req.body) (e : env) (w : world) :
  let run := post_orders b e w in
  let isWA := Js.is_str (Req.order_source b) "whatsapp" in
  let k := auto_increment w in
  (Http.code run.1 = 201 \/ Http.code run.1 = 400 \/ Http.code run.1 = 500)
  /\ (Http.code run.1 = 201 ->
        run.1 = Http.json 201 (Http.OrderCreated "Order created successfully" k)
        /\ orders (committed w) !! k = None
        /\ orders (committed run.2) = <[k := new_order_row e isWA b k]> (orders (committed w))
        /\ order_items (committed run.2) =
             (order_items (committed w) ++ map (item_row k) (default [] (Req.items b)))%list)
  /\ (Http.code run.1 = 400 ->
        committed run.2 = committed w
        /\ (no_items (Req.items b) = true \/ (isWA = false /\ missing_customer b = true))).
Proof.
  intros run isWA k. subst run. rewrite OrderFacts.post_orders_guarded. fold isWA.
  destruct (OrderFacts.guarded_cases (refusal b) (new_order_row e isWA b) isWA
              (order_notice isWA) "Order created successfully" (default [] (Req.items b)) e w)
    as [(_ & Hr & Hc) | [(_ & Hr & Hc) | [(_ & _ & Hr & Hc & _) | (Hn & Hk & _ & Hc & Hrun)]]].
  - rewrite Hr. split_and!; [tauto | discriminate | discriminate].
  - pose proof (OrderFacts.refusal_some _ _ Hr) as H400. rewrite H400.
    split_and!; [tauto | discriminate |].
    intros _. split; [exact Hc |].
    destruct (no_items (Req.items b)) eqn:Hi; [now left | right].
    destruct (OrderFacts.refusal_none b) as [_ Hback].
    destruct isWA eqn:HWA.
    + rewrite Hback in Hr; [discriminate | unfold isWA in HWA; auto].
    + split; [reflexivity |].
      destruct (missing_customer b) eqn:Hm; [reflexivity |].
      rewrite Hback in Hr; [discriminate | auto].
  - rewrite Hr. split_and!; [tauto | discriminate | discriminate].
  - destruct Hrun as (w4 & rn & wn & _ & _ & _ & _ & Hr). fold k in Hr, Hk, Hc.
    rewrite Hr, Hc. destruct rn as [u | m]; simpl.
    + split_and!; [tauto | | discriminate].
      intros _. split_and!; [reflexivity | exact Hk | apply OrderFacts.created_orders
                            | apply OrderFacts.created_order_items].
    + split_and!; [tauto | discriminate | discriminate].
Qed.

(** Both creation routes either leave the committed tables alone or
    leave [created] with a key that was free. *)
Lemma creation_outcomes `{Js.Builtins} refusal mkrow isWA notice msg items e w :
  let run := guarded refusal (transaction mkrow isWA notice msg items) e w in
  committed run.2 = committed w
  \/ (orders (committed w) !! auto_increment w = None
      /\ committed run.2 = created mkrow isWA items (auto_increment w) (committed w)).
Proof.
  intros run.
  destruct (OrderFacts.guarded_cases refusal mkrow isWA notice msg items e w)
    as [(_ & _ & Hc) | [(_ & _ & Hc) | [(_ & _ & _ & Hc & _) | (_ & Hk & _ & Hc & _)]]];
    auto.
Qed.

Lemma created_keeps_rows `{Js.Builtins} mkrow isWA items k t :
  orders t !! k = None ->
  (forall k' o, orders t !! k' = Some o ->
     orders (created mkrow isWA items k t) !! k' = Some o)
  /\ order_items (created mkrow isWA items k t) =
       (order_items t ++ map (item_row k) items)%list.
Proof.
  intros Hk. split; [| apply OrderFacts.created_order_items].
  intros k' o Ho. rewrite OrderFacts.created_orders.
  rewrite lookup_insert_ne; [exact Ho | congruence].
Qed.

(** X10.  Neither creation route alters what is already stored: every
    order present before is present unchanged after, whatever the
    outcome, and the order items after are the items before followed by
    new ones. *)
Theorem creation_keeps_existing_rows `{Js.Builtins} (b : Req.body) (e : env) (w : world) :
  (forall k' o, orders (committed w) !! k' = Some o ->
     orders (committed (post_orders b e w).2) !! k' = Some o
     /\ orders (committed (post_orders_whatsapp b e w).2) !! k' = Some o)
  /\ (exists added, order_items (committed (post_orders b e w).2) =
                      (order_items (committed w) ++ added)%list)
  /\ (exists added, order_items (committed (post_orders_whatsapp b e w).2) =
                      (order_items (committed w) ++ added)%list).
Proof.
  rewrite OrderFacts.post_orders_guarded, OrderFacts.post_orders_whatsapp_guarded.
  set (isWA := Js.is_str (Req.order_source b) "whatsapp").
  pose proof (creation_outcomes (refusal b) (new_order_row e isWA b) isWA (order_notice isWA)
                "Order created successfully" (default [] (Req.items b)) e w) as H1.
  pose proof (creation_outcomes (refusal_whatsapp b) (new_whatsapp_row e b) true
                whatsapp_notice "WhatsApp order created successfully"
                (default [] (Req.items b)) e w) as H2.
  cbv zeta in H1, H2.
  split_and!.
  - intros k' o Ho. split.
    + destruct H1 as [-> | (Hk & ->)]; [exact Ho |].
      now apply created_keeps_rows.
    + destruct H2 as [-> | (Hk & ->)]; [exact Ho |].
      now apply created_keeps_rows.
  - destruct H1 as [-> | (Hk & ->)].
    + exists []. now rewrite app_nil_r.
    + eexists. apply OrderFacts.created_order_items.
  - destruct H2 as [-> | (Hk & ->)].
    + exists []. now rewrite app_nil_r.
    + eexists. apply OrderFacts.created_order_items.
Qed.

(** The two stock statements keep stock counts non-negative. *)
Lemma update_product_stock_nonneg q pid (m : gmap Z Product.row) :
  (forall k p s, m !! k = Some p -> Product.stock p = Some s -> 0 <= s) ->
  forall k p s, update_product_stock q pid m !! k = Some p -> Product.stock p = Some s ->
                0 <= s.
Proof.
  intros Hm k p s. unfold update_product_stock.
  destruct (m !! pid) as [p0 |] eqn:Hp; [| apply Hm].
  destruct (Product.stock p0) as [s0 |] eqn:Hs; [| apply Hm].
  destruct (Z.leb_spec q s0) as [Hle | Hgt]; [| apply Hm].
  destruct (decide (k = pid)) as [-> | Hne].
  - rewrite lookup_insert_eq. intros [= <-]. simpl. intros [= <-]. lia.
  - rewrite lookup_insert_ne by congruence. apply Hm.
Qed.

Lemma update_color_stock_nonneg q cid pid (m : gmap Z Color.row) :
  (forall k c s, m !! k = Some c -> Color.stock c = Some s -> 0 <= s) ->
  forall k c s, update_color_stock q cid pid m !! k = Some c -> Color.stock c = Some s ->
                0 <= s.
Proof.
  intros Hm k c s. unfold update_color_stock.
  destruct (m !! cid) as [c0 |] eqn:Hc; [| apply Hm].
  destruct (Color.stock c0) as [s0 |] eqn:Hs; [| apply Hm].
  destruct (Color.product_id c0 =? pid); simpl; [| apply Hm].
  destruct (Z.leb_spec q s0) as [Hle | Hgt]; [| apply Hm].
  destruct (decide (k = cid)) as [-> | Hne].
  - rewrite lookup_insert_eq. intros [= <-]. simpl. intros [= <-]. lia.
  - rewrite lookup_insert_ne by congruence. apply Hm.
Qed.

Lemma stock_update_nonneg item t : nonneg t -> nonneg (stock_update item t).
Proof.
  intros [Hp Hc]. unfold stock_update, nonneg.
  destruct (truthy_id (Req.colorId item)); simpl; split; try assumption.
  - now apply update_color_stock_nonneg.
  - now apply update_product_stock_nonneg.
Qed.

Lemma fold_stock_update_nonneg items : forall t,
  nonneg t -> nonneg (fold_left (fun t i => stock_update i t) items t).
Proof.
  induction items as [| i items IH]; intros t Ht; [exact Ht |].
  simpl. apply IH. now apply stock_update_nonneg.
Qed.

Lemma created_nonneg `{Js.Builtins} mkrow isWA items k t :
  nonneg t -> nonneg (created mkrow isWA items k t).
Proof.
  intros Ht. unfold nonneg. destruct isWA.
  - destruct (OrderFacts.created_whatsapp_stock mkrow items k t) as [-> ->]. exact Ht.
  - destruct (OrderFacts.created_stock mkrow items k t) as [-> ->].
    now apply fold_stock_update_nonneg.
Qed.

(** X11.  If no stored stock count is negative before a creation request,
    none is after it, on either route and whatever the quantities asked
    (the stock statement is guarded by [stock >= quantity]). *)
Theorem stock_never_negative `{Js.Builtins} (b : Req.body) (e : env) (w : world) :
  nonneg (committed w) ->
  nonneg (committed (post_orders b e w).2)
  /\ nonneg (committed (post_orders_whatsapp b e w).2).
Proof.
  intros Hw.
  rewrite OrderFacts.post_orders_guarded, OrderFacts.post_orders_whatsapp_guarded.
  set (isWA := Js.is_str (Req.order_source b) "whatsapp").
  pose proof (creation_outcomes (refusal b) (new_order_row e isWA b) isWA (order_notice isWA)
                "Order created successfully" (default [] (Req.items b)) e w) as H1.
  pose proof (creation_outcomes (refusal_whatsapp b) (new_whatsapp_row e b) true
                whatsapp_notice "WhatsApp order created successfully"
                (default [] (Req.items b)) e w) as H2.
  cbv zeta in H1, H2. split.
  - destruct H1 as [-> | (_ & ->)]; [exact Hw | now apply created_nonneg].
  - destruct H2 as [-> | (_ & ->)]; [exact Hw | now apply created_nonneg].
Qed.

Lemma stock_never_negative_witness :
  nonneg (committed (post_orders (H := Js.numeric_builtins) web_order calm start).2).
Proof.
  apply (stock_never_negative (H := Js.numeric_builtins) web_order calm start).
  split.
  - intros k p s Hp Hs. unfold start, shop in Hp. cbn [committed products] in Hp.
    destruct (decide (k = 1)) as [-> | H1];
      [rewrite lookup_insert_eq in Hp; injection Hp as <-; injection Hs as <-; lia |].
    rewrite lookup_insert_ne in Hp by congruence.
    destruct (decide (k = 2)) as [-> | H2];
      [rewrite lookup_singleton_eq in Hp; injection Hp as <-; discriminate |].
    rewrite lookup_singleton_ne in Hp by congruence. discriminate.
  - intros k c s Hc Hs. unfold start, shop in Hc. cbn [committed product_colors] in Hc.
    destruct (decide (k = 7)) as [-> | H7];
      [rewrite lookup_singleton_eq in Hc; injection Hc as <-; injection Hs as <-; lia |].
    rewrite lookup_singleton_ne in Hc by congruence. discriminate.
Defined.

(** A stored price is never [NaN]: what does not parse to a number other
    than zero is stored as [0]. *)
Lemma num_or_zero_not_nan x : PrimFloat.is_nan (Js.num_or_zero x) = false.
Proof.
  unfold Js.num_or_zero, Js.truthy_num.
  destruct (PrimFloat.eqb x 0 || PrimFloat.is_nan x) eqn:E; simpl; [reflexivity |].
  apply orb_false_iff in E. tauto.
Qed.

(** X12.  Every order item stored after [POST /] was there before or
    belongs to the new order, and then its price is not [NaN]: it is
    [parseFloat(price) || 0] of an item of the request, hence [0] when
    the price does not parse or parses to zero. *)
Theorem stored_price_is_a_number `{Js.Builtins} (b : Req.body) (e : env) (w : world)
    (r : Item.row) :
  In r (order_items (committed (post_orders b e w).2)) ->
  In r (order_items (committed w))
  \/ (Item.order_id r = auto_increment w
      /\ PrimFloat.is_nan (Item.price r) = false
      /\ exists item, In item (default [] (Req.items b))
           /\ Item.price r = Js.num_or_zero (Js.parseFloat (Req.price item))
           /\ (Js.truthy_num (Js.parseFloat (Req.price item)) = false ->
               Item.price r = 0%float)).
Proof.
  rewrite OrderFacts.post_orders_guarded.
  set (isWA := Js.is_str (Req.order_source b) "whatsapp").
  pose proof (creation_outcomes (refusal b) (new_order_row e isWA b) isWA (order_notice isWA)
                "Order created successfully" (default [] (Req.items b)) e w) as H1.
  cbv zeta in H1. destruct H1 as [-> | (_ & ->)]; [now left |].
  rewrite OrderFacts.created_order_items. intros Hin.
  apply in_app_or in Hin. destruct Hin as [Hold | Hnew]; [now left | right].
  apply in_map_iff in Hnew. destruct Hnew as (item & <- & Hitem).
  split_and!; [reflexivity | apply num_or_zero_not_nan |].
  exists item. split_and!; [exact Hitem | reflexivity |].
  intros Hfalsy. simpl. unfold Js.num_or_zero. now rewrite Hfalsy.
Qed.

Lemma stored_price_is_a_number_witness :
  In {| Item.order_id := 1; Item.product_id := 1; Item.quantity := 3;
        Item.price := 10%float; Item.color_id := None |}
     (order_items (committed start))
  \/ PrimFloat.is_nan 10%float = false.
Proof.
  destruct (stored_price_is_a_number (H := Js.numeric_builtins) web_order calm start
              {| Item.order_id := 1; Item.product_id := 1; Item.quantity := 3;
                 Item.price := 10%float; Item.color_id := None |})
    as [Hold | (_ & Hnan & _)].
  - left. reflexivity.
  - left. exact Hold.
  - right. exact Hnan.
Defined.

End OrderMore.

Module SocketFacts.
Import AdminSockets Store.

Lemma add_NoDup id sockets : NoDup sockets -> NoDup (add id sockets).
Proof.
  intros Hnd. unfold add. destruct (decide (id ∈ sockets)); [exact Hnd |].
  apply NoDup_app. split_and!; [exact Hnd | | apply NoDup_singleton].
  intros x Hx Hx'. apply list_elem_of_singleton in Hx'. now subst.
Qed.

Lemma delete_NoDup id sockets : NoDup sockets -> NoDup (delete id sockets).
Proof. intros Hnd. unfold delete. now apply NoDup_filter. Qed.

Lemma elem_of_add id id' sockets : id ∈ add id' sockets <-> id = id' \/ id ∈ sockets.
Proof.
  unfold add. destruct (decide (id' ∈ sockets)).
  - split; [auto | intros [-> | Hin]; assumption].
  - rewrite elem_of_app, list_elem_of_singleton. tauto.
Qed.

Lemma elem_of_delete id id' sockets : id ∈ delete id' sockets <-> id <> id' /\ id ∈ sockets.
Proof. unfold delete. now rewrite list_elem_of_filter. Qed.

Lemma after_spec id events : forall sockets,
  NoDup sockets ->
  NoDup (after events sockets)
  /\ (id ∈ after events sockets <-> listening id events (bool_decide (id ∈ sockets)) = true).
Proof.
  induction events as [| ev events IH]; intros sockets Hnd; simpl.
  - split; [exact Hnd |]. now rewrite bool_decide_eq_true.
  - destruct ev as [id' | id' tok | id']; simpl.
    + now apply IH.
    + destruct (IH (add id' sockets) (add_NoDup _ _ Hnd)) as [Hnd' Hiff].
      split; [exact Hnd' |]. rewrite Hiff.
      destruct (decide (id' = id)) as [-> | Hne].
      * rewrite bool_decide_eq_true_2; [reflexivity |]. apply elem_of_add. now left.
      * erewrite bool_decide_ext; [reflexivity |]. rewrite elem_of_add. 
        split; [intros [-> | Hin]; [contradiction | exact Hin] | auto].
    + destruct (IH (delete id' sockets) (delete_NoDup _ _ Hnd)) as [Hnd' Hiff].
      split; [exact Hnd' |]. rewrite Hiff.
      destruct (decide (id' = id)) as [-> | Hne].
      * rewrite bool_decide_eq_false_2; [reflexivity |]. rewrite elem_of_delete. tauto.
      * erewrite bool_decide_ext; [reflexivity |]. rewrite elem_of_delete.
        split; [tauto | intros Hin; split; [congruence | exact Hin]].
Qed.

Lemma after_nil_spec id events :
  NoDup (after events [])
  /\ (id ∈ after events [] <-> listening id events false = true).
Proof.
  destruct (after_spec id events [] (NoDup_nil_2 (A := string))) as [Hnd Hiff].
  rewrite bool_decide_eq_false_2 in Hiff by apply not_elem_of_nil.
  now split.
Qed.

(** X13.  The admin socket registry of [server.js], after any sequence of
    socket events from the empty registry: it holds no socket twice; a
    socket is in it exactly when the last thing it did among
    authenticating and disconnecting was to authenticate;
    ['admin:authenticate'] registers the socket whatever token it sends;
    a disconnection removes it. *)
Theorem admin_registry (events : list event) (id : string) :
  NoDup (after events [])
  /\ (id ∈ after events [] <-> listening id events false = true)
  /\ (forall token, id ∈ after (events ++ [Authenticate id token]) [])
  /\ id ∉ after (events ++ [Disconnect id]) [].
Proof.
  destruct (after_nil_spec id events) as [Hnd Hiff].
  split_and!.
  - exact Hnd.
  - exact Hiff.
  - intros token. unfold after. rewrite fold_left_app. simpl.
    apply elem_of_add. now left.
  - unfold after. rewrite fold_left_app. simpl. rewrite elem_of_delete. tauto.
Qed.

Lemma notifyAdmins_quiet `{Js.Builtins} sockets notification e w :
  (forall k, emit_throws e k = false) ->
  exists n, outbox (NotificationService.notifyAdmins sockets notification e w).2 =
              (outbox w ++ map (fun s => (s, n)) sockets)%list.
Proof.
  intros Hquiet. unfold NotificationService.notifyAdmins, mbind, M_bind, bind. simpl.
  match goal with
  | |- context [for_each (fun socketId => emit socketId ?n) ?l e w] =>
      exists n; destruct (for_each (fun socketId => emit socketId n) l e w) as [r w'] eqn:Hrun
  end.
  apply OrderFacts.emit_loop_spec in Hrun.
  destruct Hrun as (_ & _ & _ & _ & Hok & _). now destruct (Hok Hquiet).
Qed.

Lemma count_for_socket (n : Notification.t) id : forall l : list string,
  NoDup l ->
  length (filter (fun entry : string * Notification.t => entry.1 = id)
                 (map (fun s => (s, n)) l)) =
    if bool_decide (id ∈ l) then 1%nat else 0%nat.
Proof.
  induction l as [| x l IHl]; intros Hl; [reflexivity |].
  apply NoDup_cons in Hl. destruct Hl as [Hx Hl]. simpl.
  rewrite filter_cons. simpl. destruct (decide (x = id)) as [-> | Hne].
  - simpl. rewrite (IHl Hl). rewrite bool_decide_eq_false_2 by exact Hx.
    rewrite bool_decide_eq_true_2; [reflexivity | left].
  - rewrite (IHl Hl). apply f_equal with (f := fun b : bool => if b then 1%nat else 0%nat).
    apply bool_decide_ext. rewrite elem_of_cons.
    split; [auto | intros [-> | ?]; [contradiction | assumption]].
Qed.

(** X14.  With an empty outbox and no emission throwing, [notifyAdmins]
    run on the registry that a sequence of socket events leaves sends
    the notification exactly once to each socket that is listening at
    the end, and to no other socket. *)
Theorem each_admin_notified_once `{Js.Builtins} (events : list event)
    (notification : Notification.t) (e : env) (w : world) (id : string) :
  outbox w = [] ->
  (forall k, emit_throws e k = false) ->
  let sent := outbox (NotificationService.notifyAdmins (after events []) notification e w).2 in
  length (filter (fun entry => entry.1 = id) sent) =
    if listening id events false then 1%nat else 0%nat.
Proof.
  intros Hempty Hquiet sent. subst sent.
  destruct (notifyAdmins_quiet (after events []) notification e w Hquiet) as (n & ->).
  destruct (after_nil_spec id events) as [Hnd Hiff].
  rewrite Hempty. simpl. rewrite (count_for_socket n id _ Hnd).
  destruct (listening id events false) eqn:Hl.
  - rewrite bool_decide_eq_true_2; [reflexivity | now apply Hiff].
  - rewrite bool_decide_eq_false_2; [reflexivity |].
    intros Hin. apply Hiff in Hin. discriminate.
Qed.


Lemma each_admin_notified_once_witness :
  length (filter (fun entry => entry.1 = "a")
            (outbox (NotificationService.notifyAdmins (H := Js.numeric_builtins)
                       (after MoreSamples.evening []) MoreSamples.stock_alert
                       Samples.calm Samples.start).2)) = 1%nat
  /\ length (filter (fun entry => entry.1 = "b")
               (outbox (NotificationService.notifyAdmins (H := Js.numeric_builtins)
                          (after MoreSamples.evening []) MoreSamples.stock_alert
                          Samples.calm Samples.start).2)) = 0%nat.
Proof.
  split.
  - exact (each_admin_notified_once (H := Js.numeric_builtins) MoreSamples.evening
             MoreSamples.stock_alert Samples.calm Samples.start "a"
             eq_refl (fun _ => eq_refl)).
  - exact (each_admin_notified_once (H := Js.numeric_builtins) MoreSamples.evening
             MoreSamples.stock_alert Samples.calm Samples.start "b"
             eq_refl (fun _ => eq_refl)).
Defined.

End SocketFacts.

Module QueryMore.
Import ExportQuery.

Lemma filter_none {A} (P : A -> Prop) `{forall x, Decision (P x)} (l : list A) :
  (forall x, In x l -> ~ P x) -> filter P l = [].
Proof.
  induction l as [| x l IH]; intros Hno; [reflexivity |].
  rewrite filter_cons. destruct (decide (P x)) as [Hp | _].
  - exfalso. apply (Hno x); [now left | exact Hp].
  - apply IH. intros y Hy. apply Hno. now right.
Qed.

Lemma filter_all {A} (P : A -> Prop) `{forall x, Decision (P x)} (l : list A) :
  (forall x, In x l -> P x) -> filter P l = l.
Proof.
  induction l as [| x l IH]; intros Hall; [reflexivity |].
  rewrite filter_cons. destruct (decide (P x)) as [_ | Hn].
  - f_equal. apply IH. intros y Hy. apply Hall. now right.
  - exfalso. apply Hn, Hall. now left.
Qed.

(** X15.  An export request whose order id is falsy (absent, the number
    zero or the empty string), whose status is absent, empty or ['all'],
    and which gives no dates, runs the query without a [WHERE] clause and
    returns every stored order, sorted by date, newest first. *)
Theorem no_usable_filter_returns_everything (f : filters) (t : Store.tables) :
  given_id (orderId f) = false ->
  (status f = None \/ status f = Some "" \/ status f = Some "all") ->
  startDate f = None -> endDate f = None ->
  query_text f = "SELECT * FROM orders ORDER BY order_date DESC"
  /\ select_orders f t = order_by_date_desc (rows t)
  /\ Permutation (select_orders f t) (rows t)
  /\ (forall k o, Store.orders t !! k = Some o -> In o (select_orders f t)).
Proof.
  intros Hid Hst Hs He.
  assert (Hnone : whereClauses f = []).
  { unfold whereClauses. rewrite Hid, Hs, He.
    destruct Hst as [-> | [-> | ->]]; reflexivity. }
  assert (Hsel : select_orders f t = order_by_date_desc (rows t)).
  { unfold select_orders. rewrite Hnone. rewrite filter_all; [reflexivity |].
    intros x _. reflexivity. }
  split_and!.
  - unfold query_text. now rewrite Hnone.
  - exact Hsel.
  - rewrite Hsel. apply QueryFacts.order_by_date_desc_perm.
  - intros k o Hk. rewrite Hsel, <- list_elem_of_In.
    rewrite (QueryFacts.order_by_date_desc_perm _), list_elem_of_In.
    apply QueryFacts.rows_spec. eauto.
Qed.

Lemma no_usable_filter_returns_everything_witness :
  query_text {| orderId := IdEmpty; status := Some "all";
                startDate := None; endDate := None |}
    = "SELECT * FROM orders ORDER BY order_date DESC"
  /\ In MoreSamples.late_order
        (select_orders {| orderId := IdEmpty; status := Some "all";
                          startDate := None; endDate := None |}
                       MoreSamples.two_orders)
  /\ In Samples.open_order
        (select_orders {| orderId := IdEmpty; status := Some "all";
                          startDate := None; endDate := None |}
                       MoreSamples.two_orders).
Proof.
  destruct (no_usable_filter_returns_everything
              {| orderId := IdEmpty; status := Some "all";
                 startDate := None; endDate := None |}
              MoreSamples.two_orders eq_refl (or_intror (or_intror eq_refl))
              eq_refl eq_refl) as (Hq & _ & _ & Hall).
  split; [exact Hq |]. split.
  - apply (Hall 5). reflexivity.
  - apply (Hall 4). reflexivity.
Defined.

Lemma select_orders_In f t o :
  In o (select_orders f t) <-> In o (rows t) /\ where_ (whereClauses f) o = true.
Proof.
  unfold select_orders. rewrite <- !list_elem_of_In.
  rewrite (QueryFacts.order_by_date_desc_perm _), list_elem_of_filter. tauto.
Qed.

(** X16.  With both dates given, the export returns only orders placed
    from the first instant of the start day to the last second of the
    end day: none at all when the end day precedes the start day, and,
    when the order id is falsy and no status is given, every stored order
    placed in that range. *)
Theorem date_range (f : filters) (t : Store.tables) (d1 d2 : Z) :
  startDate f = Some d1 -> endDate f = Some d2 ->
  (d2 < d1 -> select_orders f t = [])
  /\ (forall o, In o (select_orders f t) ->
        (exists k, Store.orders t !! k = Some o)
        /\ d1 <= Order.order_date o / 86400 <= d2)
  /\ (given_id (orderId f) = false -> status f = None ->
      forall k o, Store.orders t !! k = Some o ->
                  d1 <= Order.order_date o / 86400 <= d2 ->
                  In o (select_orders f t)).
Proof.
  intros Hs He.
  assert (Hday : forall o, In o (select_orders f t) ->
                           (exists k, Store.orders t !! k = Some o)
                           /\ d1 <= Order.order_date o / 86400 <= d2).
  { intros o Hin. apply select_orders_In in Hin. destruct Hin as [Hrow Hw].
    split; [now apply QueryFacts.rows_spec |].
    apply QueryFacts.where_spec in Hw. destruct Hw as (_ & _ & _ & Hge & Hle).
    specialize (Hge d1 Hs). specialize (Hle d2 He). unfold instant in *. simpl in *.
    split.
    - apply Z.div_le_lower_bound; lia.
    - assert (Order.order_date o / 86400 < d2 + 1); [| lia].
      apply Z.div_lt_upper_bound; lia. }
  split_and!.
  - intros Hlt. destruct (select_orders f t) as [| o l]; [reflexivity |].
    destruct (Hday o (or_introl eq_refl)) as [_ Hd]. lia.
  - exact Hday.
  - intros Hid Hst k o Hrow Hd.
    apply select_orders_In. split; [apply QueryFacts.rows_spec; eauto |].
    apply QueryFacts.where_spec.
    split_and!.
    + intros n Hn Hnz. unfold given_id in Hid. rewrite Hn in Hid.
      apply negb_false_iff, Z.eqb_eq in Hid. contradiction.
    + intros n Hn. unfold given_id in Hid. rewrite Hn in Hid. discriminate.
    + intros s Hs'. rewrite Hst in Hs'. discriminate.
    + intros d Hd'. rewrite Hs in Hd'. injection Hd' as <-. unfold instant. simpl.
      pose proof (Z.mul_div_le (Order.order_date o) 86400 ltac:(lia)). nia.
    + intros d Hd'. rewrite He in Hd'. injection Hd' as <-. unfold instant. simpl.
      pose proof (Z.mod_pos_bound (Order.order_date o) 86400 ltac:(lia)).
      pose proof (Z.div_mod (Order.order_date o) 86400 ltac:(lia)). nia.
Qed.

Lemma date_range_witness :
  In Samples.open_order
     (select_orders {| orderId := IdEmpty; status := None;
                       startDate := Some 19675; endDate := Some 19675 |}
                    MoreSamples.two_orders)
  /\ ~ In MoreSamples.late_order
         (select_orders {| orderId := IdEmpty; status := None;
                           startDate := Some 19675; endDate := Some 19675 |}
                        MoreSamples.two_orders)
  /\ select_orders {| orderId := IdEmpty; status := None;
                      startDate := Some 19676; endDate := Some 19675 |}
                   MoreSamples.two_orders = [].
Proof.
  destruct (date_range {| orderId := IdEmpty; status := None;
                          startDate := Some 19675; endDate := Some 19675 |}
              MoreSamples.two_orders 19675 19675 eq_refl eq_refl) as (_ & Honly & Hall).
  split; [| split].
  - apply (Hall eq_refl eq_refl 4); [reflexivity | vm_compute; split; discriminate].
  - intros Hin. apply Honly in Hin as (_ & Hd).
    change (19675 <= 19676 <= 19675) in Hd. lia.
  - refine (proj1 (date_range {| orderId := IdEmpty; status := None;
                                 startDate := Some 19676; endDate := Some 19675 |}
                     MoreSamples.two_orders 19676 19675 eq_refl eq_refl) _). lia.
Defined.


End QueryMore.

Module ReadFacts.
Import Store OrderRoutes OrderModel OrderReads.

(** A status update answered 200 carried out its one [UPDATE]. *)
Lemma put_order_status_200 id status e w :
  Http.code (put_order_status id status e w).1 = 200 ->
  exists o,
    orders (committed w) !! id = Some o
    /\ committed (put_order_status id status e w).2 =
         with_orders (alter (update_status status (next_completed_date e status o)) id)
                     (committed w).
Proof.
  unfold put_order_status, try_catch.
  destruct (valid_status status); [| discriminate]. simpl.
  unfold mbind, M_bind, bind, select, datastore.
  destruct (faulty e (calls w)); [discriminate |]. simpl.
  destruct (orders (committed w) !! id) as [o |] eqn:Ho; [| discriminate]. simpl.
  unfold on_pool, datastore. simpl.
  destruct (faulty e (S (calls w))); [discriminate |]. simpl. intros _.
  exists o. split; reflexivity.
Qed.

Lemma count_active_insert (m : gmap Z Order.row) id o o' t :
  orders t = m -> m !! id = Some o ->
  (count_active (with_orders (fun _ => <[id := o']> m) t) + (if active o then 1 else 0))%nat
  = (count_active t + (if active o' then 1 else 0))%nat.
Proof.
  intros Ht Ho. unfold count_active. simpl. rewrite Ht.
  assert (Hsplit : forall x, map_to_list (<[id := x]> m) ≡ₚ
                             (id, x) :: map_to_list (delete id m)).
  { intros x. rewrite <- insert_delete_eq. apply map_to_list_insert, lookup_delete_eq. }
  rewrite (Hsplit o').
  rewrite <- (insert_id m id o Ho) at 2. rewrite (Hsplit o).
  rewrite !fmap_cons, !filter_cons. simpl.
  destruct (decide (active o' = true)) as [-> | Hn'];
    destruct (decide (active o = true)) as [-> | Hn]; simpl;
    try (apply not_true_is_false in Hn'; rewrite Hn');
    try (apply not_true_is_false in Hn; rewrite Hn); lia.
Qed.

Lemma get_active_count_ok e w :
  faulty e (calls w) = false ->
  (get_active_count e w).1 = Some (count_active (committed w)).
Proof.
  intros F. unfold get_active_count, try_catch, mbind, M_bind, bind, select, datastore.
  now rewrite F.
Qed.

Lemma active_of_updated status d o :
  valid_status status = true ->
  active (update_status status d o) =
    Js.is_str status "pending" || Js.is_str status "confirmed".
Proof.
  intros Hv. unfold active. simpl. unfold valid_status in Hv.
  destruct status as [| | x | s]; try discriminate. simpl in *.
  destruct (String.eqb_spec s "pending") as [-> | _]; [reflexivity |].
  destruct (String.eqb_spec s "confirmed") as [-> | _]; [reflexivity |].
  destruct (String.eqb_spec s "delivered") as [-> | _]; [reflexivity |].
  destruct (String.eqb_spec s "cancelled") as [-> | _]; [reflexivity | discriminate].
Qed.

(** X17.  A status update answered 200 moves the active-order count by the
    change of that one order: with the two count queries running, the
    count read after, plus one if the order was active before, equals
    the count read before, plus one if the new status is ['pending'] or
    ['confirmed']. *)
Theorem active_count_follows_status (id : Z) (status : Js.value) (e e0 e1 : env)
    (w : world) :
  Http.code (put_order_status id status e w).1 = 200 ->
  faulty e0 (calls w) = false ->
  faulty e1 (calls (put_order_status id status e w).2) = false ->
  exists o n n',
    orders (committed w) !! id = Some o
    /\ (get_active_count e0 w).1 = Some n
    /\ (get_active_count e1 (put_order_status id status e w).2).1 = Some n'
    /\ (n' + (if active o then 1 else 0))%nat
       = (n + (if Js.is_str status "pending" || Js.is_str status "confirmed"
               then 1 else 0))%nat.
Proof.
  intros Hcode F0 F1.
  assert (Hv : valid_status status = true).
  { destruct (valid_status status) eqn:Hv; [reflexivity |].
    unfold put_order_status, try_catch in Hcode. rewrite Hv in Hcode. discriminate. }
  destruct (put_order_status_200 id status e w Hcode) as (o & Ho & Hc).
  exists o, (count_active (committed w)),
            (count_active (committed (put_order_status id status e w).2)).
  split_and!; [exact Ho | now apply get_active_count_ok | now apply get_active_count_ok |].
  rewrite Hc.
  set (o' := update_status status (next_completed_date e status o) o).
  assert (Halter : alter (update_status status (next_completed_date e status o)) id
                         (orders (committed w)) = <[id := o']> (orders (committed w))).
  { apply map_eq. intros k. destruct (decide (k = id)) as [-> | Hne].
    - now rewrite lookup_alter_eq, lookup_insert_eq, Ho.
    - now rewrite lookup_alter_ne, lookup_insert_ne by congruence. }
  pose proof (count_active_insert (orders (committed w)) id o o' (committed w) eq_refl Ho)
    as Hcnt.
  unfold with_orders in Hcnt |- *. cbv beta in Hcnt. rewrite Halter, Hcnt.
  unfold o'. now rewrite active_of_updated.
Qed.

Lemma active_count_follows_status_witness :
  exists n n',
    (get_active_count Samples.calm Samples.shop_with_order).1 = Some n
    /\ (get_active_count Samples.calm
          (put_order_status 4 (Js.Str "delivered") Samples.calm Samples.shop_with_order).2).1
       = Some n'
    /\ (n' + 1 = n + 0)%nat.
Proof.
  destruct (active_count_follows_status 4 (Js.Str "delivered") Samples.calm Samples.calm
              Samples.calm Samples.shop_with_order eq_refl eq_refl eq_refl)
    as (o & n & n' & Ho & Hn & Hn' & Heq).
  exists n, n'. split_and!; [exact Hn | exact Hn' |].
  assert (Hopen : o = Samples.open_order).
  { assert (Hl : orders (committed Samples.shop_with_order) !! 4 = Some Samples.open_order)
      by reflexivity.
    rewrite Hl in Ho. now injection Ho. }
  subst o. exact Heq.
Defined.

(** X18.  After [POST /] answers 201 with an order id, [GET /:id] for that
    id, when its query runs, returns an order with that id, dated at the
    instant of the request, with no completion date; no order had that
    id before. *)
Theorem created_order_can_be_fetched `{Js.Builtins} (b : Req.body) (e e' : env)
    (w : world) (msg : string) (orderId : Z) :
  (post_orders b e w).1 = Http.json 201 (Http.OrderCreated msg orderId) ->
  faulty e' (calls (post_orders b e w).2) = false ->
  exists o,
    (get_order orderId e' (post_orders b e w).2).1 = Found o
    /\ Order.id o = orderId
    /\ Order.order_date o = now e
    /\ Order.completed_date o = None
    /\ orders (committed w) !! orderId = None.
Proof.
  intros H201 F. rewrite OrderFacts.post_orders_guarded in *.
  set (isWA := Js.is_str (Req.order_source b) "whatsapp") in *.
  destruct (OrderFacts.guarded_cases (refusal b) (new_order_row e isWA b) isWA
              (order_notice isWA) "Order created successfully" (default [] (Req.items b)) e w)
    as [(_ & Hr & _) | [(_ & Hr & _) | [(_ & _ & Hr & _) | (_ & Hk & _ & Hc & Hrun)]]].
  - rewrite H201 in Hr. discriminate.
  - apply OrderFacts.refusal_some in Hr. rewrite H201 in Hr. discriminate.
  - rewrite H201 in Hr. discriminate.
  - destruct Hrun as (w4 & rn & wn & _ & _ & _ & _ & Hr).
    rewrite H201 in Hr. destruct rn as [u | m]; [| discriminate].
    injection Hr as _ ->.
    exists (new_order_row e isWA b (auto_increment w)).
    split_and!; try reflexivity; [| exact Hk].
    unfold get_order, try_catch, mbind, M_bind, bind, select, datastore.
    rewrite F. simpl. rewrite Hc, OrderFacts.created_orders, lookup_insert_eq. reflexivity.
Qed.

Lemma created_order_can_be_fetched_witness :
  exists o,
    (get_order 1 Samples.calm
       (post_orders (H := Js.numeric_builtins) Samples.web_order Samples.calm Samples.start).2).1
      = Found o
    /\ Order.id o = 1.
Proof.
  destruct (created_order_can_be_fetched (H := Js.numeric_builtins) Samples.web_order
              Samples.calm Samples.calm Samples.start "Order created successfully" 1
              eq_refl eq_refl)
    as (o & Hf & Hid & _).
  exists o. split; assumption.
Defined.

End ReadFacts.

Module RenderMore.
Import Report Shown.

Lemma known_badge `{Js.Builtins} st :
  known_status st ->
  exists color, Pdf.status_badge st = Rendered (Js.Str (fst (Word.status_span st)), color).
Proof.
  intros [Hfalsy | (s & -> & Hin)].
  - unfold Pdf.status_badge, Js.or_else. rewrite Hfalsy. simpl.
    assert (Hw : fst (Word.status_span st) = "En attente").
    { destruct st as [| | x | s]; try reflexivity. simpl in Hfalsy.
      apply negb_false_iff, String.eqb_eq in Hfalsy. now subst. }
    rewrite Hw. eauto.
  - simpl in Hin. destruct Hin as [<- | [<- | [<- | [<- | []]]]]; eexists; reflexivity.
Qed.

Lemma known_pages `{Js.Builtins} n orders : forall index,
  (forall o, In o orders -> known_status (Order.status (row o))) ->
  exists ps,
    Pdf.pages n index orders = Rendered ps
    /\ map pdf_frame ps = map word_frame (Word.sections n index orders).
Proof.
  induction orders as [| o orders IH]; intros index Hknown.
  - exists []. split; reflexivity.
  - destruct (known_badge (Order.status (row o)) (Hknown o (or_introl eq_refl)))
      as (color & Hbadge).
    destruct (IH (S index) (fun o' Hin => Hknown o' (or_intror Hin))) as (ps & Hps & Hframes).
    simpl. unfold Pdf.order_page. rewrite Hbadge, Hps.
    eexists. split; [reflexivity |]. simpl. rewrite Hframes. reflexivity.
Qed.

(** X19.  When every order has a status that is missing or one of the
    four, the PDF export does not fail: it has one page per order, as
    the Word export has one section per order, and page and section show
    the same heading, the same status label and the same page number. *)
Theorem pdf_renders_known_statuses `{Js.Builtins} (orders : list order) :
  (forall o, In o orders -> known_status (Order.status (row o))) ->
  exists ps,
    Pdf.createPdfExport orders = Rendered ps
    /\ length ps = length orders
    /\ length (Word.createWordExport orders) = length orders
    /\ map pdf_frame ps = map word_frame (Word.createWordExport orders).
Proof.
  intros Hknown.
  destruct (known_pages (length orders) orders O Hknown) as (ps & Hps & Hframes).
  exists ps. unfold Pdf.createPdfExport, Word.createWordExport. rewrite Hps.
  assert (Hlen : forall n i, length (Word.sections n i orders) = length orders).
  { clear. induction orders as [| o orders IH]; intros n i; simpl; [reflexivity |].
    now rewrite IH. }
  split_and!; [reflexivity | | apply Hlen | exact Hframes].
  apply (f_equal (@length _)) in Hframes. rewrite !length_map in Hframes.
  rewrite Hframes. apply Hlen.
Qed.

Lemma pdf_renders_known_statuses_witness :
  exists ps,
    Pdf.createPdfExport (H := Js.numeric_builtins) (Samples.report_at 10) = Rendered ps
    /\ length ps = 1%nat.
Proof.
  destruct (pdf_renders_known_statuses (H := Js.numeric_builtins) (Samples.report_at 10))
    as (ps & Hps & Hlen & _).
  - intros o [<- | []]. right. exists "confirmed". split; [reflexivity |].
    simpl. tauto.
  - exists ps. split; assumption.
Defined.

(** The items loops of the two renderers run in step. *)
Lemma item_loops_in_step `{Js.Builtins} l : forall i drawn html t,
  map pdf_line drawn = map word_line html ->
  let '(i1, drawn', t1) := fold_left Pdf.draw_item l (i, drawn, t) in
  let '(i2, html', t2) := fold_left Word.add_item l (i, html, t) in
  i1 = (i + length l)%nat /\ i2 = i1 /\ t2 = t1
  /\ map pdf_line drawn' = map word_line html'
  /\ map Pdf.no drawn' =
       (map Pdf.no drawn ++ map (fun j => pretty (Z.of_nat j + 1)) (seq i (length l)))%list.
Proof.
  induction l as [| x l IH]; intros i drawn html t Hsame.
  - simpl. rewrite Nat.add_0_r, app_nil_r. auto.
  - simpl.
    match goal with
    | |- context [fold_left Pdf.draw_item l (S i, ?d, ?t')] =>
        match goal with
        | |- context [fold_left Word.add_item l (S i, ?h, _)] =>
            specialize (IH (S i) d h t')
        end
    end.
    destruct (fold_left Pdf.draw_item l _) as [[i1 drawn'] t1].
    destruct (fold_left Word.add_item l _) as [[i2 html'] t2].
    destruct IH as (Hi1 & Hi2 & Ht & Hlines & Hno).
    { rewrite !map_app, Hsame. reflexivity. }
    split_and!; [lia | exact Hi2 | exact Ht | exact Hlines |].
    rewrite Hno, map_app. simpl. now rewrite <- app_assoc.
Qed.

(** X20.  The items table of the PDF export and that of the Word export
    show the same lines for the same items: the same number, article,
    quantity, price and subtotal texts line by line, lines numbered from
    1, an article without a name shown as ['Article inconnu'], and the
    same text for the total. *)
Theorem pdf_and_word_tables_show_the_same_lines `{Js.Builtins} (l : list item) :
  map pdf_line (Pdf.lines (Pdf.items_table l)) = map word_line (Word.trs (Word.items_table l))
  /\ map Pdf.no (Pdf.lines (Pdf.items_table l)) =
       map (fun j => pretty (Z.of_nat j + 1)) (seq 0 (length l))
  /\ Pdf.total_text (Pdf.items_table l) = Word.total_text (Word.items_table l)
  /\ map Pdf.article (Pdf.lines (Pdf.items_table l)) =
       map (fun i => Js.or_else (product_name i) (Js.Str "Article inconnu")) l.
Proof.
  pose proof (item_loops_in_step l O [] [] 0%float eq_refl) as Hstep.
  assert (Harticles : forall i drawn t,
            map Pdf.article (fold_left Pdf.draw_item l (i, drawn, t)).1.2 =
              (map Pdf.article drawn
               ++ map (fun i => Js.or_else (product_name i) (Js.Str "Article inconnu")) l)%list).
  { clear. induction l as [| x l IH]; intros i drawn t; simpl; [now rewrite app_nil_r |].
    rewrite IH, map_app. simpl. now rewrite <- app_assoc. }
  specialize (Harticles O [] 0%float).
  unfold Pdf.items_table, Word.items_table.
  destruct (fold_left Pdf.draw_item l (O, [], 0%float)) as [[i1 drawn'] t1].
  destruct (fold_left Word.add_item l (O, [], 0%float)) as [[i2 html'] t2].
  destruct Hstep as (_ & _ & -> & Hlines & Hno). simpl in *.
  split_and!; [exact Hlines | exact Hno | reflexivity | exact Harticles].
Qed.

Lemma own_statusMap key label :
  JsObject.own Excel.statusMap key = Some label ->
  In label ["En attente"; "Confirmée"; "Livrée"; "Annulée"].
Proof.
  unfold Excel.statusMap, JsObject.own.
  destruct (String.eqb "pending" key); [intros [= <-]; simpl; tauto |].
  destruct (String.eqb "confirmed" key); [intros [= <-]; simpl; tauto |].
  destruct (String.eqb "delivered" key); [intros [= <-]; simpl; tauto |].
  destruct (String.eqb "cancelled" key); [intros [= <-]; simpl; tauto |].
  discriminate.
Qed.

(** X21.  The status cell of the spreadsheet holds one of the four French
    labels, or else a member of [Object.prototype]: the label lookup
    goes through the prototype chain, so a status named like an
    inherited property yields that property instead of the ['En
    attente'] default. *)
Theorem excel_status_cell_values `{Js.Builtins} (st : Js.value) :
  (exists label,
     In label ["En attente"; "Confirmée"; "Livrée"; "Annulée"]
     /\ Excel.status_cell st = Excel.Text label)
  \/ (In (Js.toString st) JsObject.prototype_keys
      /\ Excel.status_cell st = Excel.PrototypeMember (Js.toString st)).
Proof.
  unfold Excel.status_cell, JsObject.get.
  destruct (JsObject.own Excel.statusMap (Js.toString st)) as [label |] eqn:Hown.
  - left. apply own_statusMap in Hown.
    destruct (String.eqb_spec label "") as [-> | _].
    + exists "En attente". split; [simpl; tauto | reflexivity].
    + exists label. split; [exact Hown | reflexivity].
  - destruct (existsb (String.eqb (Js.toString st)) JsObject.prototype_keys) eqn:E.
    + right. split; [| reflexivity].
      apply existsb_exists in E. destruct E as (k & Hin & Heq).
      apply String.eqb_eq in Heq. now subst.
    + left. exists "En attente". split; [simpl; tauto | reflexivity].
Qed.

End RenderMore.

Module AuthFacts.
Import Auth.

(** X22.  A login is answered with a token only for an admin stored under
    the given user name whose stored hash the password matches, and the
    token is the one signed for that admin's id and user name. *)
Theorem login_answers `{Crypto} (admins : list admin) (name : string)
    (password : Js.value) (token : string) :
  login admins false name password = Token token ->
  exists a,
    In a admins /\ username a = name
    /\ compare password (password_hash a) = Some true
    /\ sign (id a) name = Some token.
Proof.
  unfold login. destruct (by_username name admins) as [| a rest] eqn:Hrows; [discriminate |].
  assert (Ha : a ∈ by_username name admins) by (rewrite Hrows; left).
  unfold by_username in Ha. apply list_elem_of_filter in Ha. destruct Ha as [Hname Hin].
  destruct (compare password (password_hash a)) as [[|] |] eqn:Hcmp; try discriminate.
  destruct (sign (id a) (username a)) as [t |] eqn:Hsign; [| discriminate].
  intros [= <-]. exists a. rewrite <- Hname.
  split_and!; [now apply list_elem_of_In | reflexivity | exact Hcmp | exact Hsign].
Qed.

Lemma login_answers_witness :
  exists a,
    In a [ {| id := 1; username := "root"; password_hash := "s3cret" |} ]
    /\ username a = "root".
Proof.
  destruct (login_answers (H := plain_crypto)
              [ {| id := 1; username := "root"; password_hash := "s3cret" |} ]
              "root" (Js.Str "s3cret") "token-for-root" eq_refl)
    as (a & Hin & Hname & _).
  exists a. split; assumption.
Defined.

(** X23.  A login with an unknown user name and a login with a known user
    name and a password that does not match are answered alike, 400
    ['Invalid Credentials']. *)
Theorem login_refusals_look_alike `{Crypto} (admins : list admin) (name name' : string)
    (password password' : Js.value) :
  by_username name admins = [] ->
  (forall a, In a admins -> username a = name' ->
             compare password' (password_hash a) = Some false) ->
  login admins false name password = InvalidCredentials
  /\ login admins false name' password' = login admins false name password.
Proof.
  intros Hunknown Hwrong.
  assert (H1 : login admins false name password = InvalidCredentials)
    by (unfold login; now rewrite Hunknown).
  split; [exact H1 |]. rewrite H1. unfold login.
  destruct (by_username name' admins) as [| a rest] eqn:Hrows; [reflexivity |].
  assert (Ha : a ∈ by_username name' admins) by (rewrite Hrows; left).
  unfold by_username in Ha. apply list_elem_of_filter in Ha. destruct Ha as [Hname Hin].
  rewrite (Hwrong a); [reflexivity | now apply list_elem_of_In | exact Hname].
Qed.

Lemma login_refusals_look_alike_witness :
  login (H := plain_crypto) [ {| id := 1; username := "root"; password_hash := "s3cret" |} ]
        false "root" (Js.Str "guess")
  = login (H := plain_crypto) [ {| id := 1; username := "root"; password_hash := "s3cret" |} ]
          false "nobody" (Js.Str "guess").
Proof.
  refine (proj2 (login_refusals_look_alike (H := plain_crypto)
                   [ {| id := 1; username := "root"; password_hash := "s3cret" |} ]
                   "nobody" "root" (Js.Str "guess") (Js.Str "guess") _ _)).
  - reflexivity.
  - intros a [<- | []] _. reflexivity.
Defined.

End AuthFacts.

Module SaveFacts.
Import Store.
Import ProductSave SaveModel.

Lemma bind_inv {A B} (m : M A) (k : A -> M B) e w r w' :
  (m ≫= k) e w = (r, w') ->
  (exists a w1, m e w = (Ok a, w1) /\ k a e w1 = (r, w'))
  \/ (exists msg, m e w = (Throw msg, w') /\ r = Throw msg).
Proof.
  unfold mbind, M_bind. destruct (m e w) as [[a | msg] w1]; intros E.
  - left. eauto.
  - right. injection E as <- <-. eauto.
Qed.

Lemma datastore_inv {A} (m : M A) e w r w' :
  datastore m e w = (r, w') ->
  (faulty e (calls w) = true /\ r = Throw "datastore error" /\ w' = tick w)
  \/ (faulty e (calls w) = false /\ m e (tick w) = (r, w')).
Proof.
  unfold datastore. destruct (faulty e (calls w)); intros E.
  - left. injection E as <- <-. auto.
  - right. auto.
Qed.

(** *** Relations every step of a computation keeps *)

Section Stays.
Variable R : world -> world -> Prop.
Hypothesis R_refl : forall w, R w w.
Hypothesis R_trans : forall w1 w2 w3, R w1 w2 -> R w2 w3 -> R w1 w3.
Hypothesis R_tick : forall w, R w (tick w).

Lemma stays_ret {A} (a : A) : stays R (mret a).
Proof. intros e w. apply R_refl. Qed.

Lemma stays_throw {A} msg : stays R (throw (A := A) msg).
Proof. intros e w. apply R_refl. Qed.

Lemma stays_bind {A B} (m : M A) (k : A -> M B) :
  stays R m -> (forall a, stays R (k a)) -> stays R (m ≫= k).
Proof.
  intros Hm Hk e w. specialize (Hm e w). unfold mbind, M_bind.
  destruct (m e w) as [[a | msg] w1]; simpl in *; [| exact Hm].
  eapply R_trans; [exact Hm | apply Hk].
Qed.

Lemma stays_datastore {A} (m : M A) : stays R m -> stays R (datastore m).
Proof.
  intros Hm e w. unfold datastore. destruct (faulty e (calls w)); simpl.
  - apply R_tick.
  - eapply R_trans; [apply R_tick | apply Hm].
Qed.

(** What is left to show of a relation that looks at the committed
    tables, the temporary directory and the uploads only. *)
Hypothesis R_tx : forall w t, R w (with_tx t w).
Hypothesis R_next_product : forall w k,
  R w {| committed := committed w; tx := tx w; next_product := k;
         next_color := next_color w; calls := calls w; disk := disk w; sent := sent w |}.
Hypothesis R_next_color : forall w k,
  R w {| committed := committed w; tx := tx w; next_product := next_product w;
         next_color := k; calls := calls w; disk := disk w; sent := sent w |}.

Lemma stays_beginTransaction : stays R beginTransaction.
Proof. apply stays_datastore. intros e w. apply R_tx. Qed.

Lemma stays_exec f : stays R (exec f).
Proof. apply stays_datastore. intros e w. apply R_tx. Qed.

Lemma stays_query {A} (f : tables -> A) : stays R (query f).
Proof. apply stays_datastore. intros e w. apply R_refl. Qed.

Lemma stays_insert_product p : stays R (insert_product p).
Proof.
  apply stays_datastore. intros e w. simpl.
  destruct (products (tx w) !! next_product w); simpl.
  - apply R_next_product.
  - eapply R_trans; [apply (R_next_product w (next_product w + 1)) |]. apply R_tx.
Qed.

Lemma stays_insert_color c : stays R (insert_color c).
Proof.
  apply stays_datastore. intros e w. simpl.
  destruct (product_colors (tx w) !! next_color w); simpl.
  - apply R_next_color.
  - eapply R_trans; [apply (R_next_color w (next_color w + 1)) |]. apply R_tx.
Qed.

Lemma stays_delete_not_in pid ids : stays R (delete_not_in pid ids).
Proof.
  unfold delete_not_in. destruct (existsb is_temp ids).
  - apply stays_datastore, stays_throw.
  - apply stays_exec.
Qed.

Lemma stays_delete_all pid : stays R (delete_all pid).
Proof. apply stays_exec. Qed.

Section Files.
Variable req : request.
Hypothesis R_upload : forall path, path ∈ files req -> stays R (uploadImage path).
Hypothesis R_unlink : forall path, path ∈ files req -> stays R (unlink path).

Lemma color_file_in_files i path : color_files req !! i = Some path -> path ∈ files req.
Proof.
  intros E. unfold files. apply elem_of_union_r, elem_of_list_to_set.
  apply list_elem_of_fmap. exists (i, path). split; [reflexivity |].
  now apply elem_of_map_to_list.
Qed.

Lemma image_file_in_files path : image_file req = Some path -> path ∈ files req.
Proof.
  intros E. unfold files. rewrite E. apply elem_of_union_l, elem_of_singleton.
  reflexivity.
Qed.

Lemma stays_save_color pid i color : stays R (save_color req pid i color).
Proof.
  unfold save_color. apply stays_bind.
  - destruct (color_files req !! i) as [path |] eqn:E; [| apply stays_ret].
    pose proof (color_file_in_files _ _ E).
    apply stays_bind; [now apply R_upload |]. intros url.
    apply stays_bind; [now apply R_unlink |]. intros _. apply stays_ret.
  - intros colorImage. destruct (is_insert color);
      [apply stays_insert_color | apply stays_exec].
Qed.

Lemma stays_save_colors pid l : forall i, stays R (save_colors req pid i l).
Proof.
  induction l as [| color rest IH]; intros i; simpl; [apply stays_ret |].
  apply stays_bind; [apply stays_save_color | intros _; apply IH].
Qed.

Lemma stays_handle_colors isUpdate pid : stays R (handle_colors req isUpdate pid).
Proof.
  unfold handle_colors. destruct (colors req) as [| | l];
    [apply stays_ret | apply stays_throw |].
  apply stays_bind; [| intros _; apply stays_save_colors].
  destruct isUpdate; [| apply stays_ret].
  destruct (existingColorIds l); [apply stays_delete_all | apply stays_delete_not_in].
Qed.

Lemma stays_image_upload :
  stays R (match image_file req with
           | Some path => url ← uploadImage path; unlink path;; mret (Js.Str url)
           | None => mret Js.Null
           end).
Proof.
  destruct (image_file req) as [path |] eqn:E; [| apply stays_ret].
  pose proof (image_file_in_files _ E).
  apply stays_bind; [now apply R_upload |]. intros url.
  apply stays_bind; [now apply R_unlink |]. intros _. apply stays_ret.
Qed.

(** With the commit keeping the relation too, the whole [try] block
    keeps it. *)
Hypothesis R_commit : stays R commit.

Lemma stays_finish isUpdate pid : stays R (finish req isUpdate pid).
Proof.
  unfold finish. apply stays_bind; [apply stays_handle_colors |]. intros _.
  apply stays_bind; [apply R_commit |]. intros _.
  apply stays_bind; [apply stays_query |]. intros product.
  apply stays_bind; [apply stays_query |]. intros cs. apply stays_ret.
Qed.

Lemma stays_save `{Js.Builtins} isUpdate : stays R (save req isUpdate).
Proof.
  unfold save. apply stays_bind; [apply stays_beginTransaction |]. intros _.
  apply stays_bind; [apply stays_image_upload |]. intros image.
  destruct isUpdate.
  - apply stays_bind; [apply stays_query |]. intros [old |]; [| apply stays_ret].
    apply stays_bind; [apply stays_exec | intros _; apply stays_finish].
  - destruct (negb (Js.truthy image)); [apply stays_ret |].
    apply stays_bind; [apply stays_insert_product | intros pid; apply stays_finish].
Qed.

End Files.
End Stays.

Lemma tidy_of F w w' (l : list string) :
  disk w ∖ F ⊆ disk w' -> disk w' ⊆ disk w ->
  sent w' = (sent w ++ l)%list -> (forall p, p ∈ l -> p ∈ F) -> tidy F w w'.
Proof. intros Ha Hb Hs HF. refine (conj Ha (conj Hb _)). exists l. auto. Qed.

Lemma tidy_same F w w' : disk w' = disk w -> sent w' = sent w -> tidy F w w'.
Proof.
  intros Hd Hs. apply (tidy_of F w w' []).
  - rewrite Hd. now apply subseteq_difference_l.
  - now rewrite Hd.
  - now rewrite Hs, app_nil_r.
  - intros p Hp. inversion Hp.
Qed.

Lemma tidy_refl F w : tidy F w w.
Proof. now apply tidy_same. Qed.

Lemma tidy_trans F w1 w2 w3 : tidy F w1 w2 -> tidy F w2 w3 -> tidy F w1 w3.
Proof.
  intros (Ha & Hb & l & Hl & HF) (Ha' & Hb' & l' & Hl' & HF').
  apply (tidy_of F w1 w3 (l ++ l')).
  - intros x Hx. apply Ha', elem_of_difference. split; [now apply Ha |].
    apply elem_of_difference in Hx. tauto.
  - now transitivity (disk w2).
  - now rewrite Hl', Hl, app_assoc.
  - intros p Hp. apply elem_of_app in Hp as [Hp | Hp]; auto.
Qed.

Lemma tidy_save `{Js.Builtins} req isUpdate : stays (tidy (files req)) (save req isUpdate).
Proof.
  apply stays_save.
  - apply tidy_refl.
  - apply tidy_trans.
  - intros w. apply tidy_same; auto.
  - intros w t. apply tidy_same; auto.
  - intros w k. apply tidy_same; auto.
  - intros w k. apply tidy_same; auto.
  - intros path Hin e w. unfold uploadImage.
    destruct (hosted e path); simpl;
      (apply (tidy_of _ _ _ [path]);
       [now apply subseteq_difference_l | reflexivity | reflexivity
       | intros p Hp; apply list_elem_of_singleton in Hp; now subst]).
  - intros path Hin e w. unfold unlink. simpl. apply (tidy_of _ _ _ []); simpl.
    + intros x Hx. apply elem_of_difference in Hx as (Hx & HnF).
      apply elem_of_difference. split; [exact Hx |].
      intros Hp. apply elem_of_singleton in Hp. now subst.
    + now apply subseteq_difference_l.
    + now rewrite app_nil_r.
    + intros p Hp. inversion Hp.
  - apply stays_datastore;
      [apply tidy_trans | intros w; apply tidy_same; auto | intros e w; apply tidy_same; auto].
Qed.

Lemma cleaned F (d d1 : gset string) : d ∖ F ⊆ d1 -> d1 ⊆ d -> d1 ∖ F = d ∖ F.
Proof.
  intros Ha Hb. apply set_eq. intros x. rewrite !elem_of_difference. split.
  - intros (Hx & HnF). split; [now apply Hb | exact HnF].
  - intros (Hx & HnF). split; [| exact HnF]. apply Ha, elem_of_difference. now split.
Qed.

(** X24.  After a product save, however it ends (saved, 400, 404 or 500),
    every temporary file of the request is gone from the temporary
    directory and every other file is still there; and the only files
    sent to the image host are files of the request. *)
Theorem temporary_files_are_removed `{Js.Builtins} (req : request) (isUpdate : bool)
    (e : env) (w : world) :
  disk (handleProductSave req isUpdate e w).2 = disk w ∖ files req
  /\ exists l, sent (handleProductSave req isUpdate e w).2 = (sent w ++ l)%list
               /\ forall p, p ∈ l -> p ∈ files req.
Proof.
  pose proof (tidy_save req isUpdate e w) as (Ha & Hb & Hs).
  unfold handleProductSave. destruct (save req isUpdate e w) as [[r | msg] w1]; simpl in *.
  - split; [now apply cleaned | exact Hs].
  - split; [now apply cleaned | exact Hs].
Qed.

(** *** The statements one by one *)

Lemma exec_inv f e w r w' :
  exec f e w = (r, w') ->
  (exists msg, r = Throw msg /\ w' = tick w)
  \/ (r = Ok tt /\ w' = with_tx (f (tx w)) (tick w)).
Proof.
  intros E. apply datastore_inv in E as [(_ & -> & ->) | (_ & E)]; [left; eauto |].
  right. injection E as <- <-. auto.
Qed.

Lemma query_inv {A} (f : tables -> A) e w r w' :
  query f e w = (r, w') ->
  (exists msg, r = Throw msg /\ w' = tick w) \/ (r = Ok (f (tx w)) /\ w' = tick w).
Proof.
  intros E. apply datastore_inv in E as [(_ & -> & ->) | (_ & E)]; [left; eauto |].
  right. injection E as <- <-. auto.
Qed.

Lemma uploadImage_ok path e w url w' :
  uploadImage path e w = (Ok url, w') -> hosted e path = Some url /\ quiet w w'.
Proof.
  unfold uploadImage. destruct (hosted e path); [| discriminate].
  intros [= <- <-]. split; [reflexivity | repeat split].
Qed.

Lemma upload_ok path e w img w' :
  (url ← uploadImage path; unlink path;; mret (Js.Str url)) e w = (Ok img, w') ->
  (exists url, hosted e path = Some url /\ img = Js.Str url) /\ quiet w w'.
Proof.
  intros E. apply bind_inv in E as [(url & w1 & E1 & E) | (msg & _ & [=])].
  apply uploadImage_ok in E1 as (Hh & Hq).
  unfold mbind, M_bind, unlink, mret, M_ret in E. injection E as <- <-.
  split; [eauto |]. destruct Hq as (? & ? & ? & ?). repeat split; simpl; assumption.
Qed.

Lemma color_image_ok req i color e w img w' :
  (match color_files req !! i with
   | Some path => url ← uploadImage path; unlink path;; mret (Js.Str url)
   | None => mret (image color)
   end) e w = (Ok img, w') ->
  img = color_image req e i color /\ quiet w w'.
Proof.
  unfold color_image. destruct (color_files req !! i) as [path |].
  - intros E. apply upload_ok in E as ((url & -> & ->) & Hq). auto.
  - intros [= <- <-]. repeat split.
Qed.

Lemma save_color_ok req pid i color e w w' :
  save_color req pid i color e w = (Ok tt, w') ->
  (product_colors (tx w'), next_color w') =
    color_effect req e pid i color (product_colors (tx w), next_color w)
  /\ products (tx w') = products (tx w)
  /\ committed w' = committed w
  /\ next_product w' = next_product w.
Proof.
  unfold save_color. intros E.
  apply bind_inv in E as [(img & w1 & E1 & E) | (msg & _ & [=])].
  apply color_image_ok in E1 as (-> & Htx & Hc & Hp & Hn).
  unfold color_effect. cbn [fst snd]. destruct (is_insert color).
  - apply datastore_inv in E as [(_ & [=] & _) | (_ & E)].
    simpl in E. rewrite Htx, Hn in E.
    destruct (product_colors (tx w) !! next_color w); [discriminate |].
    injection E as <-. simpl. rewrite Hc, Hp. auto.
  - apply exec_inv in E as [(msg & [=] & _) | (_ & ->)].
    simpl. rewrite Htx, Hc, Hp, Hn. auto.
Qed.

Lemma save_colors_ok req pid l : forall i e w w',
  save_colors req pid i l e w = (Ok tt, w') ->
  (product_colors (tx w'), next_color w') =
    colors_effect req e pid i l (product_colors (tx w), next_color w)
  /\ products (tx w') = products (tx w)
  /\ committed w' = committed w
  /\ next_product w' = next_product w.
Proof.
  induction l as [| color rest IH]; intros i e w w' E; simpl in E.
  - injection E as <-. auto.
  - apply bind_inv in E as [([] & w1 & E1 & E) | (msg & _ & [=])].
    apply save_color_ok in E1 as (E1 & Hp & Hc & Hn).
    apply IH in E as (E & Hp' & Hc' & Hn').
    simpl. rewrite <- E1, E, Hp', Hp, Hc', Hc, Hn', Hn. auto.
Qed.

Lemma delete_all_filter pid l (m : gmap Z CatalogColor.row) :
  existingColorIds l = [] ->
  filter (fun kc => CatalogColor.product_id kc.2 <> pid) m = filter (kept pid l) m.
Proof.
  intros E. apply map_filter_ext. intros k c _. unfold kept. rewrite E. simpl.
  split.
  - intros Hne [Heq _]. contradiction.
  - intros Hk Heq. apply Hk. split; [exact Heq | apply not_elem_of_nil].
Qed.

Lemma delete_not_in_filter pid l ids (m : gmap Z CatalogColor.row) :
  ids = existingColorIds l ->
  filter (fun kc : Z * CatalogColor.row =>
            ~ (CatalogColor.product_id kc.2 = pid /\ kc.1 ∉ numbers ids)) m
  = filter (kept pid l) m.
Proof. intros ->. apply map_filter_ext. intros k c _. reflexivity. Qed.

Lemma deletion_ok pid l ids e w w1 :
  ids = existingColorIds l ->
  match ids with
  | [] => delete_all pid
  | i :: ids' => delete_not_in pid (i :: ids')
  end e w = (Ok tt, w1) ->
  w1 = with_tx (with_colors (filter (kept pid l)) (tx w)) (tick w).
Proof.
  intros Hids E1. destruct ids as [| i ids'].
  - apply exec_inv in E1 as [(msg & [=] & _) | (_ & ->)].
    unfold with_colors. now rewrite (delete_all_filter pid l _ (eq_sym Hids)).
  - unfold delete_not_in in E1. destruct (existsb is_temp (i :: ids')).
    + apply datastore_inv in E1 as [(_ & [=] & _) | (_ & [=])].
    + apply exec_inv in E1 as [(msg & [=] & _) | (_ & ->)].
      unfold with_colors. now rewrite (delete_not_in_filter pid l _ _ Hids).
Qed.

Lemma handle_colors_ok req isUpdate pid e w w' :
  handle_colors req isUpdate pid e w = (Ok tt, w') ->
  (product_colors (tx w'), next_color w') =
    reconciled req e isUpdate pid (product_colors (tx w), next_color w)
  /\ products (tx w') = products (tx w)
  /\ committed w' = committed w
  /\ next_product w' = next_product w.
Proof.
  unfold handle_colors, reconciled. destruct (colors req) as [| | l].
  - intros [= <-]. auto.
  - discriminate.
  - intros E. apply bind_inv in E as [([] & w1 & E1 & E) | (msg & _ & [=])].
    apply save_colors_ok in E as (E & Hp & Hc & Hn). cbn [fst snd].
    destruct isUpdate.
    + apply (deletion_ok pid l _ e w w1 eq_refl) in E1 as ->.
      simpl in *. auto.
    + injection E1 as <-. auto.
Qed.

(** *** Nothing is committed before the commit *)

Lemma uncommitted_handle_colors req isUpdate pid :
  stays uncommitted (handle_colors req isUpdate pid).
Proof.
  apply stays_handle_colors; unfold uncommitted; try reflexivity.
  - intros w1 w2 w3 H1 H2. congruence.
  - intros path _ e w. unfold uploadImage. now destruct (hosted e path).
  - intros path _ e w. reflexivity.
Qed.

Lemma finish_spec req isUpdate pid e w r w' :
  finish req isUpdate pid e w = (r, w') ->
  match r with
  | Ok resp =>
      resp = Saved (products (finished req e isUpdate pid w) !! pid)
                   (colors_of pid (finished req e isUpdate pid w))
      /\ committed w' = finished req e isUpdate pid w
  | Throw _ =>
      committed w' = committed w \/ committed w' = finished req e isUpdate pid w
  end.
Proof.
  unfold finish. intros E.
  apply bind_inv in E as [([] & w1 & E1 & E) | (msg & E1 & ->)].
  2:{ left. pose proof (uncommitted_handle_colors req isUpdate pid e w) as Hu.
      now rewrite E1 in Hu. }
  apply handle_colors_ok in E1 as (E1 & Hp & Hc & Hn).
  assert (Ht : tx w1 = finished req e isUpdate pid w).
  { unfold finished. rewrite <- E1. simpl. rewrite <- Hp. now destruct (tx w1). }
  apply bind_inv in E as [([] & w2 & E2 & E) | (msg & E2 & ->)].
  2:{ left. apply datastore_inv in E2 as [(_ & _ & ->) | (_ & [=])]. exact Hc. }
  apply datastore_inv in E2 as [(_ & [=] & _) | (_ & E2)]. injection E2 as <-.
  apply bind_inv in E as [(product & w3 & E3 & E) | (msg & E3 & ->)].
  2:{ right. apply query_inv in E3 as [(? & _ & ->) | ([=] & _)]. exact Ht. }
  apply query_inv in E3 as [(? & [=] & _) | ([= ->] & ->)].
  apply bind_inv in E as [(cs & w4 & E4 & E) | (msg & E4 & ->)].
  2:{ right. apply query_inv in E4 as [(? & _ & ->) | ([=] & _)]. exact Ht. }
  apply query_inv in E4 as [(? & [=] & _) | ([= ->] & ->)].
  injection E as <- <-. simpl. rewrite Ht. auto.
Qed.

(** *** The whole [try] block *)

Lemma uncommitted_image req :
  stays uncommitted
    (match image_file req with
     | Some path => url ← uploadImage path; unlink path;; mret (Js.Str url)
     | None => mret Js.Null
     end).
Proof.
  apply stays_image_upload; unfold uncommitted; try reflexivity.
  - intros w1 w2 w3 H1 H2. congruence.
  - intros path _ e w. unfold uploadImage. now destruct (hosted e path).
  - intros path _ e w. reflexivity.
Qed.

Lemma image_ok req e w img w1 :
  (match image_file req with
   | Some path => url ← uploadImage path; unlink path;; mret (Js.Str url)
   | None => mret Js.Null
   end) e w = (Ok img, w1) ->
  quiet w w1
  /\ ((image_file req = None /\ img = Js.Null)
      \/ exists path url,
           image_file req = Some path /\ hosted e path = Some url /\ img = Js.Str url).
Proof.
  destruct (image_file req) as [path |].
  - intros E. apply upload_ok in E as ((url & Hh & ->) & Hq).
    split; [exact Hq |]. right. eauto.
  - intros [= <- <-]. split; [repeat split | auto].
Qed.

Lemma product_image_uploaded req e img old :
  (image_file req = None /\ img = Js.Null)
  \/ (exists path url,
        image_file req = Some path /\ hosted e path = Some url /\ img = Js.Str url) ->
  (if Js.truthy img then img else old) = product_image req e old.
Proof.
  unfold product_image. intros [(-> & ->) | (path & url & -> & -> & ->)]; reflexivity.
Qed.

Lemma save_spec `{Js.Builtins} req isUpdate e w r w' :
  save req isUpdate e w = (r, w') ->
  match r with
  | Ok (Saved p cs) =>
      committed w' = saved req isUpdate e w
      /\ p = products (saved req isUpdate e w) !! target req isUpdate w
      /\ cs = colors_of (target req isUpdate w) (saved req isUpdate e w)
      /\ (if isUpdate
          then is_Some (products (committed w) !! params_id req)
          else products (committed w) !! next_product w = None
               /\ Js.truthy (product_image req e Js.Null) = true)
  | Ok ImageRequired =>
      isUpdate = false /\ committed w' = committed w
      /\ Js.truthy (product_image req e Js.Null) = false
  | Ok ProductNotFound =>
      isUpdate = true /\ committed w' = committed w
      /\ products (committed w) !! params_id req = None
  | Ok (SaveFailed _) => False
  | Throw _ => committed w' = committed w \/ committed w' = saved req isUpdate e w
  end.
Proof.
  unfold save. intros E.
  apply bind_inv in E as [([] & w1 & E1 & E) | (msg & E1 & ->)].
  2:{ left. apply datastore_inv in E1 as [(_ & _ & ->) | (_ & [=])]. reflexivity. }
  apply datastore_inv in E1 as [(_ & [=] & _) | (_ & E1)]. injection E1 as <-.
  apply bind_inv in E as [(img & w2 & E2 & E) | (msg & E2 & ->)].
  2:{ left. pose proof (uncommitted_image req e (with_tx (committed w) (tick w))) as Hu.
      now rewrite E2 in Hu. }
  apply image_ok in E2 as ((Htx & Hc & Hp & Hn) & Himg). simpl in Htx, Hc, Hp, Hn.
  destruct isUpdate.
  - apply bind_inv in E as [(product & w3 & E3 & E) | (msg & E3 & ->)].
    2:{ left. apply query_inv in E3 as [(? & _ & ->) | ([=] & _)]. exact Hc. }
    apply query_inv in E3 as [(? & [=] & _) | ([= ->] & ->)]. rewrite Htx in E.
    destruct (products (committed w) !! params_id req) as [old |] eqn:Eold.
    2:{ injection E as <- <-. simpl. auto. }
    apply bind_inv in E as [([] & w4 & E4 & E) | (msg & E4 & ->)].
    2:{ left. apply exec_inv in E4 as [(? & _ & ->) | ([=] & _)]. exact Hc. }
    apply exec_inv in E4 as [(? & [=] & _) | (_ & ->)].
    apply finish_spec in E.
    assert (Hf : finished req e true (params_id req)
                   (with_tx (with_products
                               (update_product (params_id req)
                                  (product_row req
                                     (if Js.truthy img then img
                                      else CatalogProduct.image old)))
                               (tx (tick w2))) (tick (tick w2)))
                 = saved req true e w).
    { unfold finished, saved, target. simpl. rewrite Htx, Hn, Eold. simpl.
      now rewrite (product_image_uploaded req e img _ Himg). }
    rewrite Hf in E. destruct r as [resp | msg].
    + destruct E as (-> & E). split_and!; auto; now rewrite Eold.
    + destruct E as [E | E]; [left | right; exact E]. simpl in E. now rewrite E.
  - destruct (negb (Js.truthy img)) eqn:Et.
    { injection E as <- <-. split_and!; auto.
      apply negb_true_iff in Et.
      now rewrite <- (product_image_uploaded req e img Js.Null Himg), Et. }
    apply negb_false_iff in Et.
    apply bind_inv in E as [(pid & w3 & E3 & E) | (msg & E3 & ->)].
    2:{ left. apply datastore_inv in E3 as [(_ & _ & ->) | (_ & E3)]; [exact Hc |].
        simpl in E3. destruct (products (tx w2) !! next_product w2); [| discriminate].
        injection E3 as _ <-. exact Hc. }
    apply datastore_inv in E3 as [(_ & [=] & _) | (_ & E3)]. simpl in E3.
    rewrite Htx, Hp in E3.
    destruct (products (committed w) !! next_product w) eqn:Efree; [discriminate |].
    injection E3 as <- <-.
    apply finish_spec in E.
    match type of E with context [finished req e false (next_product w) ?w0] =>
      assert (Hf : finished req e false (next_product w) w0 = saved req false e w)
    end.
    { unfold finished, saved, target. simpl. rewrite ?Htx, ?Hn. simpl.
      rewrite <- (product_image_uploaded req e img Js.Null Himg), Et. reflexivity. }
    rewrite Hf in E. destruct r as [resp | msg].
    + destruct E as (-> & E). split_and!; auto.
      now rewrite <- (product_image_uploaded req e img Js.Null Himg), Et.
    + destruct E as [E | E]; [left | right; exact E]. simpl in E. now rewrite E.
Qed.

(** X25.  A product save commits all of its statements or none: the
    committed tables after it are the ones before, or the product row
    and the colour table as the statements of the request make them. A
    success answer carries the product row and the colours of the
    product read from the committed tables; the 400 answer is given only
    to a creation without a usable image and the 404 answer only to an
    update of a missing product, both leaving the tables as they were. *)
Theorem product_save_is_atomic `{Js.Builtins} (req : request) (isUpdate : bool)
    (e : env) (w : world) :
  let run := handleProductSave req isUpdate e w in
  (committed run.2 = committed w \/ committed run.2 = saved req isUpdate e w)
  /\ (forall p cs, run.1 = Saved p cs ->
        committed run.2 = saved req isUpdate e w
        /\ p = products (committed run.2) !! target req isUpdate w
        /\ cs = colors_of (target req isUpdate w) (committed run.2))
  /\ (run.1 = ImageRequired ->
        isUpdate = false /\ committed run.2 = committed w
        /\ Js.truthy (product_image req e Js.Null) = false)
  /\ (run.1 = ProductNotFound ->
        isUpdate = true /\ committed run.2 = committed w
        /\ products (committed w) !! params_id req = None).
Proof.
  intros run. subst run. unfold handleProductSave.
  destruct (save req isUpdate e w) as [[resp | msg] w1] eqn:E; apply save_spec in E;
    cbn [fst snd cleanup rollback with_tx committed].
  - destruct resp as [p cs | | | details].
    + destruct E as (E & -> & -> & _). rewrite E.
      split_and!; [auto | | discriminate | discriminate].
      intros p' cs' [= <- <-]. auto.
    + destruct E as (-> & E & Hi).
      split_and!; [auto | discriminate | auto | discriminate].
    + destruct E as (-> & E & Hi).
      split_and!; [auto | discriminate | discriminate | auto].
    + contradiction.
  - split_and!; [exact E | discriminate | discriminate | discriminate].
Qed.

(** *** The colour statements, as functions on the colour table *)

Lemma update_color_lookup n pid row (m : gmap Z CatalogColor.row) k :
  update_color n pid row m !! k =
    if decide (k = n)
    then match m !! n with
         | Some old => if CatalogColor.product_id old =? pid then Some row else Some old
         | None => None
         end
    else m !! k.
Proof.
  unfold update_color. destruct (decide (k = n)) as [-> | Hne].
  - destruct (m !! n) as [old |] eqn:E; [| exact E].
    destruct (CatalogColor.product_id old =? pid); [apply lookup_insert_eq | exact E].
  - destruct (m !! n) as [old |]; [| reflexivity].
    destruct (CatalogColor.product_id old =? pid); [| reflexivity].
    now apply lookup_insert_ne.
Qed.

Lemma color_effect_ahead req e pid i color m next :
  counter_ahead m next ->
  counter_ahead (color_effect req e pid i color (m, next)).1
                (color_effect req e pid i color (m, next)).2
  /\ next <= (color_effect req e pid i color (m, next)).2.
Proof.
  intros Ha. unfold color_effect. cbn [fst snd]. destruct (is_insert color); cbn [fst snd].
  - split; [| lia]. intros k c Hk.
    destruct (decide (k = next)) as [-> | Hne]; [lia |].
    rewrite lookup_insert_ne in Hk by congruence. apply Ha in Hk. lia.
  - split; [| lia]. intros k c Hk. rewrite update_color_lookup in Hk.
    destruct (decide _) as [-> | Hne]; [| now apply Ha in Hk].
    destruct (m !! _) as [old |] eqn:E; [| discriminate]. now apply Ha in E.
Qed.

Lemma colors_effect_ahead req e pid l : forall i m next,
  counter_ahead m next ->
  counter_ahead (colors_effect req e pid i l (m, next)).1
                (colors_effect req e pid i l (m, next)).2
  /\ next <= (colors_effect req e pid i l (m, next)).2.
Proof.
  induction l as [| color rest IH]; intros i m next Ha; simpl; [split; [exact Ha | lia] |].
  destruct (color_effect_ahead req e pid i color m next Ha) as (Ha1 & Hle).
  destruct (color_effect req e pid i color (m, next)) as [m1 next1]. simpl in *.
  destruct (IH (S i) m1 next1 Ha1) as (Ha2 & Hle2). split; [exact Ha2 | lia].
Qed.

Lemma updates_spec k color :
  updates k color = true <-> id color = NumId k /\ is_insert color = false.
Proof.
  unfold updates. destruct (id color) as [| n | s].
  - split; [discriminate | now intros [? _]].
  - rewrite andb_true_iff, Z.eqb_eq, negb_true_iff. split.
    + now intros [-> ?].
    + now intros [[= ->] ?].
  - split; [discriminate | now intros [? _]].
Qed.

(** One statement: what it does to the row of key [k]. *)
Lemma color_effect_lookup req e pid i color m next k :
  counter_ahead m next ->
  k < next ->
  (color_effect req e pid i color (m, next)).1 !! k =
    match m !! k with
    | Some old =>
        if updates k color && (CatalogColor.product_id old =? pid)
        then Some (color_row pid color (color_image req e i color))
        else Some old
    | None => None
    end.
Proof.
  intros Ha Hk. unfold color_effect, updates. cbn [fst snd].
  destruct (is_insert color) eqn:Ei; cbn [fst snd].
  - rewrite lookup_insert_ne by lia.
    destruct (m !! k); [| reflexivity].
    destruct (id color); simpl; try reflexivity. now rewrite andb_false_r.
  - rewrite update_color_lookup.
    destruct (id color) as [| n | s] eqn:Eid.
    + unfold is_insert in Ei. rewrite Eid in Ei. simpl in Ei.
      now rewrite orb_true_r in Ei.
    + destruct (decide (k = n)) as [-> | Hne].
      * rewrite Z.eqb_refl. simpl.
        destruct (m !! n) as [old |]; [| reflexivity].
        now destruct (CatalogColor.product_id old =? pid).
      * replace (n =? k) with false by (symmetry; apply Z.eqb_neq; congruence).
        simpl. now destruct (m !! k).
    + unfold is_insert in Ei. rewrite Eid in Ei. simpl in Ei.
      now rewrite orb_true_r in Ei.
Qed.

Lemma colors_effect_absent req e pid l : forall i m next k,
  counter_ahead m next ->
  m !! k = None -> k < next ->
  (colors_effect req e pid i l (m, next)).1 !! k = None.
Proof.
  induction l as [| color rest IH]; intros i m next k Ha Hk Hlt; simpl; [exact Hk |].
  pose proof (color_effect_lookup req e pid i color m next k Ha Hlt) as Hstep.
  destruct (color_effect_ahead req e pid i color m next Ha) as (Ha1 & Hle).
  destruct (color_effect req e pid i color (m, next)) as [m1 next1]. simpl in *.
  apply (IH (S i) m1 next1 k Ha1); [now rewrite Hstep, Hk | lia].
Qed.

(** A row of another product is left as it is. *)
Lemma colors_effect_other req e pid l : forall i m next k c,
  counter_ahead m next ->
  m !! k = Some c -> CatalogColor.product_id c <> pid ->
  (colors_effect req e pid i l (m, next)).1 !! k = Some c.
Proof.
  induction l as [| color rest IH]; intros i m next k c Ha Hk Hp; simpl; [exact Hk |].
  pose proof (color_effect_lookup req e pid i color m next k Ha (Ha _ _ Hk)) as Hstep.
  destruct (color_effect_ahead req e pid i color m next Ha) as (Ha1 & _).
  destruct (color_effect req e pid i color (m, next)) as [m1 next1]. simpl in *.
  apply (IH (S i) m1 next1 k c Ha1); [| exact Hp].
  rewrite Hstep, Hk. apply Z.eqb_neq in Hp. now rewrite Hp, andb_false_r.
Qed.

(** A row of the product stays as it is when no colour of [l] updates it,
    and ends as the row of a colour that does otherwise. *)
Lemma colors_effect_listed req e pid l : forall i m next k c,
  counter_ahead m next ->
  m !! k = Some c -> CatalogColor.product_id c = pid ->
  ((colors_effect req e pid i l (m, next)).1 !! k = Some c
   /\ forall j color, l !! j = Some color -> updates k color = false)
  \/ exists j color,
       l !! j = Some color /\ updates k color = true
       /\ (colors_effect req e pid i l (m, next)).1 !! k =
            Some (color_row pid color (color_image req e (i + j)%nat color)).
Proof.
  induction l as [| color rest IH]; intros i m next k c Ha Hk Hp; simpl.
  { left. split; [exact Hk | intros j color; discriminate]. }
  pose proof (color_effect_lookup req e pid i color m next k Ha (Ha _ _ Hk)) as Hstep.
  destruct (color_effect_ahead req e pid i color m next Ha) as (Ha1 & _).
  destruct (color_effect req e pid i color (m, next)) as [m1 next1]. simpl in *.
  rewrite Hk, Hp, Z.eqb_refl, andb_true_r in Hstep.
  destruct (updates k color) eqn:Eu.
  - right.
    destruct (IH (S i) m1 next1 k _ Ha1 Hstep eq_refl)
      as [(Hsame & _) | (j & c' & Hj & Hu & Hr)].
    + exists O, color. rewrite Nat.add_0_r. auto.
    + exists (S j), c'. rewrite Nat.add_succ_r. auto.
  - destruct (IH (S i) m1 next1 k c Ha1 Hstep Hp)
      as [(Hsame & Hno) | (j & c' & Hj & Hu & Hr)].
    + left. split; [exact Hsame |]. intros [| j] color' Hj.
      * injection Hj as <-. exact Eu.
      * apply (Hno j color' Hj).
    + right. exists (S j), c'. rewrite Nat.add_succ_r. auto.
Qed.

(** A row after the statements was there before, or is the row of a
    colour of [l]. *)
Lemma colors_effect_from req e pid l : forall i m next k c,
  counter_ahead m next ->
  (colors_effect req e pid i l (m, next)).1 !! k = Some c ->
  m !! k = Some c
  \/ exists j color,
       l !! j = Some color
       /\ c = color_row pid color (color_image req e (i + j)%nat color).
Proof.
  induction l as [| color rest IH]; intros i m next k c Ha Hk; simpl in Hk; [now left |].
  destruct (color_effect_ahead req e pid i color m next Ha) as (Ha1 & _).
  assert (Hstep : forall c1, (color_effect req e pid i color (m, next)).1 !! k = Some c1 ->
            m !! k = Some c1
            \/ c1 = color_row pid color (color_image req e i color)).
  { intros c1. unfold color_effect. cbn [fst snd]. destruct (is_insert color); cbn [fst snd].
    - destruct (decide (k = next)) as [-> | Hne].
      + rewrite lookup_insert_eq. intros [= <-]. now right.
      + rewrite lookup_insert_ne by congruence. now left.
    - rewrite update_color_lookup. destruct (decide _) as [-> | Hne]; [| now left].
      destruct (m !! _) as [old |]; [| discriminate].
      destruct (CatalogColor.product_id old =? pid); intros [= <-]; [now right | now left]. }
  destruct (color_effect req e pid i color (m, next)) as [m1 next1]. simpl in *.
  destruct (IH (S i) m1 next1 k c Ha1 Hk) as [Hin | (j & c' & Hj & ->)].
  - destruct (Hstep c Hin) as [Hm | ->]; [now left |].
    right. exists O, color. now rewrite Nat.add_0_r.
  - right. exists (S j), c'. now rewrite Nat.add_succ_r.
Qed.

Lemma listed_color k l :
  k ∈ numbers (existingColorIds l) <->
  exists j color, l !! j = Some color /\ updates k color = true.
Proof.
  unfold numbers, existingColorIds. rewrite list_elem_of_omap. split.
  - intros (i & Hi & Hk). destruct i as [| n | s]; try discriminate. injection Hk as ->.
    apply list_elem_of_In, in_map_iff in Hi as (color & Hid & Hin).
    apply filter_In in Hin as (Hin & Hf). apply andb_true_iff in Hf as (Hnew & Ht).
    apply list_elem_of_In, list_elem_of_lookup in Hin as (j & Hj).
    exists j, color. split; [exact Hj |]. apply updates_spec. split; [exact Hid |].
    unfold is_insert. apply negb_true_iff in Hnew. rewrite Hnew, Ht, Hid. reflexivity.
  - intros (j & color & Hj & Hu). apply updates_spec in Hu as (Hid & Hins).
    exists (NumId k). split; [| reflexivity].
    rewrite <- Hid. apply list_elem_of_In, in_map, filter_In. split.
    + apply list_elem_of_In. eapply list_elem_of_lookup_2. exact Hj.
    + unfold is_insert in Hins. apply orb_false_iff in Hins as (Hins & _).
      apply orb_false_iff in Hins as (-> & Ht). apply negb_false_iff in Ht.
      now rewrite Ht.
Qed.

Lemma counter_ahead_filter (P : Z * CatalogColor.row -> Prop) `{forall x, Decision (P x)}
    (m : gmap Z CatalogColor.row) next :
  counter_ahead m next -> counter_ahead (filter P m) next.
Proof. intros Ha k c Hk. apply map_lookup_filter_Some in Hk as (Hk & _). eauto. Qed.

Lemma reconciled_update req e pid l (m : gmap Z CatalogColor.row) next :
  colors req = Colors l ->
  counter_ahead m next ->
  let after := (reconciled req e true pid (m, next)).1 in
  (forall k c, m !! k = Some c -> CatalogColor.product_id c <> pid -> after !! k = Some c)
  /\ (forall k c, m !! k = Some c -> CatalogColor.product_id c = pid ->
        k ∉ numbers (existingColorIds l) -> after !! k = None)
  /\ (forall k c, m !! k = Some c -> CatalogColor.product_id c = pid ->
        k ∈ numbers (existingColorIds l) ->
        exists j color,
          l !! j = Some color /\ id color = NumId k /\ isNew color = false
          /\ after !! k = Some (color_row pid color (color_image req e j color)))
  /\ (forall k c, after !! k = Some c -> CatalogColor.product_id c = pid ->
        exists j color,
          l !! j = Some color /\ c = color_row pid color (color_image req e j color)).
Proof.
  intros Hl Ha after. subst after. unfold reconciled. rewrite Hl. cbn [fst snd].
  pose proof (counter_ahead_filter (kept pid l) m next Ha) as Ha0.
  assert (Hlisted : forall k c, m !! k = Some c -> CatalogColor.product_id c = pid ->
            k ∈ numbers (existingColorIds l) ->
            exists j color,
              l !! j = Some color /\ updates k color = true
              /\ (colors_effect req e pid 0 l (filter (kept pid l) m, next)).1 !! k =
                   Some (color_row pid color (color_image req e j color))).
  { intros k c Hk Hp Hin.
    assert (Hk0 : filter (kept pid l) m !! k = Some c).
    { apply map_lookup_filter_Some. split; [exact Hk |]. intros [_ Hn]. now apply Hn. }
    destruct (colors_effect_listed req e pid l O _ next k c Ha0 Hk0 Hp)
      as [(_ & Hno) | (j & color & Hj & Hu & Hr)].
    - apply listed_color in Hin as (j & color & Hj & Hu).
      rewrite (Hno j color Hj) in Hu. discriminate.
    - exists j, color. auto. }
  refine (conj _ (conj _ (conj _ _))).
  - intros k c Hk Hp. apply colors_effect_other; [exact Ha0 | | exact Hp].
    apply map_lookup_filter_Some. split; [exact Hk |]. intros [Heq _]. contradiction.
  - intros k c Hk Hp Hnot. apply colors_effect_absent; [exact Ha0 | | now apply Ha in Hk].
    apply map_lookup_filter_None. right. intros c' Hk' Hkept.
    rewrite Hk in Hk'. injection Hk' as <-. apply Hkept. now split.
  - intros k c Hk Hp Hin.
    destruct (Hlisted k c Hk Hp Hin) as (j & color & Hj & Hu & Hr).
    apply updates_spec in Hu as (Hid & Hins).
    exists j, color. refine (conj Hj (conj Hid (conj _ Hr))).
    unfold is_insert in Hins. apply orb_false_iff in Hins as (Hins & _).
    now apply orb_false_iff in Hins as (-> & _).
  - intros k c Hk Hp.
    destruct (colors_effect_from req e pid l O _ next k c Ha0 Hk)
      as [Hin | (j & color & Hj & ->)]; [| eauto].
    apply map_lookup_filter_Some in Hin as (Hin & Hkept).
    destruct (decide (k ∈ numbers (existingColorIds l))) as [Hl' | Hl'].
    + destruct (Hlisted k c Hin Hp Hl') as (j & color & Hj & _ & Hr).
      rewrite Hk in Hr. injection Hr as ->. eauto.
    + exfalso. apply Hkept. now split.
Qed.

Lemma handleProductSave_saved `{Js.Builtins} req isUpdate e w p cs :
  (handleProductSave req isUpdate e w).1 = Saved p cs ->
  committed (handleProductSave req isUpdate e w).2 = saved req isUpdate e w
  /\ p = products (saved req isUpdate e w) !! target req isUpdate w
  /\ cs = colors_of (target req isUpdate w) (saved req isUpdate e w)
  /\ (if isUpdate
      then is_Some (products (committed w) !! params_id req)
      else products (committed w) !! next_product w = None
           /\ Js.truthy (product_image req e Js.Null) = true).
Proof.
  unfold handleProductSave.
  destruct (save req isUpdate e w) as [[resp | msg] w1] eqn:E; [| discriminate].
  apply save_spec in E. cbn [fst snd]. intros ->. exact E.
Qed.

(** X26.  A successful update that sends a colour list, on a colour table
    whose keys are below the auto-increment counter: the colours of
    other products are untouched; a colour of the product whose id is
    not listed as kept is deleted; a kept colour holds the name, hex
    code, stock and image of a listed entry with its id; every colour
    the product has afterwards is the row of an entry of the list; and
    the colours of the answer are the product's rows in the committed
    table. *)
Theorem colours_follow_the_request `{Js.Builtins} (req : request) (e : env) (w : world)
    (l : list color_input) (p : option CatalogProduct.row)
    (cs : list (Z * CatalogColor.row)) :
  colors req = Colors l ->
  counter_ahead (product_colors (committed w)) (next_color w) ->
  (handleProductSave req true e w).1 = Saved p cs ->
  let productId := params_id req in
  let before := product_colors (committed w) in
  let after := product_colors (committed (handleProductSave req true e w).2) in
  (forall k c, before !! k = Some c -> CatalogColor.product_id c <> productId ->
     after !! k = Some c)
  /\ (forall k c, before !! k = Some c -> CatalogColor.product_id c = productId ->
        k ∉ numbers (existingColorIds l) -> after !! k = None)
  /\ (forall k c, before !! k = Some c -> CatalogColor.product_id c = productId ->
        k ∈ numbers (existingColorIds l) ->
        exists j color,
          l !! j = Some color /\ id color = NumId k /\ isNew color = false
          /\ after !! k = Some (color_row productId color (color_image req e j color)))
  /\ (forall k c, after !! k = Some c -> CatalogColor.product_id c = productId ->
        exists j color,
          l !! j = Some color
          /\ c = color_row productId color (color_image req e j color))
  /\ (forall k c, (k, c) ∈ cs -> after !! k = Some c /\ CatalogColor.product_id c = productId).
Proof.
  intros Hl Ha Hs productId before after.
  apply handleProductSave_saved in Hs as (Hc & _ & -> & _).
  subst after. rewrite Hc.
  destruct (reconciled_update req e productId l _ _ Hl Ha) as (H1 & H2 & H3 & H4).
  refine (conj H1 (conj H2 (conj H3 (conj H4 _)))).
  intros k c Hin. unfold colors_of in Hin.
  apply elem_of_map_to_list, map_lookup_filter_Some in Hin. exact Hin.
Qed.

(** X27.  A successful save stores, under the id of the product, the row
    made of the request's fields, and changes no other product. On an
    update the product existed and its image is the hosted copy of the
    uploaded file if there is one, else the image it had: without an
    uploaded file the image is kept. On a creation the id was free and
    the image is the non-empty URL of the uploaded file. *)
Theorem saved_product_row `{Js.Builtins} (req : request) (isUpdate : bool) (e : env)
    (w : world) (p : option CatalogProduct.row) (cs : list (Z * CatalogColor.row)) :
  (handleProductSave req isUpdate e w).1 = Saved p cs ->
  exists new,
    p = Some new
    /\ products (committed (handleProductSave req isUpdate e w).2) =
         <[target req isUpdate w := new]> (products (committed w))
    /\ new = product_row req (CatalogProduct.image new)
    /\ if isUpdate
       then exists old,
              products (committed w) !! params_id req = Some old
              /\ CatalogProduct.image new = product_image req e (CatalogProduct.image old)
              /\ (image_file req = None ->
                  CatalogProduct.image new = CatalogProduct.image old)
       else products (committed w) !! next_product w = None
            /\ Js.truthy (CatalogProduct.image new) = true.
Proof.
  intros Hs. apply handleProductSave_saved in Hs as (Hc & -> & _ & Hi). rewrite Hc.
  unfold saved, target. cbn [products]. destruct isUpdate.
  - destruct Hi as (old & Eold). rewrite Eold. cbn [from_option].
    unfold update_product. rewrite Eold, lookup_insert_eq.
    eexists. split_and!; [reflexivity | reflexivity | reflexivity |].
    exists old. split_and!; [reflexivity | reflexivity |].
    intros Enone. cbn [CatalogProduct.image product_row]. unfold product_image.
    now rewrite Enone.
  - destruct Hi as (Hfree & Ht). rewrite lookup_insert_eq.
    eexists. split_and!; [reflexivity | reflexivity | reflexivity | exact Hfree | exact Ht].
Qed.

Lemma temp_listed l color s :
  In color l -> id color = TempId s -> isNew color = false ->
  existsb is_temp (existingColorIds l) = true.
Proof.
  intros Hin Hid Hnew. apply existsb_exists. exists (TempId s). split; [| reflexivity].
  unfold existingColorIds. rewrite <- Hid. apply in_map, filter_In.
  split; [exact Hin |]. now rewrite Hnew, Hid.
Qed.

Lemma finish_temp req pid l e w r w' :
  colors req = Colors l ->
  existsb is_temp (existingColorIds l) = true ->
  finish req true pid e w = (r, w') ->
  (exists msg, r = Throw msg) /\ committed w' = committed w.
Proof.
  intros Hl Ht E. unfold finish in E.
  apply bind_inv in E as [([] & w1 & E1 & E) | (msg & E1 & ->)].
  - exfalso. unfold handle_colors in E1. rewrite Hl in E1.
    apply bind_inv in E1 as [([] & w0 & E0 & _) | (msg & _ & [=])].
    destruct (existingColorIds l) as [| i ids]; [discriminate |].
    unfold delete_not_in in E0. rewrite Ht in E0.
    apply datastore_inv in E0 as [(_ & [=] & _) | (_ & [=])].
  - split; [eauto |].
    pose proof (uncommitted_handle_colors req true pid e w) as Hu. now rewrite E1 in Hu.
Qed.

Lemma save_temp `{Js.Builtins} req l e w r w' :
  colors req = Colors l ->
  existsb is_temp (existingColorIds l) = true ->
  save req true e w = (r, w') ->
  (r = Ok ProductNotFound \/ exists msg, r = Throw msg) /\ committed w' = committed w.
Proof.
  intros Hl Ht E. unfold save in E.
  apply bind_inv in E as [([] & w1 & E1 & E) | (msg & E1 & ->)].
  2:{ split; [eauto |]. apply datastore_inv in E1 as [(_ & _ & ->) | (_ & [=])]. reflexivity. }
  apply datastore_inv in E1 as [(_ & [=] & _) | (_ & E1)]. injection E1 as <-.
  apply bind_inv in E as [(img & w2 & E2 & E) | (msg & E2 & ->)].
  2:{ split; [eauto |].
      pose proof (uncommitted_image req e (with_tx (committed w) (tick w))) as Hu.
      now rewrite E2 in Hu. }
  apply image_ok in E2 as ((Htx & Hc & Hp & Hn) & _). simpl in Hc.
  apply bind_inv in E as [(product & w3 & E3 & E) | (msg & E3 & ->)].
  2:{ split; [eauto |]. apply query_inv in E3 as [(? & _ & ->) | ([=] & _)]. exact Hc. }
  apply query_inv in E3 as [(? & [=] & _) | ([= ->] & ->)].
  destruct (products (tx w2) !! params_id req) as [old |].
  2:{ injection E as <- <-. split; [auto | exact Hc]. }
  apply bind_inv in E as [([] & w4 & E4 & E) | (msg & E4 & ->)].
  2:{ split; [eauto |]. apply exec_inv in E4 as [(? & _ & ->) | ([=] & _)]. exact Hc. }
  apply exec_inv in E4 as [(? & [=] & _) | (_ & ->)].
  apply (finish_temp req _ l _ _ _ _ Hl Ht) in E as (Hr & Hcw).
  split; [auto |]. rewrite Hcw. exact Hc.
Qed.

(** X28.  An update whose colour list holds an entry with a client-side
    ['temp-'] id that is not flagged [isNew] never succeeds: the id is
    spliced into the [DELETE ... NOT IN (...)] statement, the answer is
    500 (or 404 when the product is missing), and nothing is committed. *)
Theorem unflagged_temporary_id_fails_the_update `{Js.Builtins} (req : request) (e : env)
    (w : world) (l : list color_input) (color : color_input) (s : string) :
  colors req = Colors l ->
  In color l -> id color = TempId s -> isNew color = false ->
  committed (handleProductSave req true e w).2 = committed w
  /\ ((handleProductSave req true e w).1 = ProductNotFound
      \/ exists details, (handleProductSave req true e w).1 = SaveFailed details).
Proof.
  intros Hl Hin Hid Hnew. pose proof (temp_listed l color s Hin Hid Hnew) as Ht.
  unfold handleProductSave.
  destruct (save req true e w) as [r w1] eqn:E.
  apply (save_temp req l e w r w1 Hl Ht) in E as ([-> | (msg & ->)] & Hc); simpl.
  - split; [exact Hc | now left].
  - split; [exact Hc | right; eauto].
Qed.

Lemma colours_follow_the_request_witness :
  product_colors
    (committed (handleProductSave (H := Js.numeric_builtins)
                  SaveSamples.edit true SaveSamples.host SaveSamples.shelf).2) !! 3
    = Some (SaveSamples.shade 2 "Vert" "#00ff00")
  /\ product_colors
       (committed (handleProductSave (H := Js.numeric_builtins)
                     SaveSamples.edit true SaveSamples.host SaveSamples.shelf).2) !! 2
     = None.
Proof.
  assert (Hs : exists p cs,
             (handleProductSave (H := Js.numeric_builtins)
                SaveSamples.edit true SaveSamples.host SaveSamples.shelf).1 = Saved p cs)
    by (vm_compute; eauto).
  destruct Hs as (p & cs & Hs).
  assert (Ha : counter_ahead (product_colors (committed SaveSamples.shelf))
                             (next_color SaveSamples.shelf)).
  { intros k c Hk. unfold SaveSamples.shelf, SaveSamples.catalogue in *.
    cbn [committed product_colors next_color] in *.
    destruct (decide (k = 1)) as [-> | N1]; [lia |].
    rewrite lookup_insert_ne in Hk by congruence.
    destruct (decide (k = 2)) as [-> | N2]; [lia |].
    rewrite lookup_insert_ne in Hk by congruence.
    destruct (decide (k = 3)) as [-> | N3]; [lia |].
    rewrite lookup_singleton_ne in Hk by congruence. discriminate. }
  destruct (colours_follow_the_request (H := Js.numeric_builtins)
              SaveSamples.edit SaveSamples.host SaveSamples.shelf SaveSamples.palette p cs
              eq_refl Ha Hs) as (H1 & H2 & _).
  split.
  - apply H1; [reflexivity | discriminate].
  - apply (H2 2 (SaveSamples.shade 1 "Bleu" "#0000ff")); [reflexivity | reflexivity |].
    intros Hin. apply list_elem_of_singleton in Hin. discriminate.
Defined.

Lemma saved_product_row_witness :
  exists new,
    products
      (committed (handleProductSave (H := Js.numeric_builtins)
                    SaveSamples.edit true SaveSamples.host SaveSamples.shelf).2) !! 1
      = Some new
    /\ CatalogProduct.image new = Js.Str "https://i.ibb.co/shirt.png".
Proof.
  assert (Hs : exists p cs,
             (handleProductSave (H := Js.numeric_builtins)
                SaveSamples.edit true SaveSamples.host SaveSamples.shelf).1 = Saved p cs)
    by (vm_compute; eauto).
  destruct Hs as (p & cs & Hs).
  destruct (saved_product_row (H := Js.numeric_builtins)
              SaveSamples.edit true SaveSamples.host SaveSamples.shelf p cs Hs)
    as (new & _ & Hp & _ & old & Hold & _ & Hkeep).
  exists new. split.
  - rewrite Hp. apply lookup_insert_eq.
  - rewrite (Hkeep eq_refl). injection Hold as <-. reflexivity.
Defined.

Lemma unflagged_temporary_id_fails_the_update_witness :
  committed (handleProductSave (H := Js.numeric_builtins)
               SaveSamples.stale_edit true SaveSamples.host SaveSamples.shelf).2
  = SaveSamples.catalogue.
Proof.
  apply (proj1 (unflagged_temporary_id_fails_the_update (H := Js.numeric_builtins)
                  SaveSamples.stale_edit SaveSamples.host SaveSamples.shelf
                  SaveSamples.stale_palette
                  (SaveSamples.entry (TempId "temp-17") false "Jaune" "#ffff00") "temp-17"
                  eq_refl (or_intror (or_introl eq_refl)) eq_refl eq_refl)).
Defined.

End SaveFacts.

Module LabelFacts.
Import Store OrderRoutes OrderModel StoredStatus.






End LabelFacts.
